(** * AllNovel extension for Mangayomi: a shallow embedding and its properties

    The repository ships two implementations of the AllNovel source:
    - the class-based one ([class DefaultExtension], browser DOM API:
      [querySelector], [getAttribute], [textContent]), embedded in
      [Module ClassVariant];
    - the runtime one (top-level functions over the host's [Client] and
      [Document]: [select], [selectFirst], [attr], [text]), embedded in
      [Module Runtime].

    JavaScript strings are sequences of UTF-16 code units.  For the text
    of pages and for addresses the embedding uses [string], one [ascii]
    per code unit, and so covers the strings whose code units are below
    256 (Latin-1); whitespace, case mapping and percent-encoding are
    those of ECMAScript restricted to that range.  The query of a search
    comes from the caller and is percent-encoded outside any handler:
    it is a list of sixteen-bit code units ([JS.ustring]), on which
    [encodeURIComponent] can throw.  A value that may be [null] or
    [undefined] is an [option]; a page number is an integer that
    JavaScript prints in decimal (below 10^21). *)

From Stdlib Require Import Ascii ZArith Lia.
From Stdlib Require String.
From stdpp Require Import base option list strings pretty gmap.

Local Open Scope Z_scope.

(* ===================================================================== *)
(** * ECMAScript string primitives                                        *)
(* ===================================================================== *)

Module JS.

(** WhiteSpace and LineTerminator code units below 256: TAB, LF, VT, FF,
    CR, SP and NBSP.  This is the class of [String.prototype.trim] and of
    the regular-expression escape [\s]. *)
Definition is_ws (c : ascii) : bool :=
  match c with
  | "009" | "010" | "011" | "012" | "013" | " " | "160" => true
  | _ => false
  end%char.

(** [toLowerCase] on one code unit: A-Z, and the Latin-1 capitals
    U+00C0..U+00DE except the multiplication sign U+00D7. *)
Definition lower_char (c : ascii) : ascii :=
  let n := nat_of_ascii c in
  if ((65 <=? n)%nat && (n <=? 90)%nat)
     || ((192 <=? n)%nat && (n <=? 222)%nat && negb (n =? 215)%nat)
  then ascii_of_nat (n + 32) else c.

Fixpoint toLowerCase (s : string) : string :=
  match s with
  | EmptyString => EmptyString
  | String c r => String (lower_char c) (toLowerCase r)
  end.

(** [s.startsWith(p)] *)
Definition startsWith (s p : string) : bool := String.prefix p s.

(** [s.includes(sub)] *)
Fixpoint includes (s sub : string) : bool :=
  String.prefix sub s
  || match s with
     | EmptyString => false
     | String _ r => includes r sub
     end.

Fixpoint trimStart (s : string) : string :=
  match s with
  | EmptyString => EmptyString
  | String c r => if is_ws c then trimStart r else s
  end.

Fixpoint trimEnd (s : string) : string :=
  match s with
  | EmptyString => EmptyString
  | String c r =>
      match trimEnd r with
      | EmptyString => if is_ws c then EmptyString else String c EmptyString
      | r' => String c r'
      end
  end.

(** [s.trim()] *)
Definition trim (s : string) : string := trimEnd (trimStart s).

(** [s.replace(/\s+/g, " ")]: every maximal run of whitespace becomes one
    space.  [in_run] tells that the previous code unit was whitespace. *)
Fixpoint collapse_from (in_run : bool) (s : string) : string :=
  match s with
  | EmptyString => EmptyString
  | String c r =>
      if is_ws c
      then (if in_run then collapse_from true r
            else String " " (collapse_from true r))
      else String c (collapse_from false r)
  end.

Definition collapse_ws (s : string) : string := collapse_from false s.

(** A string as the caller may hand it over, with code units of sixteen
    bits: a code unit is two bytes, the high byte first.  [widen] reads
    a Latin-1 string as such a string. *)
Definition CodeUnit : Type := ascii * ascii.
Definition ustring : Type := list CodeUnit.

Definition code (u : CodeUnit) : N :=
  (256 * N_of_ascii (fst u) + N_of_ascii (snd u))%N.

Definition widen (s : string) : ustring :=
  map (fun c => (Ascii.zero, c)) (String.list_ascii_of_string s).

(** Leading surrogates U+D800..U+DBFF, trailing surrogates
    U+DC00..U+DFFF. *)
Definition is_high (n : N) : bool := ((55296 <=? n) && (n <=? 56319))%N.
Definition is_low (n : N) : bool := ((56320 <=? n) && (n <=? 57343))%N.

(** [s.isWellFormed()]: every surrogate is one of a pair. *)
Fixpoint isWellFormed (s : ustring) : bool :=
  match s with
  | [] => true
  | u :: r =>
      if is_low (code u) then false
      else if is_high (code u) then
        match r with
        | u2 :: r2 => is_low (code u2) && isWellFormed r2
        | [] => false
        end
      else isWellFormed r
  end.

(** Truthiness of a string-or-null value: [null], [undefined] and the
    empty string are falsy. *)
Definition truthy (v : option string) : bool :=
  match v with
  | Some (String _ _) => true
  | _ => false
  end.

(** A string that is not empty and consists of whitespace only. *)
Definition blank (v : option string) : Prop :=
  exists s, v = Some s /\ s <> EmptyString /\ trim s = EmptyString.

(** [a || b] on string-or-null values. *)
Definition or_else (a b : option string) : option string :=
  if truthy a then a else b.

End JS.

Infix "|||" := JS.or_else (at level 50, left associativity).

(* ===================================================================== *)
(** * The document tree and its selector queries                          *)
(* ===================================================================== *)

(** The parse collaborator hands out a tree of elements and text nodes
    with select-all, select-first, text and attribute access.  The tree
    below is what both the browser DOM and the host's [Document] expose
    to the extension; comments and processing instructions are left out
    as no operation of the extension observes them.

    A [template] element has no children: the nodes written inside it
    are its content, a fragment of its own that the queries and
    [textContent] do not reach and that the serialiser writes out with
    the element. *)

Module Dom.

Definition Attrs := list (string * string).

#[warnings="-register-all"]
Inductive Node :=
| TextNode (data : string)
| Element (tag : string) (attrs : Attrs) (children : list Node)
| Template (attrs : Attrs) (content : list Node).

(** A parsed document: its top-level nodes (normally one [html] element)
    and whether the parser put it in quirks mode, where class and id
    selectors match ASCII case-insensitively. *)
Record Document := mkDocument { quirks : bool; roots : list Node }.

(** An element handle: the element together with the tags and attributes
    of its ancestors, nearest first.  A selector such as [".chapters a"]
    evaluated on an element still looks at ancestors outside of it. *)
Record Elem := mkElem {
  e_quirks : bool;
  e_anc : list (string * Attrs);
  e_tag : string;
  e_attrs : Attrs;
  e_children : list Node }.

(** ** Selectors: the fragment of CSS the extension uses

    selector list  ::= complex ("," complex)*
    complex        ::= compound (whitespace compound)*   (descendant)
    compound       ::= [tag | "*"] ("." class | "#" id | "[" attr "]"
                                   | "[" attr "*='" value "']")*  *)

Inductive AttrTest :=
| HasAttr (name : string)
| AttrIncludes (name value : string).

Record Compound := mkCompound {
  c_tag : option string;
  c_id : option string;
  c_classes : list string;
  c_attrs : list AttrTest }.

Definition Complex := list Compound.
Definition SelectorList := list Complex.

Definition snoc (s : string) (c : ascii) : string :=
  String.append s (String c EmptyString).

(** Split at every occurrence of a separator code unit. *)
Fixpoint split_on (sep : ascii -> bool) (cur : string) (s : string)
  : list string :=
  match s with
  | EmptyString => [cur]
  | String c r =>
      if sep c then cur :: split_on sep EmptyString r
      else split_on sep (snoc cur c) r
  end.

Definition nonempty (s : string) : bool :=
  match s with EmptyString => false | _ => true end.

(** ASCII whitespace of HTML: TAB, LF, FF, CR, SP. *)
Definition is_html_space (c : ascii) : bool :=
  match c with
  | "009" | "010" | "012" | "013" | " " => true
  | _ => false
  end%char.

Definition tokens (s : string) : list string :=
  List.filter nonempty (split_on is_html_space EmptyString s).

(** The text of an attribute test between the brackets: [name] or
    [name*='value']. *)
Fixpoint parse_attr (name : string) (s : string) : AttrTest :=
  match s with
  | EmptyString => HasAttr name
  | String "*" (String "=" (String _ v)) =>
      AttrIncludes name (String.substring 0 (String.length v - 1) v)
  | String c r => parse_attr (snoc name c) r
  end.

Inductive Mode := InTag | InClass | InId | InAttr.

Definition flush (m : Mode) (buf : string) (c : Compound) : Compound :=
  match m, buf with
  | InAttr, _ =>
      mkCompound (c_tag c) (c_id c) (c_classes c)
                 (c_attrs c ++ [parse_attr EmptyString buf])
  | _, EmptyString => c
  | InTag, _ =>
      if String.eqb buf "*" then c
      else mkCompound (Some buf) (c_id c) (c_classes c) (c_attrs c)
  | InClass, _ => mkCompound (c_tag c) (c_id c) (c_classes c ++ [buf]) (c_attrs c)
  | InId, _ => mkCompound (c_tag c) (Some buf) (c_classes c) (c_attrs c)
  end.

Fixpoint parse_compound (m : Mode) (buf : string) (c : Compound) (s : string)
  : Compound :=
  match s with
  | EmptyString => match m with InAttr => c | _ => flush m buf c end
  | String ch r =>
      match m, ch with
      | InAttr, "]"%char => parse_compound InTag EmptyString (flush InAttr buf c) r
      | InAttr, _ => parse_compound InAttr (snoc buf ch) c r
      | _, "."%char => parse_compound InClass EmptyString (flush m buf c) r
      | _, "#"%char => parse_compound InId EmptyString (flush m buf c) r
      | _, "["%char => parse_compound InAttr EmptyString (flush m buf c) r
      | _, _ => parse_compound m (snoc buf ch) c r
      end
  end.

Definition empty_compound : Compound := mkCompound None None [] [].

Definition parse_complex (s : string) : Complex :=
  map (parse_compound InTag EmptyString empty_compound) (tokens s).

Definition parse_selector (s : string) : SelectorList :=
  map parse_complex (split_on (Ascii.eqb ","%char) EmptyString s).

(** ** Matching *)

Fixpoint lookup_attr (name : string) (a : Attrs) : option string :=
  match a with
  | [] => None
  | (k, v) :: r => if String.eqb k name then Some v else lookup_attr name r
  end.

Definition ascii_lower (c : ascii) : ascii :=
  let n := nat_of_ascii c in
  if ((65 <=? n)%nat && (n <=? 90)%nat) then ascii_of_nat (n + 32) else c.

Fixpoint ascii_lowercase (s : string) : string :=
  match s with
  | EmptyString => EmptyString
  | String c r => String (ascii_lower c) (ascii_lowercase r)
  end.

(** Class and id names compare exactly, or ASCII case-insensitively in a
    quirks-mode document. *)
Definition name_eqb (q : bool) (a b : string) : bool :=
  if q then String.eqb (ascii_lowercase a) (ascii_lowercase b)
  else String.eqb a b.

Definition class_list (a : Attrs) : list string :=
  match lookup_attr "class" a with
  | Some v => tokens v
  | None => []
  end.

Definition has_class (q : bool) (a : Attrs) (cls : string) : bool :=
  existsb (name_eqb q cls) (class_list a).

(** An attribute test.  In an HTML document the value of [rel] compares
    ASCII case-insensitively (as do the values of some legacy
    attributes, none of which the extension queries); other values
    compare exactly. *)
Definition attr_test (a : Attrs) (t : AttrTest) : bool :=
  match t with
  | HasAttr n => bool_decide (is_Some (lookup_attr n a))
  | AttrIncludes n v =>
      match lookup_attr n a with
      | Some x =>
          if String.eqb n "rel"
          then JS.includes (ascii_lowercase x) (ascii_lowercase v)
          else JS.includes x v
      | None => false
      end
  end.

Definition matches_compound (q : bool) (c : Compound) (t : string * Attrs)
  : bool :=
  match c_tag c with Some n => String.eqb n (fst t) | None => true end
  && match c_id c with
     | Some i => match lookup_attr "id" (snd t) with
                 | Some x => name_eqb q i x
                 | None => false
                 end
     | None => true
     end
  && forallb (has_class q (snd t)) (c_classes c)
  && forallb (attr_test (snd t)) (c_attrs c).

(** The remaining compounds of a descendant chain, innermost first,
    against the ancestors, nearest first. *)
Fixpoint matches_chain (q : bool) (cs : list Compound)
  (anc : list (string * Attrs)) {struct anc} : bool :=
  match cs, anc with
  | [], _ => true
  | _ :: _, [] => false
  | c :: cs', a :: anc' =>
      if matches_compound q c a then matches_chain q cs' anc'
      else matches_chain q cs anc'
  end.

Definition matches_in (q : bool) (anc : list (string * Attrs))
  (t : string * Attrs) (cx : Complex) : bool :=
  match rev cx with
  | [] => false
  | subject :: outer => matches_compound q subject t && matches_chain q outer anc
  end.

Definition matches_list (q : bool) (anc : list (string * Attrs))
  (t : string * Attrs) (sl : SelectorList) : bool :=
  existsb (matches_in q anc t) sl.

Definition matches (sl : SelectorList) (e : Elem) : bool :=
  matches_list (e_quirks e) (e_anc e) (e_tag e, e_attrs e) sl.

(** A selector list without combinators: whether it matches an element
    does not depend on the ancestors. *)
Definition simple (sl : SelectorList) : bool :=
  forallb (fun cx => match cx with [_] => true | _ => false end) sl.

(** A selector list without attribute tests. *)
Definition no_attr_tests (sl : SelectorList) : bool :=
  forallb (forallb (fun c => match c_attrs c with [] => true | _ => false end)) sl.

(** ** Traversal *)

(** The elements of a subtree in document order, the root included. *)
Fixpoint elements_of (q : bool) (anc : list (string * Attrs)) (n : Node)
  : list Elem :=
  match n with
  | TextNode _ => []
  | Element t a ks =>
      mkElem q anc t a ks
      :: (fix go (l : list Node) : list Elem :=
            match l with
            | [] => []
            | k :: r => elements_of q ((t, a) :: anc) k ++ go r
            end) ks
  | Template a _ => [mkElem q anc "template" a []]
  end.

Definition elements_in (q : bool) (anc : list (string * Attrs))
  (l : list Node) : list Elem :=
  flat_map (elements_of q anc) l.

Fixpoint text_of (n : Node) : string :=
  match n with
  | TextNode d => d
  | Element _ _ ks =>
      (fix go (l : list Node) : string :=
         match l with
         | [] => EmptyString
         | k :: r => String.append (text_of k) (go r)
         end) ks
  | Template _ _ => EmptyString
  end.

Definition text_in (l : list Node) : string :=
  fold_right (fun k acc => String.append (text_of k) acc) EmptyString l.

(** The contents of the [template] elements of a subtree, in document
    order. *)
Fixpoint contents_of (n : Node) : list (list Node) :=
  match n with
  | TextNode _ => []
  | Element _ _ ks =>
      (fix go (l : list Node) : list (list Node) :=
         match l with
         | [] => []
         | k :: r => contents_of k ++ go r
         end) ks
  | Template _ c => [c]
  end.

Definition contents_in (l : list Node) : list (list Node) :=
  flat_map contents_of l.

(** What a query ranges over: the element descendants of its receiver. *)
Class Scope (A : Type) := scope_elems : A -> list Elem.

#[global] Instance Document_scope : Scope Document :=
  fun d => elements_in (quirks d) [] (roots d).

#[global] Instance Elem_scope : Scope Elem :=
  fun e => elements_in (e_quirks e) ((e_tag e, e_attrs e) :: e_anc e)
                       (e_children e).

Definition querySelectorAll {A} `{Scope A} (sel : string) (x : A) : list Elem :=
  List.filter (matches (parse_selector sel)) (scope_elems x).

Definition querySelector {A} `{Scope A} (sel : string) (x : A) : option Elem :=
  head (querySelectorAll sel x).

Definition textContent (e : Elem) : string := text_in (e_children e).

Definition getAttribute (name : string) (e : Elem) : option string :=
  lookup_attr name (e_attrs e).

(** [document.title]: the text of the first [title] element, with ASCII
    whitespace stripped and collapsed. *)
Definition title (d : Document) : string :=
  match querySelector "title" d with
  | Some t => String.concat " " (tokens (textContent t))
  | None => EmptyString
  end.

End Dom.

(* ===================================================================== *)
(** * The URL constructor                                                 *)
(* ===================================================================== *)

(** [new URL(input, base)] is a built-in of the platform.  The extension
    observes a URL object through [toString()], [search] and
    [searchParams.toString()], and changes it only by [u.search = ""]. *)

Module Url.

Record URLObject := mkURL {
  href : string;            (* u.toString() *)
  search : string;          (* u.search: empty, or "?" and the query *)
  searchParams : string;    (* u.searchParams.toString() *)
  origin : string }.        (* u.origin *)

Class Api := {
  (** [new URL(input)] and [new URL(input, base)]; [None] when the
      constructor throws a TypeError. *)
  URL_new : string -> option string -> option URLObject;
  (** The object after [u.search = ""]. *)
  clear_search : URLObject -> URLObject }.

(** A serialised URL begins with its scheme, so it is not empty, is not
    changed by [trim] and does not begin with a slash. *)
Definition scheme_led (h : string) : Prop :=
  h <> EmptyString /\ JS.trim h = h /\ JS.startsWith h "/" = false.

(** The facts of the URL Standard the properties below rest on. *)
Class Laws `{Api} : Prop := {
  (** the empty string is not an absolute URL *)
  url_empty : URL_new EmptyString None = None;
  (** parsing a serialisation gives back the URL it serialises *)
  url_reparse : forall s b u,
    URL_new s b = Some u -> URL_new (href u) None = Some u;
  (** the same after the query has been cleared, and then there is no
      query left *)
  url_reparse_cleared : forall s b u,
    URL_new s b = Some u ->
    URL_new (href (clear_search u)) None = Some (clear_search u);
  url_cleared : forall s b u,
    URL_new s b = Some u ->
    search (clear_search u) = EmptyString
    /\ searchParams (clear_search u) = EmptyString;
  url_href : forall s b u,
    URL_new s b = Some u ->
    scheme_led (href u) /\ scheme_led (href (clear_search u));
  (** a reference beginning with two slashes takes the scheme of an
      https base and nothing else from it *)
  url_scheme_relative : forall base rest,
    JS.startsWith base "https://" = true ->
    is_Some (URL_new base None) ->
    URL_new (String.append "//" rest) (Some base)
    = URL_new (String.append "https://" rest) None;
  (** a reference beginning with one slash replaces the path of a base
      that is a bare origin *)
  url_path_absolute : forall base b c rest,
    URL_new base None = Some b ->
    href b = String.append (origin b) "/" ->
    c <> "/"%char -> c <> "\"%char -> c <> "009"%char ->
    c <> "010"%char -> c <> "013"%char ->
    URL_new (String "/" (String c rest)) (Some base)
    = URL_new (String.append (origin b) (String "/" (String c rest))) None;
  (** the origin of the site is a URL, serialised with a slash after it *)
  url_site : exists b,
    URL_new "https://allnovel.org" None = Some b
    /\ href b = "https://allnovel.org/"
    /\ origin b = "https://allnovel.org" }.

End Url.

(* ===================================================================== *)
(** * Asynchronous operations and the network                             *)
(* ===================================================================== *)

(** Every entry point is an [async] function whose only suspension points
    are fetches.  An operation is run against the state of the network,
    returns a value or throws, and leaves the list of the addresses it
    requested, in order. *)

Module Async.

Import Dom.

(** What fetching and parsing an address gives; [None] is a transport
    failure (the fetch throws). *)
Definition Net := option string -> option Document.

Inductive Exn :=
| TransportFailure (url : option string)
| Error (msg : string)
| URIError.

Inductive Result (A : Type) :=
| Ok (a : A)
| Throw (e : Exn).
Arguments Ok {A} a.
Arguments Throw {A} e.

Definition IO (A : Type) : Type := Net -> Result A * list (option string).

Definition ret {A} (a : A) : IO A := fun _ => (Ok a, []).

Definition throw {A} (e : Exn) : IO A := fun _ => (Throw e, []).

Definition bind {A B} (m : IO A) (f : A -> IO B) : IO B :=
  fun net =>
    match m net with
    | (Ok a, t) => let '(r, t') := f a net in (r, t ++ t')
    | (Throw e, t) => (Throw e, t)
    end.

(** [try { m } catch (e) { h }] *)
Definition try_catch {A} (m : IO A) (h : IO A) : IO A :=
  fun net =>
    match m net with
    | (Ok a, t) => (Ok a, t)
    | (Throw _, t) => let '(r, t') := h net in (r, t ++ t')
    end.

(** [parseHTML(await request(url))], [new Document((await clientGet(url)).body)] *)
Definition fetch (url : option string) : IO Document :=
  fun net =>
    match net url with
    | Some d => (Ok d, [url])
    | None => (Throw (TransportFailure url), [url])
    end.

#[global] Instance IO_ret : MRet IO := @ret.
#[global] Instance IO_bind : MBind IO := fun A B f m => bind m f.

(** An operation that returns on every network. *)
Definition returns {A} (m : IO A) : Prop :=
  forall net, exists a t, m net = (Ok a, t).

Definition outcome {A} (r : Result A * list (option string)) : Result A := fst r.
Definition requested {A} (r : Result A * list (option string))
  : list (option string) := snd r.

End Async.


(* ===================================================================== *)
(** * Regular expressions and encoders used by the extension             *)
(* ===================================================================== *)

Module Text.

(** [String.prototype.substring(n)] *)
Fixpoint skip (n : nat) (s : string) : string :=
  match n, s with
  | S n', String _ r => skip n' r
  | _, _ => s
  end.

Fixpoint drop_while (p : ascii -> bool) (s : string) : string :=
  match s with
  | EmptyString => EmptyString
  | String c r => if p c then drop_while p r else s
  end.

(** [s.replace(/label[...]*/i, "")] for a lower-case ASCII [label] and a
    character class [eat]: the leftmost case-insensitive occurrence of
    the label goes, with the longest run of [eat] code units after it. *)
Fixpoint remove_label (label : string) (eat : ascii -> bool) (s : string)
  : string :=
  if String.prefix label (Dom.ascii_lowercase s)
  then drop_while eat (skip (String.length label) s)
  else match s with
       | EmptyString => EmptyString
       | String c r => String c (remove_label label eat r)
       end.

(** The class [[:\s]]. *)
Definition colon_or_space (c : ascii) : bool :=
  Ascii.eqb c ":" || JS.is_ws c.

(** [s.replace(/by/i, "")] *)
Definition remove_by (s : string) : string :=
  remove_label "by" (fun _ => false) s.

(** [s.replace(/^\/\/+/g, "https://")] *)
Definition replace_leading_slashes (s : string) : string :=
  if JS.startsWith s "//"
  then String.append "https://" (drop_while (Ascii.eqb "/") s)
  else s.

(** [s.replace(/\/$/, "")] *)
Fixpoint strip_trailing_slash (s : string) : string :=
  match s with
  | EmptyString => EmptyString
  | String c EmptyString => if Ascii.eqb c "/" then EmptyString else s
  | String c r => String c (strip_trailing_slash r)
  end.

Definition hex_digit (n : nat) : ascii :=
  ascii_of_nat (if (n <? 10)%nat then 48 + n else 55 + n).

Definition percent (n : nat) : string :=
  String "%" (String (hex_digit (n / 16)) (String (hex_digit (n mod 16)) EmptyString)).

(** The code units [encodeURIComponent] leaves alone. *)
Definition uri_unreserved (c : ascii) : bool :=
  let n := nat_of_ascii c in
  ((65 <=? n)%nat && (n <=? 90)%nat) || ((97 <=? n)%nat && (n <=? 122)%nat)
  || ((48 <=? n)%nat && (n <=? 57)%nat)
  || match c with
     | "-" | "_" | "." | "!" | "~" | "*" | "'" | "(" | ")" => true
     | _ => false
     end%char.

(** [encodeURIComponent(s)]: the UTF-8 bytes of every other code unit,
    percent-encoded. *)
Fixpoint encodeURIComponent (s : string) : string :=
  match s with
  | EmptyString => EmptyString
  | String c r =>
      let n := nat_of_ascii c in
      String.append
        (if uri_unreserved c then String c EmptyString
         else if (n <? 128)%nat then percent n
         else String.append (percent (192 + n / 64)) (percent (128 + n mod 64)))
        (encodeURIComponent r)
  end.

(** The percent-encoded UTF-8 bytes of a code point. *)
Definition utf8 (cp : N) : string :=
  let byte := fun b : N => percent (N.to_nat b) in
  if (cp <? 128)%N then byte cp
  else if (cp <? 2048)%N
  then String.append (byte (192 + cp / 64)%N) (byte (128 + cp mod 64)%N)
  else if (cp <? 65536)%N
  then String.append (byte (224 + cp / 4096)%N)
         (String.append (byte (128 + (cp / 64) mod 64)%N)
                        (byte (128 + cp mod 64)%N))
  else String.append (byte (240 + cp / 262144)%N)
         (String.append (byte (128 + (cp / 4096) mod 64)%N)
            (String.append (byte (128 + (cp / 64) mod 64)%N)
                           (byte (128 + cp mod 64)%N))).

(** [encodeURIComponent(s)] on a string of sixteen-bit code units:
    [None] is the URIError thrown at a surrogate that is not one of a
    pair.  On Latin-1 text it agrees with the function above, which is
    used for text read from a parsed page. *)
Fixpoint encodeURIComponent16 (s : JS.ustring) : option string :=
  match s with
  | [] => Some EmptyString
  | u :: r =>
      let n := JS.code u in
      if (n <? 128)%N && uri_unreserved (ascii_of_N n)
      then String (ascii_of_N n) <$> encodeURIComponent16 r
      else if JS.is_low n then None
      else if JS.is_high n then
        match r with
        | u2 :: r2 =>
            if JS.is_low (JS.code u2)
            then String.append
                   (utf8 (65536 + (n - 55296) * 1024 + (JS.code u2 - 56320))%N)
                 <$> encodeURIComponent16 r2
            else None
        | [] => None
        end
      else String.append (utf8 n) <$> encodeURIComponent16 r
  end.

End Text.

(* ===================================================================== *)
(** * The class-based implementation ([class DefaultExtension])           *)
(* ===================================================================== *)

Module ClassVariant.

Import Dom Async Url Text.

Definition BASE : string := "https://allnovel.org".

Record Item := mkItem {
  name : string;
  url : string;
  cover : option string;
  author : option string }.

Record Listing := mkListing { results : list Item; hasMore : bool }.

Record Update := mkUpdate {
  u_name : string;
  u_url : string;
  u_cover : option string;
  u_date : option string;
  u_summary : option string }.

Record Updates := mkUpdates { u_results : list Update; u_hasMore : bool }.

Record Chapter := mkChapter { ch_name : string; ch_url : option string }.

Record Detail := mkDetail {
  d_name : string;
  d_url : option string;
  d_cover : option string;
  d_author : option string;
  d_status : option string;
  d_summary : option string;
  d_genres : list string;
  d_chapters : list Chapter }.

(** What [cleanHtmlContent] returns: the serialisation of a list of
    nodes ([doc.body.innerHTML]), or the markup it was given. *)
Inductive Html :=
| InnerHTML (nodes : list Node)
| RawHtml.

Section Extension.

Context `{Url.Api}.

Definition toAbsolute (url : option string) : option string :=
  match url with
  | None | Some EmptyString => None
  | Some u =>
      match URL_new u (Some BASE) with
      | Some o => Some (href o)
      | None => Some u
      end
  end.

Definition fixImageUrl (rawUrl : option string) : option string :=
  match rawUrl with
  | None | Some EmptyString => None
  | Some raw =>
      let url := JS.trim raw in
      let url := replace_leading_slashes url in
      let url := if JS.startsWith url "/"
                 then String.append (strip_trailing_slash BASE) url else url in
      match URL_new url None with
      | Some u =>
          let q := searchParams u in
          if (40 <? String.length q)%nat
          then Some (href (clear_search u))
          else Some (href u)
      | None => Some url
      end
  end.

(** ** Listings *)

Definition paged (path : string) (page : Z) : string :=
  String.append BASE (String.append path (String.append "?paged=" (pretty page))).

Definition popularCandidates (page : Z) : list string :=
  [ paged "/most-popular/" page; paged "/hot/" page; paged "/" page ].

Definition latestCandidates (page : Z) : list string :=
  [ paged "/latest/" page; paged "/" page ].

(** The candidate loop of [getPopular] and [getLatestUpdates]: [doc] is
    the variable of that name, which a failed fetch leaves as it was. *)
Fixpoint fetchCandidates (probe : string) (candidates : list string)
  (doc : option Document) : IO (option Document) :=
  match candidates with
  | [] => mret doc
  | u :: rest =>
      r ← try_catch (d ← fetch (Some u); mret (Some d)) (mret None);
      match r with
      | Some d =>
          if bool_decide (is_Some (querySelector probe d)) then mret (Some d)
          else fetchCandidates probe rest (Some d)
      | None => fetchCandidates probe rest doc
      end
  end.

Definition image_of (el : Elem) : option string :=
  match querySelector "img" el with
  | Some img => fixImageUrl (getAttribute "data-src" img ||| getAttribute "src" img ||| None)
  | None => None
  end.

Definition popularItem (el : Elem) : option Item :=
  let a := querySelector "h2 a, .entry-title a, a" el in
  let url := match a with Some a => toAbsolute (getAttribute "href" a) | None => None end in
  let name := match a with Some a => Some (JS.trim (textContent a)) | None => None end in
  let img := image_of el in
  let authorEl := querySelector ".author, .byline, .entry-author" el in
  let author := match authorEl with
                | Some e => Some (JS.trim (remove_by (textContent e)))
                | None => None
                end in
  match url, name with
  | Some url, Some name =>
      if JS.truthy (Some url) && JS.truthy (Some name)
      then Some (mkItem name url img author) else None
  | _, _ => None
  end.

(** The "basic dedupe" loop with its [seen] set. *)
Fixpoint dedupe (seen : gset string) (items : list Item) : list Item :=
  match items with
  | [] => []
  | it :: rest =>
      if bool_decide (url it ∈ seen) then dedupe seen rest
      else it :: dedupe ({[ url it ]} ∪ seen) rest
  end.

Definition getPopular (page : Z) : IO Listing :=
  doc ← fetchCandidates "article, .post, .novel-item, .entry"
                        (popularCandidates page) None;
  match doc with
  | None => throw (Error "Failed to fetch popular list")
  | Some doc =>
      let items := omap popularItem
                     (querySelectorAll ".post, article, .novel-item, .entry" doc) in
      mret (mkListing (dedupe ∅ items)
              (bool_decide (is_Some
                 (querySelector ".nav-previous a, a.next, .older a" doc))))
  end.

Definition latestItem (el : Elem) : option Update :=
  let a := querySelector "h2 a, .entry-title a, a" el in
  let url := match a with Some a => toAbsolute (getAttribute "href" a) | None => None end in
  let name := match a with Some a => Some (JS.trim (textContent a)) | None => None end in
  let img := image_of el in
  let date := match querySelector "time" el with
              | Some t => getAttribute "datetime" t ||| Some (textContent t)
              | None => None
              end in
  let summary := match querySelector ".excerpt, .entry-summary, p" el with
                 | Some e => Some (JS.trim (textContent e))
                 | None => None
                 end in
  match url, name with
  | Some url, Some name =>
      if JS.truthy (Some url) && JS.truthy (Some name)
      then Some (mkUpdate name url img date summary) else None
  | _, _ => None
  end.

Definition getLatestUpdates (page : Z) : IO Updates :=
  doc ← fetchCandidates "article, .post, .entry" (latestCandidates page) None;
  match doc with
  | None => throw (Error "Failed to fetch latest updates")
  | Some doc =>
      mret (mkUpdates
              (omap latestItem (querySelectorAll "article, .post, .entry" doc))
              (bool_decide (is_Some
                 (querySelector ".nav-previous a, a.next, .older a" doc))))
  end.

(** ** Detail page *)

(** The status branch of the metadata loop: "Ongoing", "Completed", or
    the label as the site wrote it. *)
Definition statusOf (liText : string) : string :=
  let s := JS.toLowerCase (JS.trim (remove_label "status" colon_or_space liText)) in
  if JS.includes s "ongoing" || JS.includes s "updating" || JS.includes s "serial"
  then "Ongoing"
  else if JS.includes s "complete" || JS.includes s "completed"
          || JS.includes s "finished"
  then "Completed"
  else JS.trim (remove_label "status" colon_or_space liText).

(** One round of [metaNodes.forEach]; the state is ([author], [status]). *)
Definition metaStep (st : option string * option string) (li : Elem)
  : option string * option string :=
  let txt := JS.toLowerCase (textContent li) in
  if JS.includes txt "author"
  then (Some (JS.trim (remove_label "author" colon_or_space (textContent li))), snd st)
  else if JS.includes txt "status"
  then (fst st, Some (statusOf (textContent li)))
  else st.

Definition metaSelector : string :=
  ".post-meta li, .meta li, .entry-meta li, .book-meta li, .novel-info li".

Definition authorAndStatus (doc : Document) : option string * option string :=
  match querySelectorAll metaSelector doc with
  | [] =>
      match querySelector "a[rel*='author'], .author a, .by a" doc with
      | Some a => (Some (JS.trim (textContent a)), None)
      | None => (None, None)
      end
  | metaNodes => fold_left metaStep metaNodes (None, None)
  end.

Definition genresOf (doc : Document) : list string :=
  List.filter nonempty
    (map (fun t => JS.trim (textContent t))
       (querySelectorAll ".tags a, .genres a, .post-categories a, .cat-links a" doc)).

Definition descSelector : string :=
  ".entry-content, .description, .summary, .book-summary, #content .post-content, .post-content".

Definition summaryOf (doc : Document) : option string :=
  match querySelector descSelector doc with
  | None => None
  | Some descEl =>
      let summary := JS.trim (textContent descEl) in
      match querySelector "p" descEl with
      | Some p =>
          if (String.length (JS.trim (textContent p)) <? 400)%nat
          then Some (JS.trim (textContent p)) else Some summary
      | None => Some summary
      end
  end.

Definition potentialContainers : list string :=
  [ ".chapter-list a"; ".chapters a"; ".toc a"; ".chapter a";
    ".post-content a[href*='/chapter-']"; ".entry-content a[href*='/chapter-']";
    ".entry-content a.chapter" ].

Definition chapterOf (a : Elem) : option Chapter :=
  let href := toAbsolute (getAttribute "href" a) in
  let title := JS.trim (textContent a) in
  if JS.truthy href && JS.truthy (Some title)
  then Some (mkChapter title href) else None.

(** The loop over [potentialContainers]; returns [chapters] and [found]. *)
Fixpoint scanContainers (doc : Document) (sels : list string)
  (chapters : list Chapter) : list Chapter * bool :=
  match sels with
  | [] => (chapters, false)
  | sel :: rest =>
      match querySelectorAll sel doc with
      | [] => scanContainers doc rest chapters
      | els =>
          let chapters := chapters ++ omap chapterOf els in
          match chapters with
          | [] => scanContainers doc rest chapters
          | _ => (chapters, true)
          end
      end
  end.

Definition isTocLink (a : Elem) : bool :=
  let txt := JS.toLowerCase (textContent a) in
  JS.includes txt "table of contents" || JS.includes txt "chapters"
  || JS.includes txt "view all".

(** The second tier of chapter discovery: the first link labelled as a
    table of contents is followed; a failure on the way is ignored. *)
Definition followToc (doc : Document) (chapters : list Chapter)
  : IO (list Chapter) :=
  match List.find isTocLink (querySelectorAll "a" doc) with
  | Some tocLink =>
      try_catch
        (tocDoc ← fetch (toAbsolute (getAttribute "href" tocLink));
         mret (chapters ++
               omap chapterOf
                 (querySelectorAll
                    "a[href*='chapter'], .chapter-list a, .chapters a" tocDoc)))
        (mret chapters)
  | None => mret chapters
  end.

(** The chapter part of [getDetail]: the two tiers, then the page itself
    as a single chapter. *)
Definition chaptersOf (doc : Document) (url : option string)
  : IO (list Chapter) :=
  let '(chapters, found) := scanContainers doc potentialContainers [] in
  chapters ← (if found then mret chapters else followToc doc chapters);
  mret (match chapters with
        | [] => [mkChapter "Chapter (single page)" url]
        | _ => chapters
        end).

Definition titleOf (doc : Document) : string :=
  let titleEl :=
    match querySelector "h1.entry-title, h1.title, .post-title" doc with
    | Some e => Some e
    | None => querySelector "h1" doc
    end in
  match titleEl with
  | Some e => JS.trim (textContent e)
  | None => JS.trim (title doc)
  end.

Definition coverOf (doc : Document) : option string :=
  let coverEl :=
    querySelector
      ".post-thumbnail img, .entry-media img, .thumb img, .wp-post-image, .single-cover img"
      doc in
  let cover := match coverEl with
               | Some e => getAttribute "data-src" e ||| getAttribute "src" e ||| None
               | None => None
               end in
  fixImageUrl cover.

Definition getDetail (novelUrl : option string) : IO Detail :=
  let url := toAbsolute novelUrl in
  doc ← fetch url;
  let name := titleOf doc in
  let cover := coverOf doc in
  let '(author, status) := authorAndStatus doc in
  let genres := genresOf doc in
  let summary := summaryOf doc in
  chapters ← chaptersOf doc url;
  mret (mkDetail name url cover author status summary genres chapters).

Definition getChapterList (novelUrl : option string) : IO (list Chapter) :=
  detail ← getDetail novelUrl;
  mret (d_chapters detail).

(** ** Sanitising chapter markup *)

(** [doc.querySelectorAll(sel).forEach((n) => n.remove())] on one node:
    an element that matches goes with its subtree.  The content of a
    [template] is not among the nodes of the document: a template goes
    or stays as a whole. *)
Fixpoint prune (sl : SelectorList) (q : bool) (anc : list (string * Attrs))
  (n : Node) : list Node :=
  match n with
  | TextNode _ => [n]
  | Element t a ks =>
      if matches_list q anc (t, a) sl then []
      else [Element t a
              ((fix go (l : list Node) : list Node :=
                  match l with
                  | [] => []
                  | k :: r => prune sl q ((t, a) :: anc) k ++ go r
                  end) ks)]
  | Template a _ => if matches_list q anc ("template", a) sl then [] else [n]
  end.

Definition removeAll (sel : string) (doc : Document) : Document :=
  mkDocument (quirks doc)
    (flat_map (prune (parse_selector sel) (quirks doc) []) (roots doc)).

(** [/^on/i.test(name)] *)
Definition isHandlerName (name : string) : bool :=
  String.prefix "on" (ascii_lowercase name).

(** [el.removeAttribute(name)] *)
Definition removeAttribute (name : string) (a : Attrs) : Attrs :=
  List.filter (fun kv => negb (String.eqb (fst kv) name)) a.

(** [Array.from(el.attributes).forEach(...)]: the loop runs over a
    snapshot of the attributes and removes from the element. *)
Definition stripHandlers (a : Attrs) : Attrs :=
  fold_left (fun cur attr =>
               if isHandlerName (fst attr) then removeAttribute (fst attr) cur
               else cur) a a.

(** [doc.querySelectorAll("*").forEach(...)] on one node. *)
Fixpoint stripNode (n : Node) : Node :=
  match n with
  | TextNode _ => n
  | Element t a ks => Element t (stripHandlers a) (map stripNode ks)
  | Template a c => Template (stripHandlers a) c
  end.

Definition stripAll (doc : Document) : Document :=
  mkDocument (quirks doc) (map stripNode (roots doc)).

Definition first_element (l : list Node) : option Node :=
  List.find (fun n => match n with TextNode _ => false | _ => true end) l.

(** [doc.body]: the first [body] or [frameset] child of the [html] root. *)
Definition body (doc : Document) : option Node :=
  match first_element (roots doc) with
  | Some (Element "html" _ ks) =>
      List.find (fun n => match n with
                          | Element t _ _ => String.eqb t "body" || String.eqb t "frameset"
                          | _ => false
                          end) ks
  | _ => None
  end.

Definition children (n : Node) : list Node :=
  match n with
  | Element _ _ ks => ks
  | _ => []
  end.

Definition execSelector : string := "script, style, iframe, noscript".

Definition adSelector : string :=
  ".ads, .advert, .share, .social, .related, .related-posts, .post-navigation, .nav-links".

(** [cleanHtmlContent(rawHtml)], on the document [parseHTML(rawHtml)]. *)
Definition cleanHtmlContent (doc : Document) : Html :=
  let doc := removeAll execSelector doc in
  let doc := removeAll adSelector doc in
  let doc := stripAll doc in
  match body doc with
  | Some b => InnerHTML (children b)
  | None => RawHtml
  end.

(** ** What the sanitiser is measured against *)

(** The document an HTML parser builds for a fragment of markup: the
    [html], [head] and [body] elements are its own and carry no
    attribute; markup that can only sit in the head lands in [hs], the
    rest in [bs]. *)
Definition parsedFragment (q : bool) (hs bs : list Node) : Document :=
  mkDocument q [Element "html" [] [Element "head" [] hs; Element "body" [] bs]].

(** The ancestors of a child of the body of a parsed fragment. *)
Definition in_body : list (string * Attrs) := [("body", []); ("html", [])].

(** Whether a removal pass takes away an element of this tag and these
    attributes, wherever it stands. *)
Definition removes (sl : SelectorList) (q : bool) (t : string * Attrs) : bool :=
  matches_list q [] t sl.

(** The two selector lists, parsed. *)
Definition exec : SelectorList := Eval vm_compute in parse_selector execSelector.
Definition ads : SelectorList := Eval vm_compute in parse_selector adSelector.

(** An element that one of the two removal passes takes away. *)
Definition unwanted (q : bool) (t : string * Attrs) : bool :=
  removes exec q t || removes ads q t.

(** An element that no removal touches: neither it, nor an ancestor, nor
    a descendant is unwanted. *)
Definition unrelated (p : Elem) : Prop :=
  Forall (fun t => unwanted (e_quirks p) t = false) ((e_tag p, e_attrs p) :: e_anc p)
  /\ Forall (fun d => unwanted (e_quirks p) (e_tag d, e_attrs d) = false)
            (scope_elems p).

(** Ancestors and an element after the attribute pass. *)
Definition stripAnc (anc : list (string * Attrs)) : list (string * Attrs) :=
  map (fun t => (t.1, stripHandlers t.2)) anc.

Definition stripElem (e : Elem) : Elem :=
  mkElem (e_quirks e) (stripAnc (e_anc e))
         (e_tag e) (stripHandlers (e_attrs e)) (map stripNode (e_children e)).

End Extension.

(** ** Search *)

(** [{ name, url, cover, author, summary }]; the fallback branch leaves
    [author] and [summary] out. *)
Record SearchItem := mkSearchItem {
  s_name : string;
  s_url : string;
  s_cover : option string;
  s_author : option string;
  s_summary : option string }.

Record SearchListing := mkSearchListing {
  s_results : list SearchItem;
  s_hasMore : bool }.

Section Search.

Context `{Url.Api}.

(** [a.href]: the address of a link as its document resolves it, the
    empty string when the link has no [href].  It depends on the base
    address of the document, which the environment supplies. *)
Variable anchorHref : Document -> Elem -> string.

(** The address of the search page; [None] when [encodeURIComponent]
    throws. *)
Definition searchUrl (query : JS.ustring) (page : Z) : option string :=
  match query with
  | [] => Some (String.append BASE (String.append "/?paged=" (pretty page)))
  | _ =>
      encoded ← encodeURIComponent16 query;
      Some (String.append BASE
              (String.append "/?s="
                 (String.append encoded
                    (String.append "&paged=" (pretty page)))))
  end.

(** One round of [items.forEach]: the entry pushed, if any. *)
Definition searchItem (el : Elem) : option SearchItem :=
  let a := match querySelector
                   "h2 a, .entry-title a, a[href*='/novel/'], a[href*='/book/']" el with
           | Some a => Some a
           | None => querySelector "a" el
           end in
  let url := match a with Some a => toAbsolute (getAttribute "href" a) | None => None end in
  let name := match a with
              | Some a => Some (JS.trim (textContent a))
              | None =>
                  match querySelector ".entry-title" el with
                  | Some t => Some (JS.trim (textContent t))
                  | None => None
                  end
              end in
  let img := match querySelector "img" el with
             | Some img =>
                 fixImageUrl (getAttribute "data-src" img ||| getAttribute "src" img
                              ||| getAttribute "data-lazy-src" img ||| None)
             | None => None
             end in
  let author := match querySelector ".author, .entry-author, .byline" el with
                | Some e => Some (JS.trim (remove_by (textContent e)))
                | None => None
                end in
  let summary := match querySelector ".excerpt, .summary, .entry-summary, p" el with
                 | Some e => Some (JS.trim (textContent e))
                 | None => None
                 end in
  match url, name with
  | Some url, Some name =>
      if JS.truthy (Some url) && JS.truthy (Some name)
      then Some (mkSearchItem name url img author summary) else None
  | _, _ => None
  end.

(** One round of [fallback.forEach]. *)
Definition fallbackItem (doc : Document) (el : Elem) : option SearchItem :=
  let a := querySelector "a" el in
  let url := match a with Some a => toAbsolute (Some (anchorHref doc a)) | None => None end in
  let name := match a with Some a => Some (JS.trim (textContent a)) | None => None end in
  let img := match querySelector "img" el with
             | Some img => fixImageUrl (getAttribute "src" img
                                        ||| getAttribute "data-src" img ||| None)
             | None => None
             end in
  match url, name with
  | Some url, Some name =>
      if JS.truthy (Some url) && JS.truthy (Some name)
      then Some (mkSearchItem name url img None None) else None
  | _, _ => None
  end.

Definition search (query : JS.ustring) (page : Z) : IO SearchListing :=
  searchUrl ← match searchUrl query page with
              | Some url => mret url
              | None => throw URIError
              end;
  doc ← fetch (Some searchUrl);
  let items := querySelectorAll ".search-results .post, .archive .post, article" doc in
  let results :=
    match items with
    | [] => omap (fallbackItem doc)
                 (querySelectorAll ".post-list li, .novel-list li, .item" doc)
    | _ => omap searchItem items
    end in
  mret (mkSearchListing results
          (bool_decide (is_Some
             (querySelector ".nav-previous a, .older a, a.next, .pagination a.next"
                            doc)))).

End Search.

(** ** Chapter content: the container and the images

    [getChapterContent] passes markup through the serialiser and the
    parser between its steps; the two steps below work on the tree. *)

Section ChapterContent.

Context `{Url.Api}.

Definition chapterSelectors : list string :=
  [ ".chapter-content"; ".entry-content"; ".post-content"; ".single-post .content";
    ".reading-content"; "#content"; ".novel-body" ].

(** The loop over the selectors: the first container with more than ten
    code units of trimmed text. *)
Fixpoint firstChapterContent (doc : Document) (sels : list string)
  : option Elem :=
  match sels with
  | [] => None
  | sel :: rest =>
      match querySelector sel doc with
      | Some el =>
          if (10 <? String.length (JS.trim (textContent el)))%nat then Some el
          else firstChapterContent doc rest
      | None => firstChapterContent doc rest
      end
  end.

(** One round of the search for the child with most text; the state is
    ([maxEl], [maxLen]). *)
Definition largerOf (st : option Elem * nat) (c : Elem) : option Elem * nat :=
  let len := String.length (textContent c) in
  if (snd st <? len)%nat then (Some c, len) else st.

Definition contentElOf (doc : Document) : option Elem :=
  match firstChapterContent doc chapterSelectors with
  | Some el => Some el
  | None =>
      match querySelector "article, .post" doc with
      | Some article =>
          match fst (fold_left largerOf (querySelectorAll "div, p" article)
                               (None, 0%nat)) with
          | Some maxEl => Some maxEl
          | None => Some article
          end
      | None => None
      end
  end.

(** [el.setAttribute(name, value)] *)
Fixpoint setAttribute (name value : string) (a : Attrs) : Attrs :=
  match a with
  | [] => [(name, value)]
  | (k, v) :: r =>
      if String.eqb k name then (k, value) :: r
      else (k, v) :: setAttribute name value r
  end.

(** The string a value is converted to when it is stored in an
    attribute. *)
Definition toString (v : option string) : string := default "null" v.

(** One round of the loop over the images, on the attributes of the
    image. *)
Definition rewriteImage (a : Attrs) : Attrs :=
  let src := lookup_attr "data-src" a ||| lookup_attr "src" a in
  let a := if JS.truthy src
           then setAttribute "src" (toString (fixImageUrl (toAbsolute src))) a
           else a in
  removeAttribute "loading"
    (removeAttribute "data-lazy-src" (removeAttribute "data-src" a)).

End ChapterContent.

End ClassVariant.

(* ===================================================================== *)
(** * The runtime implementation (top-level functions)                    *)
(* ===================================================================== *)

Module Runtime.

Import Dom Async Url Text.

Definition BASE : string := "https://allnovel.org".

(** The host's [Document] and element API over the same tree.  Its
    [select] returns an array, which is truthy even when empty, so a
    chain [select(a) || select(b)] is [select(a)]. *)
Definition select {A} `{Scope A} (sel : string) (x : A) : list Elem :=
  querySelectorAll sel x.
Definition selectFirst {A} `{Scope A} (sel : string) (x : A) : option Elem :=
  querySelector sel x.
Definition attr (name : string) (e : Elem) : option string := getAttribute name e.
(** [el.text || el.textContent || ""] *)
Definition text (e : Elem) : string := textContent e.

(** [a || b] on element-or-null values. *)
Definition orElem (a b : option Elem) : option Elem :=
  match a with Some _ => a | None => b end.

Record Item := mkItem {
  url : string;
  name : string;
  link : string;
  cover : option string;
  author : option string }.

(** [{ list, hasNextPage }]; the field [list] is [list_] here. *)
Record Listing := mkListing { list_ : list Item; hasNextPage : bool }.

(** [{ list: [], hasNextPage: false }] *)
Definition empty_listing : Listing := mkListing [] false.

Record Chapter := mkChapter {
  ch_name : string;
  ch_url : option string;
  scanlator : option string;
  dateUpload : option string }.

Record Detail := mkDetail {
  title : string;
  d_url : option string;
  d_cover : option string;
  description : string;
  d_author : string;
  genre : list string;
  status : Z;
  chapters : list Chapter }.

(** The six states of the specification's table and their codes. *)
Inductive Status :=
| Ongoing | Completed | Hiatus | Cancelled | PublishingFinished | Unknown.

Definition status_code (s : Status) : Z :=
  match s with
  | Ongoing => 0 | Completed => 1 | Hiatus => 2
  | Cancelled => 3 | PublishingFinished => 4 | Unknown => 5
  end.

Definition mapStatusToInt (statusText : option string) : Z :=
  match statusText with
  | None | Some EmptyString => 5
  | Some statusText =>
      let s := JS.toLowerCase statusText in
      if JS.includes s "ongoing" || JS.includes s "updating" || JS.includes s "serial"
      then 0
      else if JS.includes s "complete" || JS.includes s "completed"
              || JS.includes s "finished"
      then 1
      else if JS.includes s "hiatus" then 2
      else if JS.includes s "canceled" || JS.includes s "cancelled" then 3
      else if JS.includes s "publishingfinished" || JS.includes s "publishing finished"
      then 4
      else 5
  end.

Definition cleanText (t : option string) : option string :=
  match t with
  | None | Some EmptyString => None
  | Some t => Some (JS.trim (JS.collapse_ws t))
  end.

Section Extension.

Context `{Url.Api}.

Definition toAbsolute (url : option string) : option string :=
  match url with
  | None | Some EmptyString => None
  | Some u =>
      match URL_new u (Some BASE) with
      | Some o => Some (href o)
      | None => Some u
      end
  end.

Definition fixImageUrl (raw : option string) : option string :=
  match raw with
  | None | Some EmptyString => None
  | Some raw =>
      let u := JS.trim raw in
      let u := if JS.startsWith u "//" then String.append "https:" u else u in
      let u := if JS.startsWith u "/"
               then String.append (strip_trailing_slash BASE) u else u in
      match URL_new u None with
      | Some parsed =>
          let q := search parsed in
          if JS.truthy (Some q) && (80 <? String.length q)%nat
          then Some (href (clear_search parsed))
          else Some (href parsed)
      | None => Some u
      end
  end.

(** ** Listings *)

Definition candidates : list string :=
  [ "article"; ".post"; ".novel-item"; ".entry"; ".post-item"; ".list-item";
    ".novel-list li" ].

Definition listItem (node : Elem) : option Item :=
  let a := orElem (orElem (selectFirst "h2 a" node) (selectFirst ".entry-title a" node))
                  (selectFirst "a" node) in
  let url := match a with Some a => attr "href" a | None => None end in
  let url := if JS.truthy url then url
             else match selectFirst "a[href]" node with
                  | Some linkEl => attr "href" linkEl
                  | None => None
                  end in
  let url := toAbsolute url in
  let name := match a with Some a => cleanText (Some (text a)) | None => None end in
  let name :=
    if JS.truthy name then name
    else match orElem (orElem (selectFirst "h2" node) (selectFirst ".entry-title" node))
                      (selectFirst ".title" node) with
         | Some titleNode => cleanText (Some (text titleNode))
         | None => name
         end in
  let cover :=
    match orElem (selectFirst "img" node) (selectFirst ".thumb img" node) with
    | Some imgEl =>
        fixImageUrl (attr "data-src" imgEl ||| attr "src" imgEl ||| attr "data-lazy-src" imgEl)
    | None => None
    end in
  let author :=
    match orElem (orElem (selectFirst ".author" node) (selectFirst ".byline" node))
                 (selectFirst ".entry-author" node) with
    | Some authNode => cleanText (Some (text authNode))
    | None => None
    end in
  match url, name with
  | Some (String _ _ as url), Some (String _ _ as name) =>
      Some (mkItem url name url cover author)
  | _, _ => None
  end.

(** The loop over the container selectors; [out] is the array of that
    name. *)
Fixpoint scanCandidates (document : Document) (sels : list string)
  (out : list Item) : list Item :=
  match sels with
  | [] => out
  | sel :: rest =>
      match select sel document with
      | [] => scanCandidates document rest out
      | nodes =>
          let out := out ++ omap listItem nodes in
          match out with
          | [] => scanCandidates document rest out
          | _ => out
          end
      end
  end.

(** The global-anchor fallback with its [seen] set. *)
Fixpoint scanAnchors (seen : gset string) (anchors : list Elem) : list Item :=
  match anchors with
  | [] => []
  | a :: rest =>
      let href := toAbsolute (attr "href" a) in
      let text := cleanText (Some (text a)) in
      match href, text with
      | Some (String _ _ as href), Some (String _ _ as text) =>
          if bool_decide (href ∈ seen) then scanAnchors seen rest
          else mkItem href text href None None
               :: scanAnchors ({[ href ]} ∪ seen) rest
      | _, _ => scanAnchors seen rest
      end
  end.

Definition parseListFromDoc (document : Document) : list Item :=
  match scanCandidates document candidates [] with
  | [] => scanAnchors ∅ (select "a[href*='/novel/'], a[href*='/book/']" document)
  | out => out
  end.

Definition hasNext (document : Document) : bool :=
  bool_decide (is_Some
    (orElem (orElem (selectFirst ".nav-previous a" document)
                    (selectFirst "a.next" document))
            (selectFirst ".older a" document))).

Definition paged (path : string) (page : Z) : string :=
  String.append BASE (String.append path (String.append "?paged=" (pretty page))).

Definition popularCandidates (page : Z) : list string :=
  [ paged "/most-popular/" page; paged "/hot/" page; paged "/" page ].

Definition latestCandidates (page : Z) : list string :=
  [ paged "/latest/" page; paged "/" page ].

(** The candidate loop of [getPopular] and [getLatestUpdates], with the
    empty listing after it. *)
Fixpoint firstListing (urls : list string) : IO Listing :=
  match urls with
  | [] => mret empty_listing
  | url :: rest =>
      r ← try_catch
            (document ← fetch (Some url);
             let list_ := parseListFromDoc document in
             match list_ with
             | [] => mret None
             | _ => mret (Some (mkListing list_ (hasNext document)))
             end)
            (mret None);
      match r with
      | Some listing => mret listing
      | None => firstListing rest
      end
  end.

Definition getPopular (page : Z) : IO Listing :=
  firstListing (popularCandidates page).

Definition getLatestUpdates (page : Z) : IO Listing :=
  firstListing (latestCandidates page).

(** [search(query, page, filters)]: the address is built before the
    [try], so that the URIError of [encodeURIComponent] is thrown to the
    caller. *)
Definition search (query : JS.ustring) (page : Z) : IO Listing :=
  encoded ← match encodeURIComponent16 query with
            | Some encoded => mret encoded
            | None => throw URIError
            end;
  let url := String.append BASE
               (String.append "/?s="
                  (String.append encoded
                     (String.append "&paged=" (pretty page)))) in
  try_catch
    (document ← fetch (Some url);
     mret (mkListing (parseListFromDoc document) (hasNext document)))
    (mret empty_listing).

(** ** Detail page *)

Record Meta := mkMeta {
  m_author : option string;
  m_status : Z;
  m_genres : list string }.

(** One round of the loop over [metaNodes].  When [fullText] is [null]
    the method call on it throws, which the [try] of the round catches. *)
Definition metaStep (st : Meta) (li : Elem) : Meta :=
  let txt := JS.toLowerCase (text li) in
  let fullText := cleanText (Some (text li)) in
  if JS.includes txt "author"
  then match fullText with
       | Some ft =>
           mkMeta (Some (JS.trim (remove_label "author" colon_or_space ft)))
                  (m_status st) (m_genres st)
       | None => st
       end
  else if JS.includes txt "status"
  then mkMeta (m_author st) (mapStatusToInt fullText) (m_genres st)
  else if JS.includes txt "genre" || JS.includes txt "category"
  then match fullText with
       | Some ft =>
           let g := JS.trim (remove_label "genre" colon_or_space ft) in
           mkMeta (m_author st) (m_status st)
             (m_genres st ++
              List.filter nonempty
                (map JS.trim
                   (match g with
                    | EmptyString => []
                    | _ => split_on (Ascii.eqb ",") EmptyString g
                    end)))
       | None => st
       end
  else st.

Definition metaOf (document : Document) : Meta :=
  match select ".post-meta li" document with
  | [] =>
      match orElem (orElem (selectFirst "a[rel*='author']" document)
                           (selectFirst ".author a" document))
                   (selectFirst ".by a" document) with
      | Some aAuthor => mkMeta (cleanText (Some (text aAuthor))) 5 []
      | None => mkMeta None 5 []
      end
  | metaNodes => fold_left metaStep metaNodes (mkMeta None 5 [])
  end.

Definition tagsOf (document : Document) : list string :=
  omap (fun t => match cleanText (Some (text t)) with
                 | Some (String _ _ as s) => Some s
                 | _ => None
                 end)
       (select ".tags a" document).

Definition descEl (document : Document) : option Elem :=
  orElem (orElem (orElem (orElem (selectFirst ".entry-content" document)
                                 (selectFirst ".description" document))
                         (selectFirst ".summary" document))
                 (selectFirst ".post-content" document))
         (selectFirst "#content .post-content" document).

Definition descriptionOf (document : Document) : option string :=
  match descEl document with
  | Some descEl =>
      match orElem (selectFirst "p" descEl) (Some descEl) with
      | Some p => cleanText (Some (text p))
      | None => cleanText (Some (text descEl))
      end
  | None => None
  end.

Definition chapterCandidates : list string :=
  [ ".chapter-list a"; ".chapters a"; ".toc a"; ".chapter a";
    ".post-content a[href*='chapter']"; ".entry-content a[href*='chapter']";
    ".entry-content a.chapter"; ".table-of-content a" ].

Definition chapterOf (a : Elem) : option Chapter :=
  let href := toAbsolute (attr "href" a) in
  let name := cleanText (Some (text a)) in
  match name with
  | Some (String _ _ as name) =>
      if JS.truthy href then Some (mkChapter name href None None) else None
  | _ => None
  end.

(** The loop over [chapterCandidates]; returns [chapters] and
    [foundChapters]. *)
Fixpoint scanChapters (document : Document) (sels : list string)
  (chapters : list Chapter) : list Chapter * bool :=
  match sels with
  | [] => (chapters, false)
  | sel :: rest =>
      match select sel document with
      | [] => scanChapters document rest chapters
      | els =>
          let chapters := chapters ++ omap chapterOf els in
          match chapters with
          | [] => scanChapters document rest chapters
          | _ => (chapters, true)
          end
      end
  end.

Definition isTocLink (a : Elem) : bool :=
  let txt := JS.toLowerCase (text a) in
  JS.includes txt "table of contents" || JS.includes txt "chapters"
  || JS.includes txt "view all".

(** The second tier of chapter discovery: the first link labelled as a
    table of contents is followed; a failure on the way is ignored. *)
Definition followToc (document : Document) (chapters : list Chapter)
  : IO (list Chapter) :=
  match List.find isTocLink (select "a" document) with
  | Some tocLink =>
      try_catch
        (let tocUrl := toAbsolute (attr "href" tocLink) in
         if JS.truthy tocUrl
         then tocDoc ← fetch tocUrl;
              mret (chapters ++
                    omap chapterOf
                      (select "a[href*='chapter'], .chapter-list a, .chapters a"
                              tocDoc))
         else mret chapters)
        (mret chapters)
  | None => mret chapters
  end.

(** The chapter part of [getDetail]: the two tiers, then the page itself
    as a single chapter. *)
Definition chaptersOf (document : Document) (url : option string)
  : IO (list Chapter) :=
  let '(chapters, foundChapters) := scanChapters document chapterCandidates [] in
  chapters ← (if foundChapters then mret chapters
              else followToc document chapters);
  mret (match chapters with
        | [] => [mkChapter "Chapter (single page)" url None None]
        | _ => chapters
        end).

Definition titleOf (document : Document) : option string :=
  match orElem (orElem (orElem (selectFirst "h1.entry-title" document)
                               (selectFirst "h1.title" document))
                       (selectFirst ".post-title" document))
               (selectFirst "h1" document) with
  | Some tEl => cleanText (Some (text tEl))
  | None => None
  end.

Definition coverOf (document : Document) : option string :=
  match orElem (orElem (orElem (orElem (selectFirst ".post-thumbnail img" document)
                                       (selectFirst ".entry-media img" document))
                               (selectFirst ".thumb img" document))
                       (selectFirst ".wp-post-image" document))
               (selectFirst ".single-cover img" document) with
  | Some coverEl =>
      fixImageUrl (attr "data-src" coverEl ||| attr "src" coverEl
                   ||| attr "data-lazy-src" coverEl)
  | None => None
  end.

Definition getDetail (novelUrl : option string) : IO Detail :=
  let url := toAbsolute novelUrl in
  document ← fetch url;
  let title := titleOf document in
  let cover := coverOf document in
  let description := descriptionOf document in
  let meta := metaOf document in
  let genres := m_genres meta ++ tagsOf document in
  chapters ← chaptersOf document url;
  mret (mkDetail (default EmptyString (title ||| Some EmptyString))
                 url cover
                 (default EmptyString (description ||| Some EmptyString))
                 (default EmptyString (m_author meta ||| Some EmptyString))
                 genres (m_status meta) chapters).

Definition getChapterList (novelUrl : option string) : IO (list Chapter) :=
  detail ← getDetail novelUrl;
  mret (chapters detail).

(** ** Chapter pages *)

Definition contentSelectors : list string :=
  [ ".chapter-content"; ".entry-content"; ".post-content"; ".single-post .content";
    ".reading-content"; "#content"; ".novel-body"; ".post-body" ].

(** The loop over [contentSelectors]: the first container with text. *)
Fixpoint firstContent (document : Document) (sels : list string)
  : option Elem :=
  match sels with
  | [] => None
  | sel :: rest =>
      match selectFirst sel document with
      | Some node =>
          if (0 <? String.length (JS.trim (text node)))%nat then Some node
          else firstContent document rest
      | None => firstContent document rest
      end
  end.

Definition contentNodeOf (document : Document) : option Elem :=
  match firstContent document contentSelectors with
  | Some node => Some node
  | None => orElem (selectFirst "article" document) (selectFirst ".post" document)
  end.

(** The source of an image, resolved and normalised. *)
Definition imageSource (img : Elem) : option string :=
  let src := attr "data-src" img ||| attr "src" img ||| attr "data-lazy-src" img in
  let src := toAbsolute src in
  fixImageUrl src.

(** One round of the loop over the images: the entry pushed, if any. *)
Definition pageOfImage (img : Elem) : option string :=
  let src := imageSource img in
  if JS.truthy src then src else None.

Definition pageOfParagraph (p : Elem) : string :=
  let html := String.append "<p>" (String.append (JS.trim (text p)) "</p>") in
  String.append "data:text/html," (encodeURIComponent html).

Definition getPageList (chapterUrl : option string) : IO (list string) :=
  let url := toAbsolute chapterUrl in
  document ← fetch url;
  match contentNodeOf document with
  | Some contentNode =>
      match select "img" contentNode with
      | [] => mret (map pageOfParagraph (select "p" contentNode))
      | imgs => mret (omap pageOfImage imgs)
      end
  | None => mret []
  end.

End Extension.

End Runtime.

(* ===================================================================== *)
(** * A reference resolver for plain https addresses                      *)
(* ===================================================================== *)

(** The operations are run on concrete pages with this instance of the
    URL constructor.  It accepts [https://host/path?query] written with
    unreserved characters only, where the URL Standard neither rewrites
    nor escapes anything, and resolves references that begin with a
    slash: two slashes, or a slash and a backslash, begin a host; one
    slash begins a path on the base.  It is partial: it rejects every
    other input, also where the constructor of the platform resolves
    it.  It serves as an instance of the laws and to run examples whose
    addresses it accepts; no general statement rests on it. *)

Module RefUrl.

Import Url Text.

Definition is_lower (c : ascii) : bool :=
  let n := nat_of_ascii c in (97 <=? n)%nat && (n <=? 122)%nat.
Definition is_upper (c : ascii) : bool :=
  let n := nat_of_ascii c in (65 <=? n)%nat && (n <=? 90)%nat.
Definition is_digit (c : ascii) : bool :=
  let n := nat_of_ascii c in (48 <=? n)%nat && (n <=? 57)%nat.

Definition host_char (c : ascii) : bool :=
  is_lower c || is_digit c
  || match c with "-" | "." => true | _ => false end%char.

Definition path_char (c : ascii) : bool :=
  is_lower c || is_upper c || is_digit c
  || match c with "-" | "." | "_" | "~" | "/" => true | _ => false end%char.

Definition query_char (c : ascii) : bool :=
  is_lower c || is_upper c || is_digit c
  || match c with "-" | "." | "_" | "=" | "&" => true | _ => false end%char.

Fixpoint all_chars (p : ascii -> bool) (s : string) : bool :=
  match s with
  | EmptyString => true
  | String c r => p c && all_chars p r
  end.

(** Split at the first occurrence of [c]. *)
Fixpoint split_at (c : ascii) (s : string) : string * option string :=
  match s with
  | EmptyString => (EmptyString, None)
  | String x r =>
      if Ascii.eqb x c then (EmptyString, Some r)
      else let '(a, b) := split_at c r in (String x a, b)
  end.

Record Parts := mkParts {
  host : string;
  path : string;
  query : option string }.

Definition first_is (p : ascii -> bool) (s : string) : bool :=
  match s with String c _ => p c | EmptyString => false end.

Fixpoint last_is (p : ascii -> bool) (s : string) : bool :=
  match s with
  | EmptyString => false
  | String c EmptyString => p c
  | String _ r => last_is p r
  end.

Definition parts_of (s : string) : option Parts :=
  if JS.startsWith s "https://" then
    let '(hp, q) := split_at "?" (skip 8 s) in
    let '(h, p) := split_at "/" hp in
    let p := String "/" (default EmptyString p) in
    if first_is is_lower h && last_is is_lower h && all_chars host_char h
       && all_chars path_char p && negb (JS.includes p "/.")
       && all_chars query_char (default EmptyString q)
    then Some (mkParts h p q)
    else None
  else None.

(** [name=value] pairs of a query, as [URLSearchParams] writes them. *)
Definition param (seg : string) : string :=
  let '(n, v) := split_at "=" seg in
  String.append n
    (String "="
       (String.concat "%3D" (Dom.split_on (Ascii.eqb "=") EmptyString
                                          (default EmptyString v)))).

Definition params (q : option string) : string :=
  match q with
  | Some q =>
      String.concat "&"
        (map param (List.filter Dom.nonempty
                      (Dom.split_on (Ascii.eqb "&") EmptyString q)))
  | None => EmptyString
  end.

Definition other_than (c : ascii) (x : ascii) : bool := negb (Ascii.eqb x c).

(** The parts the resolver accepts. *)
Definition accepted (p : Parts) : Prop :=
  (first_is is_lower (host p) && last_is is_lower (host p)
   && all_chars host_char (host p) && all_chars path_char (path p)
   && negb (JS.includes (path p) "/.")
   && all_chars query_char (default EmptyString (query p))) = true
  /\ exists p', path p = String "/" p'.

Definition serialise (p : Parts) : URLObject :=
  mkURL (String.append "https://"
           (String.append (host p)
              (String.append (path p)
                 (match query p with
                  | Some q => String "?" q
                  | None => EmptyString
                  end))))
        (match query p with
         | Some (String _ _ as q) => String "?" q
         | _ => EmptyString
         end)
        (params (query p))
        (String.append "https://" (host p)).

Definition absolute (s : string) : option URLObject :=
  serialise <$> parts_of s.

Definition resolve (s : string) (base : option string) : option URLObject :=
  match base with
  | None => absolute s
  | Some b =>
      match absolute b with
      | None => None
      | Some bo =>
          if JS.startsWith s "https://" then absolute s
          else if JS.startsWith s "//" then absolute (String.append "https:" s)
          else if JS.startsWith s "/\" then absolute (String.append "https://" (skip 2 s))
          else if JS.startsWith s "/" then absolute (String.append (origin bo) s)
          else None
      end
  end.

Definition without_query (u : URLObject) : URLObject :=
  mkURL (fst (split_at "?" (href u))) EmptyString EmptyString (origin u).

#[global] Instance api : Url.Api :=
  {| URL_new := resolve; clear_search := without_query |}.

End RefUrl.

(* ===================================================================== *)
(** * The specification's status table                                    *)
(* ===================================================================== *)

Module StatusTable.

Import Runtime.

(** A decision table: rows of substrings with the state they select; the
    first row with a substring present in the lower-cased text wins, and
    a text that is null, empty or matched by no row is [Unknown]. *)
Definition Table := list (list string * Status).

Fixpoint first_match (rows : Table) (s : string) : Status :=
  match rows with
  | [] => Unknown
  | (words, st) :: rest =>
      if existsb (JS.includes s) words then st else first_match rest s
  end.

Definition classify (rows : Table) (text : option string) : Status :=
  match text with
  | None | Some EmptyString => Unknown
  | Some t => first_match rows (JS.toLowerCase t)
  end.

(** The table as the specification prints it. *)
Definition printed : Table :=
  [ (["ongoing"; "updating"; "serial"], Ongoing);
    (["complete"; "completed"; "finished"], Completed);
    (["hiatus"], Hiatus);
    (["cancel"], Cancelled);
    (["publishing finished"], PublishingFinished) ].

(** The same table with the two spellings the code looks for in the
    fourth row. *)
Definition spelled : Table :=
  [ (["ongoing"; "updating"; "serial"], Ongoing);
    (["complete"; "completed"; "finished"], Completed);
    (["hiatus"], Hiatus);
    (["canceled"; "cancelled"], Cancelled);
    (["publishing finished"], PublishingFinished) ].

End StatusTable.

(* ===================================================================== *)
(** * Pages to run the operations on                                      *)
(* ===================================================================== *)

Module Pages.

Import Dom Async.

Definition page (body : list Node) : Document :=
  mkDocument false
    [Element "html" [] [Element "head" [] []; Element "body" [] body]].

(** A network on which one address answers. *)
Definition serving (url : string) (doc : Document) : Net :=
  fun u => if decide (u = Some url) then Some doc else None.

(** A network on which nothing answers. *)
Definition offline : Net := fun _ => None.

(** A detail page whose metadata list says "Status: Dropped". *)
Definition dropped : Document :=
  page [ Element "h1" [("class", "entry-title")] [TextNode "A Tale"];
         Element "ul" [("class", "post-meta")]
           [ Element "li" [] [TextNode "Author: N. N."];
             Element "li" [] [TextNode "Status: Dropped"] ] ].

Fixpoint repeat_char (c : ascii) (n : nat) : string :=
  match n with
  | O => EmptyString
  | S n' => String c (repeat_char c n')
  end.

(** The ancestors of a child of [body] in a [page]. *)
Definition in_body : list (string * Attrs) := [("body", []); ("html", [])].

Definition entry_content : string * Attrs := ("div", [("class", "entry-content")]).

(** A detail page whose content container holds a line of text and then
    a paragraph of 400 code units. *)
Definition longText : list Node := [TextNode (repeat_char "x" 400)].

Definition longContent : list Node :=
  [ TextNode "Summary. "; Element "p" [] longText ].

Definition longParagraph : Document :=
  page [ Element "h1" [("class", "entry-title")] [TextNode "A Tale"];
         Element entry_content.1 entry_content.2 longContent ].

Definition longParagraph_content : Elem :=
  mkElem false in_body entry_content.1 entry_content.2 longContent.

Definition longParagraph_p : Elem :=
  mkElem false (entry_content :: in_body) "p" [] longText.

(** A detail page with a short first paragraph, no chapter links and no
    link to a table of contents. *)
Definition taleContent : list Node :=
  [ Element "p" [] [TextNode " Once upon a time. "];
    Element "p" [] [TextNode "The end."];
    Element "a" [("href", "/about")] [TextNode "About"] ].

Definition singlePage : Document :=
  page [ Element "h1" [("class", "entry-title")] [TextNode "A Tale"];
         Element entry_content.1 entry_content.2 taleContent ].

Definition singlePage_content : Elem :=
  mkElem false in_body entry_content.1 entry_content.2 taleContent.

Definition singlePage_p : Elem :=
  mkElem false (entry_content :: in_body) "p" [] [TextNode " Once upon a time. "].

(** A detail page with a genre line in its metadata and two tag links,
    one of them blank. *)
Definition tagged : Document :=
  page [ Element "h1" [("class", "entry-title")] [TextNode "A Tale"];
         Element "ul" [("class", "post-meta")]
           [ Element "li" [] [TextNode "Genre: Action, , Drama "] ];
         Element "div" [("class", "tags")]
           [ Element "a" [("href", "/tag/fantasy")] [TextNode " Fantasy "];
             Element "a" [("href", "/tag/none")] [TextNode " "] ] ].

(** The address of the work in the examples, as given and as served. *)
Definition work : option string := Some "/novel/a".
Definition workUrl : string := "https://allnovel.org/novel/a".

End Pages.

(** A listing page that names one work twice. *)

Module Listings.

Import Dom Async Pages.

Definition card (href title : string) : Node :=
  Element "article" []
    [ Element "h2" [] [ Element "a" [("href", href)] [TextNode title] ] ].

Definition popularTwice : Document :=
  page [ card "/novel/a" "A Tale"; card "/novel/b" "B Tale"; card "/novel/a" "A Tale" ].

Definition popularUrl : string := "https://allnovel.org/most-popular/?paged=1".

End Listings.

(** Chapter pages. *)

Module Chapters.

Import Dom Async Pages.

(** A chapter of two scanned pages, the second image without a source. *)
Definition scans : list Node :=
  [ TextNode "Chapter 1";
    Element "img" [("data-src", "//cdn.example.com/p1.png"); ("src", "/lazy.gif")] [];
    Element "img" [("alt", "broken")] [];
    Element "p" [] [TextNode "caption"] ].

Definition gallery : Document :=
  page [ Element "div" [("class", "chapter-content")] scans ].

(** A chapter of text. *)
Definition prose : Document :=
  page [ Element "div" [("class", "chapter-content")]
           [ Element "p" [] [TextNode " It was a dark night. "];
             Element "p" [] [TextNode "The end."] ] ].

(** The containers of the two chapters, as the queries hand them out. *)
Definition gallery_content : Elem :=
  mkElem false in_body "div" [("class", "chapter-content")] scans.

Definition prose_content : Elem :=
  mkElem false in_body "div" [("class", "chapter-content")]
    [ Element "p" [] [TextNode " It was a dark night. "];
      Element "p" [] [TextNode "The end."] ].

(** A page without any of the containers. *)
Definition bare : Document := page [ Element "span" [] [TextNode "nothing"] ].

Definition chapter : option string := Some "/novel/a/chapter-1".
Definition chapterUrl : string := "https://allnovel.org/novel/a/chapter-1".

End Chapters.

(** Markup to sanitise. *)

Module Markup.

Import Dom ClassVariant.

(** What the parser builds for
    [<script>track()</script><p onclick="go()">Hello <b>world</b></p>
     <div class="share"><a href="/s">Share</a></div><p>Bye</p>]:
    the leading script goes to the head. *)
Definition sample : Document :=
  parsedFragment true
    [ Element "script" [] [TextNode "track()"] ]
    [ Element "p" [("onclick", "go()")]
        [ TextNode "Hello "; Element "b" [] [TextNode "world"] ];
      Element "div" [("class", "share")]
        [ Element "a" [("href", "/s")] [TextNode "Share"] ];
      Element "p" [] [TextNode "Bye"] ].

(** The first paragraph of [sample], as the query functions hand it out. *)
Definition hello : Elem :=
  mkElem true in_body "p" [("onclick", "go()")]
    [ TextNode "Hello "; Element "b" [] [TextNode "world"] ].

(** What the parser builds for
    [<template><script>track()</script></template><p>Hello</p>]: the
    script is in the content of the template. *)
Definition inert : Document :=
  parsedFragment false []
    [ Template [] [ Element "script" [] [TextNode "track()"] ];
      Element "p" [] [TextNode "Hello"] ].

(** What the parser builds for a whole page whose [body] tag carries an
    advertising class. *)
Definition wholePage : Document :=
  mkDocument false
    [ Element "html" []
        [ Element "head" [] [];
          Element "body" [("class", "home ads")]
            [ Element "script" [] [TextNode "track()"];
              Element "p" [] [TextNode "Hello"] ] ] ].

End Markup.

(* ===================================================================== *)
(** * Properties                                                          *)
(* ===================================================================== *)

#[local] Arguments String.append !s1 s2 : simpl nomatch.

(** ** Strings *)

Section Strings.

Local Notation "a ++ b" := (String.append a b).

Lemma str_append_nil_r (s : string) : s ++ EmptyString = s.
Proof. induction s as [|c s IH]; cbn; [done | by rewrite IH]. Qed.

Lemma str_append_assoc (a b c : string) : (a ++ b) ++ c = a ++ (b ++ c).
Proof. induction a as [|x a IH]; cbn; [done | by rewrite IH]. Qed.

Lemma str_append_cons (c : ascii) (a b : string) : String c a ++ b = String c (a ++ b).
Proof. done. Qed.

Lemma str_length_append (a b : string) :
  String.length (a ++ b) = (String.length a + String.length b)%nat.
Proof. induction a as [|x a IH]; cbn; [done | by rewrite IH]. Qed.

Lemma str_prefix_nil (s : string) : String.prefix EmptyString s = true.
Proof. by destruct s. Qed.

Lemma str_prefix_spec (p s : string) :
  String.prefix p s = true <-> exists r, s = p ++ r.
Proof.
  revert s. induction p as [|c p IH]; intros s.
  - rewrite str_prefix_nil. split; [intros _; by exists s | done].
  - destruct s as [|d s]; cbn.
    + split; [done | intros [r Hr]; discriminate].
    + destruct (ascii_dec c d) as [->|Hne].
      * rewrite IH. split; intros [r Hr]; exists r; [by rewrite Hr | by injection Hr].
      * split; [done | intros [r Hr]; injection Hr; congruence].
Qed.

Lemma includes_nil (sub : string) :
  JS.includes EmptyString sub = String.prefix sub EmptyString.
Proof. cbn. by rewrite orb_false_r. Qed.

Lemma includes_cons (c : ascii) (s sub : string) :
  JS.includes (String c s) sub
  = String.prefix sub (String c s) || JS.includes s sub.
Proof. done. Qed.

Lemma includes_spec (s sub : string) :
  JS.includes s sub = true <-> exists a b, s = a ++ (sub ++ b).
Proof.
  induction s as [|c s IH].
  - rewrite includes_nil, str_prefix_spec. split.
    + intros [r Hr]. by exists EmptyString, r.
    + intros [a [b Hab]]. destruct a; [by exists b | discriminate].
  - rewrite includes_cons, orb_true_iff, str_prefix_spec, IH. split.
    + intros [[r Hr] | [a [b Hab]]].
      * by exists EmptyString, r.
      * exists (String c a), b. by rewrite Hab.
    + intros [a [b Hab]]. destruct a as [|x a].
      * left. by exists b.
      * right. exists a, b. cbn in Hab. by injection Hab.
Qed.

(** A text that contains [big] contains every substring of [big]. *)
Lemma includes_mono (s big small : string) :
  JS.includes big small = true -> JS.includes s big = true ->
  JS.includes s small = true.
Proof.
  rewrite !includes_spec. intros [a [b Hbig]] [x [y Hs]].
  exists (x ++ a), (b ++ y). by rewrite Hs, Hbig, !str_append_assoc.
Qed.

End Strings.

(** ** C1: the status classifier *)

Section StatusClassifier.

Import Runtime StatusTable.

Lemma includes_completed (s : string) :
  JS.includes s "completed" = true -> JS.includes s "complete" = true.
Proof. by apply includes_mono. Qed.

Lemma includes_publishingfinished (s : string) :
  JS.includes s "publishingfinished" = true -> JS.includes s "finished" = true.
Proof. by apply includes_mono. Qed.

Lemma includes_publishing_finished (s : string) :
  JS.includes s "publishing finished" = true -> JS.includes s "finished" = true.
Proof. by apply includes_mono. Qed.

(** X3: the branch returning 4 is never taken: a text that names
    "publishing finished" names "finished" and is classified before. *)
Lemma mapStatusToInt_never_4 (statusText : option string) :
  mapStatusToInt statusText <> 4.
Proof.
  unfold mapStatusToInt. destruct statusText as [[|c r]|]; [done | | done].
  repeat case_match; try done.
  match goal with
  | Hf : _ || _ || JS.includes _ "finished" = false,
    Hp : _ || _ = true |- _ =>
      apply orb_false_iff in Hf as [_ Hf]; apply orb_true_iff in Hp as [Hp|Hp];
      [apply includes_publishingfinished in Hp
      | apply includes_publishing_finished in Hp]; congruence
  end.
Qed.

Lemma mapStatusToInt_range (statusText : option string) :
  0 <= mapStatusToInt statusText <= 5.
Proof.
  unfold mapStatusToInt. destruct statusText as [[|c r]|]; [lia | | lia].
  repeat case_match; lia.
Qed.

(** C1 (as amended): for every label text and for null, [mapStatusToInt]
    returns the code of the state that the decision table selects, first
    match winning, on the lower-cased text, where the fourth row looks
    for "canceled" or "cancelled". *)
Theorem C1_mapStatusToInt_table (statusText : option string) :
  mapStatusToInt statusText = status_code (classify spelled statusText).
Proof.
  unfold mapStatusToInt, classify.
  destruct statusText as [[|c r]|]; [done | | done].
  set (s := JS.toLowerCase (String c r)).
  unfold spelled, first_match, existsb. rewrite !orb_false_r, !orb_assoc.
  destruct (JS.includes s "ongoing" || JS.includes s "updating"
            || JS.includes s "serial"); [done |].
  destruct (JS.includes s "complete" || JS.includes s "completed"
            || JS.includes s "finished") eqn:Hc; [done |].
  destruct (JS.includes s "hiatus"); [done |].
  destruct (JS.includes s "canceled" || JS.includes s "cancelled"); [done |].
  apply orb_false_iff in Hc as [_ Hf].
  destruct (JS.includes s "publishingfinished") eqn:H1.
  { apply includes_publishingfinished in H1. congruence. }
  destruct (JS.includes s "publishing finished") eqn:H2; [|done].
  apply includes_publishing_finished in H2. congruence.
Qed.

(** C1 (as stated) fails: the label "Cancel" is [Cancelled] in the
    printed table, and [mapStatusToInt] answers 5. *)
Lemma C1_cancel_counterexample :
  mapStatusToInt (Some "Cancel") = 5
  /\ classify printed (Some "Cancel") = Cancelled
  /\ mapStatusToInt (Some "Cancel") <> status_code (classify printed (Some "Cancel")).
Proof. by vm_compute. Qed.

End StatusClassifier.

(** ** Running asynchronous operations *)

Section Running.

Import Async.

Lemma run_ret {A} (a : A) (net : Net) : (mret a : IO A) net = (Ok a, []).
Proof. done. Qed.

Lemma run_fetch_ok (net : Net) (u : option string) (d : Dom.Document) :
  net u = Some d -> fetch u net = (Ok d, [u]).
Proof. intros Hn. unfold fetch. by rewrite Hn. Qed.

Lemma run_fetch_fail (net : Net) (u : option string) :
  net u = None -> fetch u net = (Throw (TransportFailure u), [u]).
Proof. intros Hn. unfold fetch. by rewrite Hn. Qed.

Lemma run_bind_ok {A B} (m : IO A) (f : A -> IO B) (net : Net) a t :
  m net = (Ok a, t) ->
  (m ≫= f) net = ((f a net).1, t ++ (f a net).2).
Proof.
  intros Hm. unfold mbind, IO_bind, bind. rewrite Hm. by destruct (f a net).
Qed.

Lemma run_bind_throw {A B} (m : IO A) (f : A -> IO B) (net : Net) e t :
  m net = (Throw e, t) -> (m ≫= f) net = (Throw e, t).
Proof. intros Hm. unfold mbind, IO_bind, bind. by rewrite Hm. Qed.

Lemma returns_ret {A} (a : A) : returns (mret a : IO A).
Proof. intros net. by exists a, []. Qed.

Lemma returns_bind {A B} (m : IO A) (f : A -> IO B) :
  returns m -> (forall a, returns (f a)) -> returns (m ≫= f).
Proof.
  intros Hm Hf net. destruct (Hm net) as [a [t Ha]].
  destruct (Hf a net) as [b [t' Hb]].
  exists b, (t ++ t'). rewrite (run_bind_ok _ _ _ _ _ Ha). by rewrite Hb.
Qed.

(** A [try] whose handler returns, returns. *)
Lemma returns_try_catch {A} (m h : IO A) : returns h -> returns (try_catch m h).
Proof.
  intros Hh net. unfold try_catch. destruct (m net) as [[a|e] t].
  - by exists a, t.
  - destruct (Hh net) as [b [t' Hb]]. rewrite Hb. by exists b, (t ++ t').
Qed.

End Running.

(** ** The detail page, once fetched *)

Section DetailPage.

Import Dom Async.
Context `{Url.Api}.

Lemma runtime_followToc_returns (document : Document) chapters :
  returns (Runtime.followToc document chapters).
Proof.
  unfold Runtime.followToc. destruct (find _ _); [|apply returns_ret].
  apply returns_try_catch, returns_ret.
Qed.

Lemma runtime_chaptersOf_returns (document : Document) url :
  returns (Runtime.chaptersOf document url).
Proof.
  unfold Runtime.chaptersOf.
  destruct (Runtime.scanChapters _ _ _) as [chapters found].
  apply returns_bind; [|intros; apply returns_ret].
  destruct found; [apply returns_ret | apply runtime_followToc_returns].
Qed.

(** The runtime [getDetail] returns as soon as its page is fetched. *)
Lemma runtime_getDetail_fetched (net : Net) (novelUrl : option string)
  (document : Document) :
  net (Runtime.toAbsolute novelUrl) = Some document ->
  exists chapters t,
    Runtime.chaptersOf document (Runtime.toAbsolute novelUrl) net = (Ok chapters, t)
    /\ Runtime.getDetail novelUrl net
       = (Ok (Runtime.mkDetail
                (default EmptyString (Runtime.titleOf document ||| Some EmptyString))
                (Runtime.toAbsolute novelUrl)
                (Runtime.coverOf document)
                (default EmptyString (Runtime.descriptionOf document ||| Some EmptyString))
                (default EmptyString
                   (Runtime.m_author (Runtime.metaOf document) ||| Some EmptyString))
                (Runtime.m_genres (Runtime.metaOf document) ++ Runtime.tagsOf document)
                (Runtime.m_status (Runtime.metaOf document))
                chapters),
          Runtime.toAbsolute novelUrl :: t).
Proof.
  intros Hnet.
  destruct (runtime_chaptersOf_returns document (Runtime.toAbsolute novelUrl) net)
    as [chapters [t Hc]].
  exists chapters, t. split; [done |].
  unfold Runtime.getDetail.
  rewrite (run_bind_ok _ _ _ _ _ (run_fetch_ok _ _ _ Hnet)).
  rewrite (run_bind_ok _ _ _ _ _ Hc). cbn. by rewrite app_nil_r.
Qed.

Lemma runtime_getDetail_throws (net : Net) (novelUrl : option string) :
  net (Runtime.toAbsolute novelUrl) = None ->
  Runtime.getDetail novelUrl net
  = (Throw (TransportFailure (Runtime.toAbsolute novelUrl)),
     [Runtime.toAbsolute novelUrl]).
Proof.
  intros Hnet. unfold Runtime.getDetail.
  by rewrite (run_bind_throw _ _ _ _ _ (run_fetch_fail _ _ Hnet)).
Qed.

Lemma class_followToc_returns (doc : Document) chapters :
  returns (ClassVariant.followToc doc chapters).
Proof.
  unfold ClassVariant.followToc. destruct (find _ _); [|apply returns_ret].
  apply returns_try_catch, returns_ret.
Qed.

Lemma class_chaptersOf_returns (doc : Document) url :
  returns (ClassVariant.chaptersOf doc url).
Proof.
  unfold ClassVariant.chaptersOf.
  destruct (ClassVariant.scanContainers _ _ _) as [chapters found].
  apply returns_bind; [|intros; apply returns_ret].
  destruct found; [apply returns_ret | apply class_followToc_returns].
Qed.

(** The class-based [getDetail] returns as soon as its page is fetched. *)
Lemma class_getDetail_fetched (net : Net) (novelUrl : option string)
  (doc : Document) :
  net (ClassVariant.toAbsolute novelUrl) = Some doc ->
  exists chapters t,
    ClassVariant.chaptersOf doc (ClassVariant.toAbsolute novelUrl) net
    = (Ok chapters, t)
    /\ ClassVariant.getDetail novelUrl net
       = (Ok (ClassVariant.mkDetail
                (ClassVariant.titleOf doc)
                (ClassVariant.toAbsolute novelUrl)
                (ClassVariant.coverOf doc)
                (ClassVariant.authorAndStatus doc).1
                (ClassVariant.authorAndStatus doc).2
                (ClassVariant.summaryOf doc)
                (ClassVariant.genresOf doc)
                chapters),
          ClassVariant.toAbsolute novelUrl :: t).
Proof.
  intros Hnet.
  destruct (class_chaptersOf_returns doc (ClassVariant.toAbsolute novelUrl) net)
    as [chapters [t Hc]].
  exists chapters, t. split; [done |].
  unfold ClassVariant.getDetail.
  rewrite (run_bind_ok _ _ _ _ _ (run_fetch_ok _ _ _ Hnet)).
  destruct (ClassVariant.authorAndStatus doc) as [author status].
  rewrite (run_bind_ok _ _ _ _ _ Hc). cbn. by rewrite app_nil_r.
Qed.

(** Both implementations compute the address of a page alike. *)
Lemma toAbsolute_same (url : option string) :
  ClassVariant.toAbsolute url = Runtime.toAbsolute url.
Proof. done. Qed.

End DetailPage.

(** ** C2: the status field of a detail record *)

Section StatusField.

Import Dom Async.
Context `{Url.Api}.

Lemma runtime_metaStep_status (st : Runtime.Meta) (li : Elem) :
  0 <= Runtime.m_status st <= 5 ->
  0 <= Runtime.m_status (Runtime.metaStep st li) <= 5.
Proof.
  intros Hst. unfold Runtime.metaStep.
  repeat case_match; cbn; auto using mapStatusToInt_range.
Qed.

Lemma runtime_metaLoop_status (metaNodes : list Elem) (st : Runtime.Meta) :
  0 <= Runtime.m_status st <= 5 ->
  0 <= Runtime.m_status (fold_left Runtime.metaStep metaNodes st) <= 5.
Proof.
  revert st. induction metaNodes as [|li rest IH]; intros st Hst; cbn; [done |].
  apply IH. by apply runtime_metaStep_status.
Qed.

Lemma runtime_metaOf_status (document : Document) :
  0 <= Runtime.m_status (Runtime.metaOf document) <= 5.
Proof.
  unfold Runtime.metaOf. destruct (Runtime.select _ _) as [|li rest] eqn:E.
  - case_match; cbn; lia.
  - apply runtime_metaLoop_status. cbn. lia.
Qed.

Lemma class_metaLoop_status (metaNodes : list Elem)
  (st : option string * option string) :
  (fold_left ClassVariant.metaStep metaNodes st).2 = st.2
  \/ exists li, In li metaNodes
       /\ (fold_left ClassVariant.metaStep metaNodes st).2
          = Some (ClassVariant.statusOf (textContent li)).
Proof.
  revert st. induction metaNodes as [|li rest IH]; intros st; cbn; [by left |].
  destruct (IH (ClassVariant.metaStep st li)) as [Heq | [li' [Hin Heq]]].
  - rewrite Heq. unfold ClassVariant.metaStep.
    repeat case_match; cbn; eauto.
  - right. eauto.
Qed.

Lemma class_status_cases (doc : Document) :
  (ClassVariant.authorAndStatus doc).2 = None
  \/ exists li, In li (querySelectorAll ClassVariant.metaSelector doc)
       /\ (ClassVariant.authorAndStatus doc).2
          = Some (ClassVariant.statusOf (textContent li)).
Proof.
  unfold ClassVariant.authorAndStatus.
  destruct (querySelectorAll ClassVariant.metaSelector doc) as [|li rest] eqn:E.
  - left. by case_match.
  - destruct (class_metaLoop_status (li :: rest) (None, None)) as [Heq | Hex];
      [by left | by right].
Qed.

(** The label of the status branch: one of two fixed words, or what the
    site wrote after "status". *)
Lemma class_statusOf_cases (liText : string) :
  ClassVariant.statusOf liText = "Ongoing"
  \/ ClassVariant.statusOf liText = "Completed"
  \/ ClassVariant.statusOf liText
     = JS.trim (Text.remove_label "status" Text.colon_or_space liText).
Proof. unfold ClassVariant.statusOf. repeat case_match; auto. Qed.

(** C2 (as amended): once the page is fetched, both implementations
    return a record.  The status of the runtime record is an integer
    from 0 to 5.  The status of the class-based record is null, or
    "Ongoing", or "Completed", or the text of a metadata item after its
    "status" label, trimmed. *)
Theorem C2_status_of_detail (net : Net) (novelUrl : option string)
  (page : Document) :
  net (Runtime.toAbsolute novelUrl) = Some page ->
  (exists r, outcome (Runtime.getDetail novelUrl net) = Ok r
             /\ 0 <= Runtime.status r <= 5)
  /\ (exists r, outcome (ClassVariant.getDetail novelUrl net) = Ok r
        /\ (ClassVariant.d_status r = None
            \/ ClassVariant.d_status r = Some "Ongoing"
            \/ ClassVariant.d_status r = Some "Completed"
            \/ exists li, In li (querySelectorAll ClassVariant.metaSelector page)
                 /\ ClassVariant.d_status r
                    = Some (JS.trim (Text.remove_label "status" Text.colon_or_space
                                       (textContent li))))).
Proof.
  intros Hnet. split.
  - destruct (runtime_getDetail_fetched net novelUrl page Hnet) as [cs [t [_ Hr]]].
    rewrite Hr. eexists. split; [done |]. cbn. apply runtime_metaOf_status.
  - destruct (class_getDetail_fetched net novelUrl page Hnet) as [cs [t [_ Hr]]].
    rewrite Hr. eexists. split; [done |]. cbn.
    destruct (class_status_cases page) as [Hn | [li [Hin Heq]]]; [by left |].
    rewrite Heq.
    destruct (class_statusOf_cases (textContent li)) as [-> | [-> | ->]]; eauto 10.
Qed.

End StatusField.

(** On the page whose metadata says "Status: Dropped" both records
    exist; the runtime status is within 0..5. *)
Lemma C2_status_of_detail_witness :
  Pages.serving "https://allnovel.org/novel/a" Pages.dropped
    (Runtime.toAbsolute (Some "/novel/a")) = Some Pages.dropped
  /\ (exists r, Async.outcome (Runtime.getDetail (Some "/novel/a")
                  (Pages.serving "https://allnovel.org/novel/a" Pages.dropped))
                = Async.Ok r /\ 0 <= Runtime.status r <= 5)
  /\ (exists r, Async.outcome (ClassVariant.getDetail (Some "/novel/a")
                  (Pages.serving "https://allnovel.org/novel/a" Pages.dropped))
                = Async.Ok r
        /\ (ClassVariant.d_status r = None
            \/ ClassVariant.d_status r = Some "Ongoing"
            \/ ClassVariant.d_status r = Some "Completed"
            \/ exists li,
                 In li (Dom.querySelectorAll ClassVariant.metaSelector Pages.dropped)
                 /\ ClassVariant.d_status r
                    = Some (JS.trim (Text.remove_label "status" Text.colon_or_space
                                       (Dom.textContent li))))).
Proof.
  split; [by vm_compute |].
  apply (C2_status_of_detail
           (Pages.serving "https://allnovel.org/novel/a" Pages.dropped)
           (Some "/novel/a") Pages.dropped).
  by vm_compute.
Defined.

(** C2 (as stated) fails for the class-based [getDetail]: the status of
    that page is "Dropped", which is none of the six states. *)
Lemma C2_raw_status_counterexample :
  exists r,
    Async.outcome (ClassVariant.getDetail (Some "/novel/a")
                     (Pages.serving "https://allnovel.org/novel/a" Pages.dropped))
    = Async.Ok r
    /\ ClassVariant.d_status r = Some "Dropped"
    /\ ~ In (ClassVariant.d_status r)
            (map Some ["Ongoing"; "Completed"; "Hiatus"; "Cancelled";
                       "PublishingFinished"; "Unknown"]).
Proof.
  eexists. split; [by vm_compute |]. split; [by vm_compute |].
  cbn. intros Hin. repeat destruct Hin as [Hin | Hin]; try discriminate Hin; done.
Qed.

(** ** C3: listings and their candidate addresses *)

Section Candidates.

Import Dom Async.
Context `{Url.Api}.

(** One guarded fetch: the document, or null after a transport failure;
    the address has been requested either way. *)
Lemma run_guarded_fetch (net : Net) (u : string) :
  try_catch (d ← fetch (Some u); mret (Some d)) (mret None) net
  = (Ok (net (Some u)), [Some u]).
Proof.
  unfold try_catch, mbind, IO_bind, bind, fetch.
  by destruct (net (Some u)).
Qed.

(** The candidate loop of the class-based listings never throws; it ends
    without a document exactly when it began without one and every fetch
    failed, and then every candidate has been requested, in order. *)
Lemma class_fetchCandidates_run (probe : string) (net : Net)
  (cands : list string) (doc : option Document) :
  exists d t,
    ClassVariant.fetchCandidates probe cands doc net = (Ok d, t)
    /\ (d = None <-> doc = None /\ Forall (fun u => net (Some u) = None) cands)
    /\ (d = None -> t = map Some cands)
    /\ t `prefix_of` map Some cands.
Proof.
  revert doc. induction cands as [|u rest IH]; intros doc.
  - exists doc, []. cbn. split; [done |]. split; [|done].
    split; [intros ->; by split | by intros [-> _]].
  - cbn [ClassVariant.fetchCandidates].
    rewrite (run_bind_ok _ _ _ _ _ (run_guarded_fetch net u)).
    destruct (net (Some u)) as [d|] eqn:Hu.
    + destruct (bool_decide _).
      * exists (Some d), [Some u]. cbn. split; [done |].
        split; [split; [done |] |].
        { intros [_ Hf]. apply Forall_cons in Hf as [Hf _]. congruence. }
        split; [done |]. apply prefix_cons, prefix_nil.
      * destruct (IH (Some d)) as [d' [t [Hrun [Hnone [Hall Hpre]]]]].
        exists d', (Some u :: t). rewrite Hrun. cbn. split; [done |].
        split; [|split].
        -- split; [intros Hd; apply Hnone in Hd as [Hd _]; done |].
           intros [_ Hf]. apply Forall_cons in Hf as [Hf _]. congruence.
        -- intros Hd. apply Hnone in Hd as [Hd _]. done.
        -- by apply prefix_cons.
    + destruct (IH doc) as [d' [t [Hrun [Hnone [Hall Hpre]]]]].
      exists d', (Some u :: t). rewrite Hrun. cbn. split; [done |].
      split; [|split].
      * rewrite Hnone. split; intros [Hd Hf]; (split; [done |]).
        -- by constructor.
        -- by apply Forall_cons in Hf as [_ Hf].
      * intros Hd. by rewrite (Hall Hd).
      * by apply prefix_cons.
Qed.


(** A class-based listing: the candidate loop, then the throw when no
    document was loaded.  It throws exactly when every candidate failed
    to load, and has then requested all of them. *)
Lemma class_listing_run {A} (probe : string) (cands : list string) (e : Exn)
  (f : Document -> A) (net : Net) :
  let op := (doc ← ClassVariant.fetchCandidates probe cands None;
             match doc with
             | None => throw e
             | Some doc => mret (f doc)
             end) in
  (outcome (op net) = Throw e <-> Forall (fun u => net (Some u) = None) cands)
  /\ ((exists r, outcome (op net) = Ok r)
      <-> ~ Forall (fun u => net (Some u) = None) cands)
  /\ (Forall (fun u => net (Some u) = None) cands ->
      requested (op net) = map Some cands)
  /\ requested (op net) `prefix_of` map Some cands.
Proof.
  intros op. subst op.
  destruct (class_fetchCandidates_run probe net cands None)
    as [d [t [Hrun [Hnone [Hall Hpre]]]]].
  rewrite (run_bind_ok _ _ _ _ _ Hrun).
  assert (Hd : d = None <-> Forall (fun u => net (Some u) = None) cands)
    by (rewrite Hnone; tauto).
  unfold outcome, requested. destruct d as [doc|]; cbn; rewrite app_nil_r.
  - split; [|split; [|split]]; [| | |done].
    + split; [done |]. intros Hf. apply Hd in Hf. done.
    + split; [intros _ Hf; apply Hd in Hf; done | eauto].
    + intros Hf. apply Hd in Hf. done.
  - assert (Hf : Forall (fun u => net (Some u) = None) cands) by by apply Hd.
    split; [|split; [|split]]; [done | | auto | done].
    split; [by intros [r Hr] | done].
Qed.

(** The candidate loop of the runtime listings never throws; it requests
    the candidates in order and, when every fetch fails, ends with the
    empty listing after requesting them all. *)
Lemma runtime_firstListing_run (net : Net) (cands : list string) :
  exists r t,
    Runtime.firstListing cands net = (Ok r, t)
    /\ t `prefix_of` map Some cands
    /\ (Forall (fun u => net (Some u) = None) cands ->
        r = Runtime.empty_listing /\ t = map Some cands)
    /\ (Runtime.list_ r = [] -> r = Runtime.empty_listing /\ t = map Some cands).
Proof.
  induction cands as [|u rest IH].
  - exists Runtime.empty_listing, []. by cbn.
  - cbn [Runtime.firstListing].
    destruct IH as [r [t [Hrun [Hpre [Hall Hempty]]]]].
    unfold mbind at 1, IO_bind, bind, try_catch.
    unfold mbind at 1, IO_bind, bind, fetch.
    destruct (net (Some u)) as [document|] eqn:Hu; cbn.
    + destruct (Runtime.parseListFromDoc document) as [|it items] eqn:Hl; cbn.
      * rewrite Hrun. exists r, (Some u :: t). split; [done |].
        split; [by apply prefix_cons |]. split.
        -- intros Hf. apply Forall_cons in Hf as [Hf _]. congruence.
        -- intros Hr. destruct (Hempty Hr) as [-> ->]. done.
      * eexists _, _. split; [done |]. cbn.
        split; [apply prefix_cons, prefix_nil |]. split; [|done].
        intros Hf. apply Forall_cons in Hf as [Hf _]. congruence.
    + rewrite Hrun. exists r, (Some u :: t). split; [done |].
      split; [by apply prefix_cons |]. split.
      * intros Hf. apply Forall_cons in Hf as [_ Hf].
        destruct (Hall Hf) as [-> ->]. done.
      * intros Hr. destruct (Hempty Hr) as [-> ->]. done.
Qed.

(** One round of the runtime candidate loop. *)
Lemma runtime_firstListing_cons (net : Net) (u : string) (rest : list string) :
  Runtime.firstListing (u :: rest) net
  = match net (Some u) with
    | Some document =>
        match Runtime.parseListFromDoc document with
        | [] => ((Runtime.firstListing rest net).1,
                 Some u :: (Runtime.firstListing rest net).2)
        | items => (Ok (Runtime.mkListing items (Runtime.hasNext document)), [Some u])
        end
    | None => ((Runtime.firstListing rest net).1,
               Some u :: (Runtime.firstListing rest net).2)
    end.
Proof.
  cbn [Runtime.firstListing].
  unfold mbind at 1, IO_bind, bind, try_catch.
  unfold mbind at 1, IO_bind, bind, fetch.
  destruct (net (Some u)) as [document|]; cbn.
  - destruct (Runtime.parseListFromDoc document); cbn; [|done].
    by destruct (Runtime.firstListing rest net).
  - by destruct (Runtime.firstListing rest net).
Qed.

(** The runtime candidate loop, in full: a candidate that cannot be
    fetched, or whose page gives no entry, is passed over; the loop
    returns the listing of the first page that gives an entry, and the
    empty listing when no candidate does. *)
Lemma runtime_firstListing_spec (net : Net) (cands : list string) :
  let barren := fun u : string =>
    forall d, net (Some u) = Some d -> Runtime.parseListFromDoc d = [] in
  (Forall barren cands ->
   Runtime.firstListing cands net = (Ok Runtime.empty_listing, map Some cands))
  /\ (forall before u after d,
        cands = before ++ u :: after -> Forall barren before ->
        net (Some u) = Some d -> Runtime.parseListFromDoc d <> [] ->
        Runtime.firstListing cands net
        = (Ok (Runtime.mkListing (Runtime.parseListFromDoc d) (Runtime.hasNext d)),
           map Some (before ++ [u]))).
Proof.
  intros barren. induction cands as [|c rest [IHnone IHfirst]].
  - split; [done |]. intros before u after d Heq. by destruct before.
  - split.
    + intros [Hc Hrest]%Forall_cons. rewrite runtime_firstListing_cons.
      rewrite (IHnone Hrest). destruct (net (Some c)) as [document|] eqn:Hnet; [|done].
      by rewrite (Hc document Hnet).
    + intros before u after d Heq Hbefore Hnet Hitems.
      rewrite runtime_firstListing_cons.
      destruct before as [|b before]; injection Heq as -> ->.
      * rewrite Hnet. by destruct (Runtime.parseListFromDoc d).
      * apply Forall_cons in Hbefore as [Hb Hbefore].
        rewrite (IHfirst before u after d eq_refl Hbefore Hnet Hitems).
        destruct (net (Some b)) as [document|] eqn:Hnb; [|done].
        by rewrite (Hb document Hnb).
Qed.

(** C3 (as amended): the class-based [getPopular] and [getLatestUpdates]
    throw exactly when the fetch of every candidate address failed, and
    then all candidates have been requested, in order; a failed fetch
    moves on to the next candidate.  The runtime [getPopular] and
    [getLatestUpdates] never throw: the candidates are requested in
    order; a candidate whose fetch fails or whose page gives no entry is
    passed over; the result is the listing of the first page that gives
    an entry, and, when no candidate gives one (every fetch failed, or
    the pages fetched are without entries), the empty list with no next
    page, after all candidates have been requested. *)
Theorem C3_listing_candidates (page : Z) (net : Net) :
  let failed := fun u : string => net (Some u) = None in
  let barren := fun u : string =>
    forall d, net (Some u) = Some d -> Runtime.parseListFromDoc d = [] in
  ((outcome (ClassVariant.getPopular page net)
    = Throw (Error "Failed to fetch popular list")
    <-> Forall failed (ClassVariant.popularCandidates page))
   /\ ((exists r, outcome (ClassVariant.getPopular page net) = Ok r)
       <-> ~ Forall failed (ClassVariant.popularCandidates page))
   /\ (Forall failed (ClassVariant.popularCandidates page) ->
       requested (ClassVariant.getPopular page net)
       = map Some (ClassVariant.popularCandidates page))
   /\ requested (ClassVariant.getPopular page net)
      `prefix_of` map Some (ClassVariant.popularCandidates page))
  /\ ((outcome (ClassVariant.getLatestUpdates page net)
       = Throw (Error "Failed to fetch latest updates")
       <-> Forall failed (ClassVariant.latestCandidates page))
      /\ ((exists r, outcome (ClassVariant.getLatestUpdates page net) = Ok r)
          <-> ~ Forall failed (ClassVariant.latestCandidates page))
      /\ (Forall failed (ClassVariant.latestCandidates page) ->
          requested (ClassVariant.getLatestUpdates page net)
          = map Some (ClassVariant.latestCandidates page))
      /\ requested (ClassVariant.getLatestUpdates page net)
         `prefix_of` map Some (ClassVariant.latestCandidates page))
  /\ (exists r,
        outcome (Runtime.getPopular page net) = Ok r
        /\ requested (Runtime.getPopular page net)
           `prefix_of` map Some (Runtime.popularCandidates page)
        /\ (Forall failed (Runtime.popularCandidates page) ->
            r = Runtime.empty_listing
            /\ requested (Runtime.getPopular page net)
               = map Some (Runtime.popularCandidates page))
        /\ (Forall barren (Runtime.popularCandidates page) ->
            r = Runtime.empty_listing
            /\ requested (Runtime.getPopular page net)
               = map Some (Runtime.popularCandidates page))
        /\ (forall before u after d,
              Runtime.popularCandidates page = before ++ u :: after ->
              Forall barren before ->
              net (Some u) = Some d -> Runtime.parseListFromDoc d <> [] ->
              r = Runtime.mkListing (Runtime.parseListFromDoc d) (Runtime.hasNext d)
              /\ requested (Runtime.getPopular page net)
                 = map Some (before ++ [u])))
  /\ (exists r,
        outcome (Runtime.getLatestUpdates page net) = Ok r
        /\ requested (Runtime.getLatestUpdates page net)
           `prefix_of` map Some (Runtime.latestCandidates page)
        /\ (Forall failed (Runtime.latestCandidates page) ->
            r = Runtime.empty_listing
            /\ requested (Runtime.getLatestUpdates page net)
               = map Some (Runtime.latestCandidates page))
        /\ (Forall barren (Runtime.latestCandidates page) ->
            r = Runtime.empty_listing
            /\ requested (Runtime.getLatestUpdates page net)
               = map Some (Runtime.latestCandidates page))
        /\ (forall before u after d,
              Runtime.latestCandidates page = before ++ u :: after ->
              Forall barren before ->
              net (Some u) = Some d -> Runtime.parseListFromDoc d <> [] ->
              r = Runtime.mkListing (Runtime.parseListFromDoc d) (Runtime.hasNext d)
              /\ requested (Runtime.getLatestUpdates page net)
                 = map Some (before ++ [u]))).
Proof.
  intros failed barren. split; [|split; [|split]].
  - apply (class_listing_run "article, .post, .novel-item, .entry").
  - apply (class_listing_run "article, .post, .entry").
  - unfold Runtime.getPopular.
    destruct (runtime_firstListing_run net (Runtime.popularCandidates page))
      as [r [t [Hrun [Hpre [Hall _]]]]].
    destruct (runtime_firstListing_spec net (Runtime.popularCandidates page))
      as [Hnone Hfirst].
    exists r. rewrite Hrun. cbn [outcome requested fst snd].
    split; [done |]. split; [done |]. split; [done |]. split.
    + intros Hb. rewrite (Hnone Hb) in Hrun. by injection Hrun as <- <-.
    + intros before u after d Heq Hb Hnet Hitems.
      rewrite (Hfirst before u after d Heq Hb Hnet Hitems) in Hrun.
      by injection Hrun as <- <-.
  - unfold Runtime.getLatestUpdates.
    destruct (runtime_firstListing_run net (Runtime.latestCandidates page))
      as [r [t [Hrun [Hpre [Hall _]]]]].
    destruct (runtime_firstListing_spec net (Runtime.latestCandidates page))
      as [Hnone Hfirst].
    exists r. rewrite Hrun. cbn [outcome requested fst snd].
    split; [done |]. split; [done |]. split; [done |]. split.
    + intros Hb. rewrite (Hnone Hb) in Hrun. by injection Hrun as <- <-.
    + intros before u after d Heq Hb Hnet Hitems.
      rewrite (Hfirst before u after d Heq Hb Hnet Hitems) in Hrun.
      by injection Hrun as <- <-.
Qed.

End Candidates.

(** C3 (as stated) fails for the runtime [getPopular]: with every
    candidate unreachable the caller gets a listing, the empty one. *)
Lemma C3_empty_listing_counterexample :
  Forall (fun u => Pages.offline (Some u) = None) (Runtime.popularCandidates 1)
  /\ Async.outcome (Runtime.getPopular 1 Pages.offline)
     = Async.Ok (Runtime.mkListing [] false)
  /\ ~ (exists e, Async.outcome (Runtime.getPopular 1 Pages.offline) = Async.Throw e).
Proof.
  split; [by repeat constructor |]. split; [by vm_compute |].
  intros [e He]. vm_compute in He. discriminate He.
Qed.

(** ** C4: the description of a detail record *)

Section Description.

Import Dom Async.
Context `{Url.Api}.

(** C4 (as amended): on a fetched page whose description container has a
    first paragraph, the class-based summary is the paragraph's trimmed
    text when that is shorter than 400 code units and the container's
    trimmed text otherwise; the runtime description is the paragraph's
    text with whitespace collapsed and trimmed, whatever its length. *)
Theorem C4_description_of_detail (net : Net) (novelUrl : option string)
  (page : Document) (descEl p : Elem) (descEl' p' : Elem) :
  net (Runtime.toAbsolute novelUrl) = Some page ->
  querySelector ClassVariant.descSelector page = Some descEl ->
  querySelector "p" descEl = Some p ->
  Runtime.descEl page = Some descEl' ->
  Runtime.selectFirst "p" descEl' = Some p' ->
  (exists r, outcome (ClassVariant.getDetail novelUrl net) = Ok r
     /\ ClassVariant.d_summary r
        = Some (if (String.length (JS.trim (textContent p)) <? 400)%nat
                then JS.trim (textContent p)
                else JS.trim (textContent descEl)))
  /\ (exists r, outcome (Runtime.getDetail novelUrl net) = Ok r
        /\ Runtime.description r
           = match Runtime.text p' with
             | EmptyString => EmptyString
             | t => JS.trim (JS.collapse_ws t)
             end).
Proof.
  intros Hnet Hc Hp Hc' Hp'. split.
  - destruct (class_getDetail_fetched net novelUrl page Hnet) as [cs [t [_ Hr]]].
    rewrite Hr. eexists. split; [done |]. cbn [ClassVariant.d_summary].
    unfold ClassVariant.summaryOf. rewrite Hc, Hp. by case_match.
  - destruct (runtime_getDetail_fetched net novelUrl page Hnet) as [cs [t [_ Hr]]].
    rewrite Hr. eexists. split; [done |]. cbn [Runtime.description].
    unfold Runtime.descriptionOf. rewrite Hc', Hp'. cbn [Runtime.orElem].
    unfold Runtime.cleanText.
    destruct (Runtime.text p') as [|c s]; [done |].
    unfold JS.or_else. by destruct (JS.trim _).
Qed.

End Description.

(** On the page with the short first paragraph both descriptions are
    that paragraph. *)
Lemma C4_description_of_detail_witness :
  Pages.serving Pages.workUrl Pages.singlePage (Runtime.toAbsolute Pages.work)
  = Some Pages.singlePage
  /\ (exists r,
        Async.outcome (ClassVariant.getDetail Pages.work
                         (Pages.serving Pages.workUrl Pages.singlePage))
        = Async.Ok r
        /\ ClassVariant.d_summary r = Some "Once upon a time.")
  /\ (exists r,
        Async.outcome (Runtime.getDetail Pages.work
                         (Pages.serving Pages.workUrl Pages.singlePage))
        = Async.Ok r
        /\ Runtime.description r = "Once upon a time.").
Proof.
  split; [by vm_compute |].
  apply (C4_description_of_detail
           (Pages.serving Pages.workUrl Pages.singlePage) Pages.work
           Pages.singlePage Pages.singlePage_content Pages.singlePage_p
           Pages.singlePage_content Pages.singlePage_p); by vm_compute.
Defined.

(** C4 (as stated) fails for the runtime [getDetail]: the first
    paragraph of this page has 400 code units, and the description is
    that paragraph, not the text of the container. *)
Lemma C4_long_paragraph_counterexample :
  Runtime.descEl Pages.longParagraph = Some Pages.longParagraph_content
  /\ Runtime.selectFirst "p" Pages.longParagraph_content = Some Pages.longParagraph_p
  /\ String.length (JS.trim (Dom.textContent Pages.longParagraph_p)) = 400%nat
  /\ exists r,
       Async.outcome (Runtime.getDetail Pages.work
                        (Pages.serving Pages.workUrl Pages.longParagraph))
       = Async.Ok r
       /\ Runtime.description r = JS.trim (Dom.textContent Pages.longParagraph_p)
       /\ Runtime.description r <> JS.trim (Dom.textContent Pages.longParagraph_content)
       /\ Runtime.description r <> Dom.textContent Pages.longParagraph_content.
Proof.
  split; [by vm_compute |]. split; [by vm_compute |]. split; [by vm_compute |].
  eexists. split; [by vm_compute |].
  split; [by vm_compute |]. split; by vm_compute.
Qed.

(** ** C5: the work as its own single chapter *)

Section SinglePage.

Import Dom Async.
Context `{Url.Api}.

Lemma find_none {A} (p : A -> bool) (l : list A) :
  Forall (fun x => p x = false) l -> find p l = None.
Proof.
  induction 1 as [|x l Hx Hl IH]; cbn; [done |]. by rewrite Hx.
Qed.

Lemma runtime_scanChapters_none (document : Document) (sels : list string) chapters :
  Forall (fun sel => Runtime.select sel document = []) sels ->
  Runtime.scanChapters document sels chapters = (chapters, false).
Proof.
  induction 1 as [|sel sels Hsel Hall IH]; cbn; [done |]. by rewrite Hsel.
Qed.

Lemma class_scanContainers_none (doc : Document) (sels : list string) chapters :
  Forall (fun sel => querySelectorAll sel doc = []) sels ->
  ClassVariant.scanContainers doc sels chapters = (chapters, false).
Proof.
  induction 1 as [|sel sels Hsel Hall IH]; cbn; [done |]. by rewrite Hsel.
Qed.

(** The first tier never reports success with nothing in hand. *)
Lemma runtime_scanChapters_found (document : Document) (sels : list string) chapters cs :
  Runtime.scanChapters document sels chapters = (cs, true) -> cs <> [].
Proof.
  revert chapters. induction sels as [|sel sels IH]; intros chapters; cbn; [done |].
  destruct (Runtime.select sel document) as [|e els]; [apply IH |].
  destruct (chapters ++ _) as [|c l] eqn:E; [apply IH |].
  by intros [= <-].
Qed.

Lemma class_scanContainers_found (doc : Document) (sels : list string) chapters cs :
  ClassVariant.scanContainers doc sels chapters = (cs, true) -> cs <> [].
Proof.
  revert chapters. induction sels as [|sel sels IH]; intros chapters; cbn; [done |].
  destruct (querySelectorAll sel doc) as [|e els]; [apply IH |].
  destruct (chapters ++ _) as [|c l] eqn:E; [apply IH |].
  by intros [= <-].
Qed.

(** Whatever the page, the chapter list that comes back is not empty. *)
Lemma runtime_chapters_never_empty (document : Document) url (net : Net) cs t :
  Runtime.chaptersOf document url net = (Ok cs, t) -> cs <> [].
Proof.
  unfold Runtime.chaptersOf.
  destruct (Runtime.scanChapters _ _ _) as [chapters found].
  unfold mbind, IO_bind, bind.
  destruct found.
  - cbn. intros [= <- _]. by destruct chapters.
  - destruct (Runtime.followToc document chapters net) as [[l|e] t']; [|done].
    cbn. intros [= <- _]. by destruct l.
Qed.

Lemma class_chapters_never_empty (doc : Document) url (net : Net) cs t :
  ClassVariant.chaptersOf doc url net = (Ok cs, t) -> cs <> [].
Proof.
  unfold ClassVariant.chaptersOf.
  destruct (ClassVariant.scanContainers _ _ _) as [chapters found].
  unfold mbind, IO_bind, bind.
  destruct found.
  - cbn. intros [= <- _]. by destruct chapters.
  - destruct (ClassVariant.followToc doc chapters net) as [[l|e] t']; [|done].
    cbn. intros [= <- _]. by destruct l.
Qed.

Lemma runtime_getChapterList_run (novelUrl : option string) (net : Net) r t :
  Runtime.getDetail novelUrl net = (Ok r, t) ->
  Runtime.getChapterList novelUrl net = (Ok (Runtime.chapters r), t).
Proof.
  intros Hr. unfold Runtime.getChapterList.
  rewrite (run_bind_ok _ _ _ _ _ Hr). cbn. by rewrite app_nil_r.
Qed.

Lemma class_getChapterList_run (novelUrl : option string) (net : Net) r t :
  ClassVariant.getDetail novelUrl net = (Ok r, t) ->
  ClassVariant.getChapterList novelUrl net = (Ok (ClassVariant.d_chapters r), t).
Proof.
  intros Hr. unfold ClassVariant.getChapterList.
  rewrite (run_bind_ok _ _ _ _ _ Hr). cbn. by rewrite app_nil_r.
Qed.

(** C5: on a fetched detail page where no chapter selector matches an
    anchor and no anchor is labelled "table of contents", "chapters" or
    "view all", [getDetail] and [getChapterList] of both implementations
    give exactly one chapter, the synthetic one, whose address is the
    absolute address of the work. *)
Theorem C5_single_page_work (net : Net) (novelUrl : option string)
  (page : Document) :
  net (Runtime.toAbsolute novelUrl) = Some page ->
  Forall (fun sel => Runtime.select sel page = []) Runtime.chapterCandidates ->
  Forall (fun sel => querySelectorAll sel page = []) ClassVariant.potentialContainers ->
  Forall (fun a => Runtime.isTocLink a = false) (Runtime.select "a" page) ->
  (exists r,
     outcome (Runtime.getDetail novelUrl net) = Ok r
     /\ Runtime.chapters r
        = [Runtime.mkChapter "Chapter (single page)"
             (Runtime.toAbsolute novelUrl) None None]
     /\ outcome (Runtime.getChapterList novelUrl net) = Ok (Runtime.chapters r))
  /\ (exists r,
        outcome (ClassVariant.getDetail novelUrl net) = Ok r
        /\ ClassVariant.d_chapters r
           = [ClassVariant.mkChapter "Chapter (single page)"
                (ClassVariant.toAbsolute novelUrl)]
        /\ outcome (ClassVariant.getChapterList novelUrl net)
           = Ok (ClassVariant.d_chapters r)).
Proof.
  intros Hnet Hsel Hsel' Htoc. split.
  - destruct (runtime_getDetail_fetched net novelUrl page Hnet) as [cs [t [Hc Hr]]].
    eexists. rewrite (runtime_getChapterList_run _ _ _ _ Hr), Hr.
    split; [done |]. split; [|done]. cbn [Runtime.chapters].
    unfold Runtime.chaptersOf in Hc.
    rewrite (runtime_scanChapters_none _ _ _ Hsel) in Hc.
    unfold Runtime.followToc in Hc. rewrite (find_none _ _ Htoc) in Hc.
    cbn in Hc. by injection Hc as <- _.
  - destruct (class_getDetail_fetched net novelUrl page Hnet) as [cs [t [Hc Hr]]].
    eexists. rewrite (class_getChapterList_run _ _ _ _ Hr), Hr.
    split; [done |]. split; [|done]. cbn [ClassVariant.d_chapters].
    unfold ClassVariant.chaptersOf in Hc.
    rewrite (class_scanContainers_none _ _ _ Hsel') in Hc.
    unfold ClassVariant.followToc in Hc.
    rewrite (find_none ClassVariant.isTocLink (querySelectorAll "a" page) Htoc) in Hc.
    cbn in Hc. by injection Hc as <- _.
Qed.

End SinglePage.

(** The page of two paragraphs and an "About" link is such a page. *)
Lemma C5_single_page_work_witness :
  Pages.serving Pages.workUrl Pages.singlePage (Runtime.toAbsolute Pages.work)
  = Some Pages.singlePage
  /\ Runtime.toAbsolute Pages.work = Some Pages.workUrl
  /\ (exists r,
        Async.outcome (Runtime.getDetail Pages.work
                         (Pages.serving Pages.workUrl Pages.singlePage))
        = Async.Ok r
        /\ Runtime.chapters r
           = [Runtime.mkChapter "Chapter (single page)"
                (Runtime.toAbsolute Pages.work) None None]
        /\ Async.outcome (Runtime.getChapterList Pages.work
                            (Pages.serving Pages.workUrl Pages.singlePage))
           = Async.Ok (Runtime.chapters r))
  /\ (exists r,
        Async.outcome (ClassVariant.getDetail Pages.work
                         (Pages.serving Pages.workUrl Pages.singlePage))
        = Async.Ok r
        /\ ClassVariant.d_chapters r
           = [ClassVariant.mkChapter "Chapter (single page)"
                (ClassVariant.toAbsolute Pages.work)]
        /\ Async.outcome (ClassVariant.getChapterList Pages.work
                            (Pages.serving Pages.workUrl Pages.singlePage))
           = Async.Ok (ClassVariant.d_chapters r)).
Proof.
  split; [by vm_compute |]. split; [by vm_compute |].
  apply (C5_single_page_work (Pages.serving Pages.workUrl Pages.singlePage)
           Pages.work Pages.singlePage).
  - by vm_compute.
  - repeat constructor.
  - repeat constructor.
  - repeat constructor.
Defined.

(** ** Trimming *)

Section Trimming.

Local Notation "a ++ b" := (String.append a b).

Lemma trimEnd_cons (c : ascii) (r : string) :
  JS.trimEnd (String c r)
  = match JS.trimEnd r with
    | EmptyString => if JS.is_ws c then EmptyString else String c EmptyString
    | r' => String c r'
    end.
Proof. done. Qed.

Lemma trimEnd_idem (s : string) : JS.trimEnd (JS.trimEnd s) = JS.trimEnd s.
Proof.
  induction s as [|c r IH]; [done |]. rewrite trimEnd_cons.
  destruct (JS.trimEnd r) as [|d r'] eqn:E.
  - destruct (JS.is_ws c) eqn:Hc; [done |]. cbn. by rewrite Hc.
  - rewrite trimEnd_cons, IH. done.
Qed.

(** The end of a string that ends well ends well. *)
Lemma trimEnd_tail (c : ascii) (r : string) :
  JS.trimEnd (String c r) = String c r -> JS.trimEnd r = r.
Proof.
  rewrite trimEnd_cons. destruct (JS.trimEnd r) as [|d r'] eqn:E.
  - destruct (JS.is_ws c); [done |]. by intros [= <-].
  - by intros [= <-].
Qed.

Lemma trimEnd_drop_while (p : ascii -> bool) (s : string) :
  JS.trimEnd s = s -> JS.trimEnd (Text.drop_while p s) = Text.drop_while p s.
Proof.
  induction s as [|c r IH]; [done |]. intros Hs. cbn.
  destruct (p c); [|done]. apply IH. by apply trimEnd_tail in Hs.
Qed.

Lemma trimEnd_app (a d : string) :
  JS.trimEnd d <> EmptyString -> JS.trimEnd (a ++ d) = a ++ JS.trimEnd d.
Proof.
  intros Hd. induction a as [|c a IH]; [done |].
  rewrite !str_append_cons, trimEnd_cons, IH.
  destruct (a ++ JS.trimEnd d) as [|x y] eqn:E; [|done].
  destruct a; cbn in E; [done | discriminate].
Qed.

(** Appending a well-ended string to a well-ended string. *)
Lemma trimEnd_app_fixed (a d : string) :
  JS.trimEnd a = a -> JS.trimEnd d = d -> JS.trimEnd (a ++ d) = a ++ d.
Proof.
  intros Ha Hd. destruct d as [|c d'].
  - by rewrite str_append_nil_r.
  - rewrite trimEnd_app; rewrite Hd; done.
Qed.

Lemma trimStart_fixed (c : ascii) (r : string) :
  JS.is_ws c = false -> JS.trimStart (String c r) = String c r.
Proof. intros Hc. cbn. by rewrite Hc. Qed.

Lemma trimStart_idem (s : string) : JS.trimStart (JS.trimStart s) = JS.trimStart s.
Proof.
  induction s as [|c r IH]; [done |]. cbn.
  destruct (JS.is_ws c) eqn:Hc; [done |]. cbn. by rewrite Hc.
Qed.

(** Trimming the end leaves a trimmed start alone. *)
Lemma trimStart_trimEnd (s : string) :
  JS.trimStart s = s -> JS.trimStart (JS.trimEnd s) = JS.trimEnd s.
Proof.
  destruct s as [|c r]; [done |]. cbn [JS.trimStart].
  destruct (JS.is_ws c) eqn:Hc.
  - intros Hs. exfalso.
    assert (Hlen : (String.length (JS.trimStart r) <= String.length r)%nat).
    { clear. induction r as [|d r IH]; cbn; [done |].
      destruct (JS.is_ws d); cbn; lia. }
    rewrite Hs in Hlen. cbn in Hlen. lia.
  - intros _. rewrite trimEnd_cons.
    destruct (JS.trimEnd r); rewrite ?Hc; cbn; by rewrite Hc.
Qed.

Lemma trim_trimStart (s : string) : JS.trimStart (JS.trim s) = JS.trim s.
Proof. apply trimStart_trimEnd, trimStart_idem. Qed.

Lemma trim_trimEnd (s : string) : JS.trimEnd (JS.trim s) = JS.trim s.
Proof. apply trimEnd_idem. Qed.

(** A string with a trimmed start and a trimmed end is its own trim. *)
Lemma trim_fixed (s : string) :
  JS.trimStart s = s -> JS.trimEnd s = s -> JS.trim s = s.
Proof. intros Hs He. unfold JS.trim. by rewrite Hs. Qed.

Lemma trim_idem (s : string) : JS.trim (JS.trim s) = JS.trim s.
Proof. apply trim_fixed; [apply trim_trimStart | apply trim_trimEnd]. Qed.

Lemma str_prefix_cons (a c : ascii) (p s : string) :
  String.prefix (String a p) (String c s)
  = if ascii_dec a c then String.prefix p s else false.
Proof. done. Qed.

(** A string that does not begin with a slash has no leading slashes to
    replace. *)
Lemma replace_leading_slashes_fixed (s : string) :
  JS.startsWith s "/" = false -> Text.replace_leading_slashes s = s.
Proof.
  unfold Text.replace_leading_slashes, JS.startsWith.
  destruct s as [|c r]; [done |]. rewrite !str_prefix_cons.
  destruct (ascii_dec "/" c); [by rewrite str_prefix_nil | done].
Qed.

End Trimming.

(** ** C6 and C7: addresses and image addresses *)

Section Addresses.

Context `{Url.Laws}.
Import Url.

Local Notation "a ++ b" := (String.append a b).

Lemma scheme_led_href s b u :
  URL_new s b = Some u -> scheme_led (href u).
Proof. intros Hu. by destruct (url_href s b u Hu). Qed.

Lemma scheme_led_cleared s b u :
  URL_new s b = Some u -> scheme_led (href (clear_search u)).
Proof. intros Hu. by destruct (url_href s b u Hu). Qed.

(** The address the class-based [fixImageUrl] tries to parse. *)
Lemma class_fixImageUrl_unfold (c : ascii) (r : string) :
  ClassVariant.fixImageUrl (Some (String c r))
  = let url := Text.replace_leading_slashes (JS.trim (String c r)) in
    let url := if JS.startsWith url "/" then "https://allnovel.org" ++ url else url in
    match URL_new url None with
    | Some u =>
        if (40 <? String.length (searchParams u))%nat
        then Some (href (clear_search u)) else Some (href u)
    | None => Some url
    end.
Proof. done. Qed.

Lemma runtime_fixImageUrl_unfold (c : ascii) (r : string) :
  Runtime.fixImageUrl (Some (String c r))
  = let u := JS.trim (String c r) in
    let u := if JS.startsWith u "//" then "https:" ++ u else u in
    let u := if JS.startsWith u "/" then "https://allnovel.org" ++ u else u in
    match URL_new u None with
    | Some parsed =>
        if JS.truthy (Some (search parsed))
           && (80 <? String.length (search parsed))%nat
        then Some (href (clear_search parsed)) else Some (href parsed)
    | None => Some u
    end.
Proof. done. Qed.

(** An address that is not empty, is trimmed and has no leading slash
    reaches the URL constructor as it is. *)
Lemma class_fixImageUrl_plain (x : string) :
  scheme_led x ->
  ClassVariant.fixImageUrl (Some x)
  = match URL_new x None with
    | Some u =>
        if (40 <? String.length (searchParams u))%nat
        then Some (href (clear_search u)) else Some (href u)
    | None => Some x
    end.
Proof.
  intros (Hne & Htrim & Hslash). destruct x as [|c r]; [done |].
  rewrite class_fixImageUrl_unfold. cbv zeta.
  rewrite Htrim, (replace_leading_slashes_fixed _ Hslash), Hslash. done.
Qed.

Lemma runtime_fixImageUrl_plain (x : string) :
  scheme_led x ->
  Runtime.fixImageUrl (Some x)
  = match URL_new x None with
    | Some parsed =>
        if JS.truthy (Some (search parsed))
           && (80 <? String.length (search parsed))%nat
        then Some (href (clear_search parsed)) else Some (href parsed)
    | None => Some x
    end.
Proof.
  intros (Hne & Htrim & Hslash). destruct x as [|c r]; [done |].
  rewrite runtime_fixImageUrl_unfold. cbv zeta. rewrite Htrim.
  assert (Hss : JS.startsWith (String c r) "//" = false).
  { unfold JS.startsWith in *. rewrite str_prefix_cons in *.
    destruct (ascii_dec "/" c); [by rewrite str_prefix_nil in Hslash | done]. }
  rewrite Hss, Hslash. done.
Qed.

(** What [fixImageUrl] returns after a successful parse is left alone by
    a second application. *)
Lemma class_fixImageUrl_parsed s b u :
  URL_new s b = Some u ->
  let out := if (40 <? String.length (searchParams u))%nat
             then href (clear_search u) else href u in
  ClassVariant.fixImageUrl (Some out) = Some out.
Proof.
  intros Hu out. subst out.
  destruct (40 <? String.length (searchParams u))%nat eqn:Hq.
  - rewrite (class_fixImageUrl_plain _ (scheme_led_cleared _ _ _ Hu)).
    rewrite (url_reparse_cleared _ _ _ Hu).
    destruct (url_cleared _ _ _ Hu) as [_ ->]. done.
  - rewrite (class_fixImageUrl_plain _ (scheme_led_href _ _ _ Hu)).
    rewrite (url_reparse _ _ _ Hu), Hq. done.
Qed.

Lemma runtime_fixImageUrl_parsed s b u :
  URL_new s b = Some u ->
  let out := if JS.truthy (Some (search u)) && (80 <? String.length (search u))%nat
             then href (clear_search u) else href u in
  Runtime.fixImageUrl (Some out) = Some out.
Proof.
  intros Hu out. subst out.
  destruct (JS.truthy (Some (search u)) && (80 <? String.length (search u))%nat)
    eqn:Hq.
  - rewrite (runtime_fixImageUrl_plain _ (scheme_led_cleared _ _ _ Hu)).
    rewrite (url_reparse_cleared _ _ _ Hu).
    destruct (url_cleared _ _ _ Hu) as [-> _]. done.
  - rewrite (runtime_fixImageUrl_plain _ (scheme_led_href _ _ _ Hu)).
    rewrite (url_reparse _ _ _ Hu), Hq. done.
Qed.

(** The address built from a trimmed, non-empty text is itself trimmed,
    not empty, and without a leading slash. *)
Lemma class_candidate_plain (url0 : string) :
  url0 <> EmptyString -> JS.trimStart url0 = url0 -> JS.trimEnd url0 = url0 ->
  let url := Text.replace_leading_slashes url0 in
  let url := if JS.startsWith url "/" then "https://allnovel.org" ++ url else url in
  scheme_led url.
Proof.
  intros Hne Hs He. cbv zeta. unfold Text.replace_leading_slashes.
  destruct (JS.startsWith url0 "//") eqn:Hss.
  - change (JS.startsWith ("https://" ++ _) "/") with false. cbv iota.
    split; [done |]. split; [|done].
    apply trim_fixed; [done |].
    apply trimEnd_app_fixed; [done | by apply trimEnd_drop_while].
  - destruct (JS.startsWith url0 "/") eqn:Hsl.
    + split; [done |]. split; [|done].
      apply trim_fixed; [done |]. by apply trimEnd_app_fixed.
    + split; [done |]. split; [|done]. by apply trim_fixed.
Qed.

Lemma runtime_candidate_plain (u0 : string) :
  u0 <> EmptyString -> JS.trimStart u0 = u0 -> JS.trimEnd u0 = u0 ->
  let u := if JS.startsWith u0 "//" then "https:" ++ u0 else u0 in
  let u := if JS.startsWith u "/" then "https://allnovel.org" ++ u else u in
  scheme_led u.
Proof.
  intros Hne Hs He. cbv zeta.
  destruct (JS.startsWith u0 "//") eqn:Hss.
  - change (JS.startsWith ("https:" ++ _) "/") with false. cbv iota.
    split; [done |]. split; [|done].
    apply trim_fixed; [done |]. by apply trimEnd_app_fixed.
  - destruct (JS.startsWith u0 "/") eqn:Hsl.
    + split; [done |]. split; [|done].
      apply trim_fixed; [done |]. by apply trimEnd_app_fixed.
    + split; [done |]. split; [|done]. by apply trim_fixed.
Qed.

(** C7 (as amended): on every input that is not a non-empty string of
    whitespace only, applying [fixImageUrl] twice gives what applying it
    once gives, in both implementations; in particular the serialisation
    of a URL within the query threshold is returned unchanged. *)
Theorem C7_fixImageUrl_idempotent (raw : option string) :
  ~ JS.blank raw ->
  ClassVariant.fixImageUrl (ClassVariant.fixImageUrl raw)
  = ClassVariant.fixImageUrl raw
  /\ Runtime.fixImageUrl (Runtime.fixImageUrl raw) = Runtime.fixImageUrl raw.
Proof.
  intros Hblank. destruct raw as [[|c r]|]; [done | | done].
  assert (Hne : JS.trim (String c r) <> EmptyString).
  { intros Ht. apply Hblank. exists (String c r). done. }
  split.
  - rewrite class_fixImageUrl_unfold. cbv zeta.
    pose proof (class_candidate_plain _ Hne (trim_trimStart _) (trim_trimEnd _))
      as Hplain. cbv zeta in Hplain.
    destruct (URL_new _ None) as [u|] eqn:Hu.
    + pose proof (class_fixImageUrl_parsed _ _ _ Hu) as Hp. cbv zeta in Hp.
      by destruct (40 <? String.length (searchParams u))%nat.
    + rewrite (class_fixImageUrl_plain _ Hplain), Hu. done.
  - rewrite runtime_fixImageUrl_unfold. cbv zeta.
    pose proof (runtime_candidate_plain _ Hne (trim_trimStart _) (trim_trimEnd _))
      as Hplain. cbv zeta in Hplain.
    destruct (URL_new _ None) as [u|] eqn:Hu.
    + pose proof (runtime_fixImageUrl_parsed _ _ _ Hu) as Hp. cbv zeta in Hp.
      by destruct (JS.truthy (Some (search u))
                   && (80 <? String.length (search u))%nat).
    + rewrite (runtime_fixImageUrl_plain _ Hplain), Hu. done.
Qed.

End Addresses.

(** ** The reference resolver obeys the laws *)

Section ReferenceResolver.

Import Url RefUrl.

Local Notation "a ++ b" := (String.append a b).
Local Arguments String.append : simpl never.

Lemma str_append_nil_l (b : string) : EmptyString ++ b = b.
Proof. done. Qed.

Lemma startsWith_https (x : string) :
  JS.startsWith ("https://" ++ x) "https://" = true.
Proof. apply str_prefix_spec. by exists x. Qed.

Lemma skip_https (x : string) : Text.skip 8 ("https://" ++ x) = x.
Proof. done. Qed.

Lemma all_chars_app (p : ascii -> bool) (a b : string) :
  all_chars p (a ++ b) = all_chars p a && all_chars p b.
Proof.
  induction a as [|c a IH]; [done |].
  rewrite str_append_cons. cbn. by rewrite IH, andb_assoc.
Qed.

Lemma all_chars_impl (p q : ascii -> bool) (s : string) :
  (forall c, p c = true -> q c = true) ->
  all_chars p s = true -> all_chars q s = true.
Proof.
  intros Hpq. induction s as [|c s IH]; [done |]. cbn.
  rewrite !andb_true_iff. intros [Hc Hs]. auto.
Qed.

Lemma split_at_miss (c : ascii) (a : string) :
  all_chars (other_than c) a = true -> split_at c a = (a, None).
Proof.
  induction a as [|x a IH]; [done |]. cbn. unfold other_than at 1.
  destruct (Ascii.eqb x c); [done |]. cbn. intros Ha. by rewrite (IH Ha).
Qed.

Lemma split_at_hit (c : ascii) (a b : string) :
  all_chars (other_than c) a = true ->
  split_at c (a ++ String c b) = (a, Some b).
Proof.
  induction a as [|x a IH].
  - intros _. rewrite str_append_nil_l. cbn. by rewrite Ascii.eqb_refl.
  - rewrite str_append_cons. cbn. unfold other_than at 1.
    destruct (Ascii.eqb x c); [done |]. cbn. intros Ha. by rewrite (IH Ha).
Qed.

Lemma trim_all_chars (s : string) :
  all_chars (fun c => negb (JS.is_ws c)) s = true -> JS.trim s = s.
Proof.
  intros Hs. apply trim_fixed.
  - destruct s as [|c r]; [done |]. cbn in Hs.
    apply andb_true_iff in Hs as [Hc _]. apply trimStart_fixed.
    by destruct (JS.is_ws c).
  - induction s as [|c r IH]; [done |]. cbn in Hs.
    apply andb_true_iff in Hs as [Hc Hr]. rewrite trimEnd_cons, (IH Hr).
    destruct r; [|done]. by destruct (JS.is_ws c).
Qed.

Lemma host_char_facts (c : ascii) :
  host_char c = true ->
  other_than "?" c = true /\ other_than "/" c = true /\ negb (JS.is_ws c) = true.
Proof. destruct c as [[] [] [] [] [] [] [] []]; by vm_compute. Qed.

Lemma path_char_facts (c : ascii) :
  path_char c = true -> other_than "?" c = true /\ negb (JS.is_ws c) = true.
Proof. destruct c as [[] [] [] [] [] [] [] []]; by vm_compute. Qed.

Lemma query_char_facts (c : ascii) :
  query_char c = true -> negb (JS.is_ws c) = true.
Proof. destruct c as [[] [] [] [] [] [] [] []]; by vm_compute. Qed.

Lemma parts_of_accepted (s : string) (p : Parts) :
  parts_of s = Some p -> accepted p.
Proof.
  unfold parts_of. destruct (JS.startsWith s "https://"); [|done].
  destruct (split_at "?" _) as [hp q]. destruct (split_at "/" hp) as [h p0].
  destruct (_ && _) eqn:Hok; [|done]. intros [= <-]. split; [done |].
  by eexists.
Qed.

Lemma accepted_facts (p : Parts) :
  accepted p ->
  all_chars host_char (host p) = true
  /\ all_chars path_char (path p) = true
  /\ all_chars query_char (default EmptyString (query p)) = true.
Proof.
  intros [Hok _]. repeat (apply andb_true_iff in Hok as [Hok ?]). done.
Qed.

Lemma parts_of_serialised (p : Parts) :
  accepted p -> parts_of (href (serialise p)) = Some p.
Proof.
  intros Hacc. pose proof (accepted_facts p Hacc) as (Hh & Hp & Hq).
  destruct Hacc as [Hok [p' Hpath]]. destruct p as [h pa q]. cbn in *.
  subst pa. unfold parts_of.
  rewrite startsWith_https, skip_https.
  assert (Hhp : all_chars (other_than "?") (h ++ String "/" p') = true).
  { rewrite all_chars_app. apply andb_true_iff. split.
    - eapply all_chars_impl; [|exact Hh]. intros c Hc. apply host_char_facts, Hc.
    - eapply all_chars_impl; [|exact Hp]. intros c Hc. apply path_char_facts, Hc. }
  assert (Hhs : all_chars (other_than "/") h = true).
  { eapply all_chars_impl; [|exact Hh]. intros c Hc. apply host_char_facts, Hc. }
  rewrite <- str_append_assoc. destruct q as [q|].
  - rewrite (split_at_hit _ _ _ Hhp), (split_at_hit _ _ _ Hhs). cbn.
    cbn in Hok. by rewrite Hok.
  - rewrite str_append_nil_r, (split_at_miss _ _ Hhp), (split_at_hit _ _ _ Hhs).
    cbn. cbn in Hok. by rewrite Hok.
Qed.

Lemma absolute_inv (s : string) (u : URLObject) :
  absolute s = Some u -> exists p, accepted p /\ u = serialise p.
Proof.
  unfold absolute. destruct (parts_of s) as [p|] eqn:Hp; [|done].
  intros [= <-]. exists p. split; [by eapply parts_of_accepted | done].
Qed.

Lemma resolve_inv (s : string) (b : option string) (u : URLObject) :
  resolve s b = Some u -> exists p, accepted p /\ u = serialise p.
Proof.
  unfold resolve. destruct b as [b|]; [|apply absolute_inv].
  destruct (absolute b); [|done].
  repeat case_match; try done; apply absolute_inv.
Qed.

Lemma absolute_serialised (p : Parts) :
  accepted p -> absolute (href (serialise p)) = Some (serialise p).
Proof. intros Hp. unfold absolute. by rewrite (parts_of_serialised p Hp). Qed.

Lemma accepted_without_query (p : Parts) :
  accepted p -> accepted (mkParts (host p) (path p) None).
Proof.
  intros [Hok Hpath]. split; [|done]. cbn.
  repeat (apply andb_true_iff in Hok as [Hok ?]).
  repeat (apply andb_true_iff; split); done.
Qed.

Lemma without_query_serialised (p : Parts) :
  accepted p ->
  without_query (serialise p) = serialise (mkParts (host p) (path p) None).
Proof.
  intros Hacc. pose proof (accepted_facts p Hacc) as (Hh & Hp & Hq).
  unfold without_query, serialise. cbn. f_equal.
  assert (Hpre : all_chars (other_than "?") ("https://" ++ (host p ++ path p)) = true).
  { rewrite !all_chars_app.
    apply andb_true_iff; split; [by vm_compute |]. apply andb_true_iff; split.
    - eapply all_chars_impl; [|exact Hh]. intros c Hc. apply host_char_facts, Hc.
    - eapply all_chars_impl; [|exact Hp]. intros c Hc. apply path_char_facts, Hc. }
  rewrite str_append_nil_r.
  set (qs := match query p with Some q => String "?" q | None => EmptyString end).
  replace ("https://" ++ (host p ++ (path p ++ qs)))
    with (("https://" ++ (host p ++ path p)) ++ qs)
    by (by rewrite !str_append_assoc).
  subst qs. destruct (query p) as [q|].
  - by rewrite (split_at_hit _ _ _ Hpre).
  - by rewrite str_append_nil_r, (split_at_miss _ _ Hpre).
Qed.

Lemma serialised_scheme_led (p : Parts) :
  accepted p -> scheme_led (href (serialise p)).
Proof.
  intros Hacc. pose proof (accepted_facts p Hacc) as (Hh & Hp & Hq).
  split; [done |]. split; [|done]. apply trim_all_chars. cbn.
  rewrite !all_chars_app.
  apply andb_true_iff; split; [by vm_compute |].
  apply andb_true_iff; split; [|apply andb_true_iff; split].
  - eapply all_chars_impl; [|exact Hh]. intros c Hc. apply host_char_facts, Hc.
  - eapply all_chars_impl; [|exact Hp]. intros c Hc. apply path_char_facts, Hc.
  - destruct (query p) as [q|]; [|done]. cbn. cbn in Hq.
    eapply all_chars_impl; [|exact Hq]. intros c Hc. apply query_char_facts, Hc.
Qed.

Lemma reference_laws : Url.Laws.
Proof.
  split.
  - done.
  - intros s b u Hu. destruct (resolve_inv s b u Hu) as [p [Hp ->]].
    by apply absolute_serialised.
  - intros s b u Hu. destruct (resolve_inv s b u Hu) as [p [Hp ->]].
    change (absolute (href (without_query (serialise p)))
            = Some (without_query (serialise p))).
    rewrite (without_query_serialised p Hp).
    by apply absolute_serialised, accepted_without_query.
  - done.
  - intros s b u Hu. destruct (resolve_inv s b u Hu) as [p [Hp ->]].
    split; [by apply serialised_scheme_led |].
    change (scheme_led (href (without_query (serialise p)))).
    rewrite (without_query_serialised p Hp).
    by apply serialised_scheme_led, accepted_without_query.
  - intros base rest Hbase [bo Hbo].
    change (absolute base = Some bo) in Hbo.
    change (resolve ("//" ++ rest) (Some base) = absolute ("https://" ++ rest)).
    unfold resolve. rewrite Hbo.
    assert (Hx : JS.startsWith ("//" ++ rest) "https://" = false) by reflexivity.
    assert (Hy : JS.startsWith ("//" ++ rest) "//" = true)
      by (apply str_prefix_spec; by exists rest).
    rewrite Hx, Hy. reflexivity.
  - intros base b c rest Hb Horigin Hc1 Hc2 Hc3 Hc4 Hc5.
    change (absolute base = Some b) in Hb.
    change (resolve (String "/" (String c rest)) (Some base)
            = absolute (origin b ++ String "/" (String c rest))).
    unfold resolve. rewrite Hb.
    assert (Hx : JS.startsWith (String "/" (String c rest)) "https://" = false)
      by reflexivity.
    assert (Hy : JS.startsWith (String "/" (String c rest)) "//" = false).
    { unfold JS.startsWith. rewrite !str_prefix_cons.
      destruct (ascii_dec "/" "/"); [|done]. by destruct (ascii_dec "/" c). }
    assert (Hw : JS.startsWith (String "/" (String c rest)) "/\" = false).
    { unfold JS.startsWith. rewrite !str_prefix_cons.
      destruct (ascii_dec "/" "/"); [|done]. by destruct (ascii_dec "\" c). }
    assert (Hz : JS.startsWith (String "/" (String c rest)) "/" = true)
      by (apply str_prefix_spec; by exists (String c rest)).
    rewrite Hx, Hy, Hw, Hz. reflexivity.
  - eexists. split; [by vm_compute |]. done.
Qed.

End ReferenceResolver.

(** A protocol-relative image address with a short query. *)
Lemma C7_fixImageUrl_idempotent_witness :
  ~ JS.blank (Some " //cdn.example.com/a.png?w=300 ")
  /\ ClassVariant.fixImageUrl (Some " //cdn.example.com/a.png?w=300 ")
     = Some "https://cdn.example.com/a.png?w=300"
  /\ ClassVariant.fixImageUrl
       (ClassVariant.fixImageUrl (Some " //cdn.example.com/a.png?w=300 "))
     = ClassVariant.fixImageUrl (Some " //cdn.example.com/a.png?w=300 ")
  /\ Runtime.fixImageUrl
       (Runtime.fixImageUrl (Some " //cdn.example.com/a.png?w=300 "))
     = Runtime.fixImageUrl (Some " //cdn.example.com/a.png?w=300 ").
Proof.
  assert (Hnb : ~ JS.blank (Some " //cdn.example.com/a.png?w=300 ")).
  { intros [s [[= <-] [_ Hs]]]. vm_compute in Hs. discriminate Hs. }
  split; [exact Hnb |]. split; [by vm_compute |].
  exact (@C7_fixImageUrl_idempotent RefUrl.api reference_laws
           (Some " //cdn.example.com/a.png?w=300 ") Hnb).
Defined.

(** C7 (as stated) fails on a string of one space: [fixImageUrl] gives
    the empty string, and [fixImageUrl] of the empty string is null.
    Only the first law, that the empty string is no URL, is involved. *)
Lemma fixImageUrl_blank `{Url.Laws} :
  ClassVariant.fixImageUrl (Some " ") = Some EmptyString
  /\ ClassVariant.fixImageUrl (ClassVariant.fixImageUrl (Some " ")) = None
  /\ Runtime.fixImageUrl (Some " ") = Some EmptyString
  /\ Runtime.fixImageUrl (Runtime.fixImageUrl (Some " ")) = None.
Proof.
  assert (Hc : ClassVariant.fixImageUrl (Some " ") = Some EmptyString).
  { rewrite class_fixImageUrl_unfold. cbn. by rewrite Url.url_empty. }
  assert (Hr : Runtime.fixImageUrl (Some " ") = Some EmptyString).
  { rewrite runtime_fixImageUrl_unfold. cbn. by rewrite Url.url_empty. }
  by rewrite Hc, Hr.
Qed.

Lemma C7_blank_counterexample :
  ClassVariant.fixImageUrl (ClassVariant.fixImageUrl (Some " "))
  <> ClassVariant.fixImageUrl (Some " ")
  /\ Runtime.fixImageUrl (Runtime.fixImageUrl (Some " "))
     <> Runtime.fixImageUrl (Some " ").
Proof.
  destruct (@fixImageUrl_blank RefUrl.api reference_laws) as (H1 & H2 & H3 & H4).
  rewrite H2, H1, H4, H3. done.
Qed.

(** ** C6: the URL resolver *)

Section Resolver.

Context `{Url.Laws}.
Import Url.

Local Notation "a ++ b" := (String.append a b).

Lemma toAbsolute_unfold (c : ascii) (r : string) :
  Runtime.toAbsolute (Some (String c r))
  = match URL_new (String c r) (Some "https://allnovel.org") with
    | Some o => Some (href o)
    | None => Some (String c r)
    end.
Proof. done. Qed.


End Resolver.



(** ** C8: one entry per address *)

Section Dedupe.

Import Dom Async.
Context `{Url.Api}.

(** The class-based dedupe loop keeps an entry exactly when its address
    is new: the result has no two entries with one address and none
    already seen, it is a sublist of the input, and the first entry
    with a new address is kept. *)
Lemma class_dedupe_fresh (seen : gset string) (items : list ClassVariant.Item) :
  NoDup (map ClassVariant.url (ClassVariant.dedupe seen items))
  /\ Forall (fun it => ClassVariant.url it ∉ seen) (ClassVariant.dedupe seen items).
Proof.
  revert seen. induction items as [|it rest IH]; intros seen; cbn.
  - split; constructor.
  - case_bool_decide as Hin; [apply IH |].
    destruct (IH ({[ClassVariant.url it]} ∪ seen)) as [Hnd Hall]. split.
    + cbn. constructor; [|done]. intros Hm.
      apply list_elem_of_fmap in Hm as [it' [Heq Hit']].
      rewrite Forall_forall in Hall. apply Hall in Hit'. set_solver.
    + constructor; [done |]. eapply Forall_impl; [exact Hall |].
      cbn. intros it' Hit'. set_solver.
Qed.

Lemma class_dedupe_sublist (seen : gset string) (items : list ClassVariant.Item) :
  ClassVariant.dedupe seen items `sublist_of` items.
Proof.
  revert seen. induction items as [|it rest IH]; intros seen; cbn; [done |].
  case_bool_decide; [by apply sublist_cons | by apply sublist_skip].
Qed.

Lemma class_dedupe_first (seen : gset string) (before after : list ClassVariant.Item)
  (it : ClassVariant.Item) :
  ClassVariant.url it ∉ seen ->
  ClassVariant.url it ∉ map ClassVariant.url before ->
  it ∈ ClassVariant.dedupe seen (before ++ it :: after).
Proof.
  revert seen. induction before as [|b before IH]; intros seen Hseen Hbefore; cbn.
  - rewrite bool_decide_eq_false_2 by done. by left.
  - cbn in Hbefore. apply not_elem_of_cons in Hbefore as [Hne Hbefore].
    case_bool_decide; [by apply IH |]. right. apply IH; [set_solver | done].
Qed.

(** The listing of the class-based [getPopular] has no two entries with
    one address. *)
Lemma class_getPopular_no_duplicates (page : Z) (net : Net) r :
  outcome (ClassVariant.getPopular page net) = Ok r ->
  NoDup (map ClassVariant.url (ClassVariant.results r)).
Proof.
  unfold ClassVariant.getPopular.
  destruct (class_fetchCandidates_run "article, .post, .novel-item, .entry" net
              (ClassVariant.popularCandidates page) None)
    as [d [t [Hrun _]]].
  rewrite (run_bind_ok _ _ _ _ _ Hrun). destruct d as [doc|]; [|done].
  cbn. intros [= <-]. cbn. apply class_dedupe_fresh.
Qed.

(** So has the anchor fallback of the runtime [parseListFromDoc]. *)
Lemma runtime_scanAnchors_fresh (seen : gset string) (anchors : list Elem) :
  NoDup (map Runtime.url (Runtime.scanAnchors seen anchors))
  /\ Forall (fun it => Runtime.url it ∉ seen) (Runtime.scanAnchors seen anchors).
Proof.
  revert seen.
  induction anchors as [|a rest IH]; intros seen; cbn [Runtime.scanAnchors].
  - split; constructor.
  - destruct (Runtime.toAbsolute (Runtime.attr "href" a)) as [[|c href]|];
      try apply IH.
    destruct (Runtime.cleanText (Some (Runtime.text a))) as [[|c' txt]|];
      try apply IH.
    case_bool_decide as Hin; [apply IH |].
    destruct (IH ({[String c href]} ∪ seen)) as [Hnd Hall]. split.
    + cbn. constructor; [|done]. intros Hm.
      apply list_elem_of_fmap in Hm as [it' [Heq Hit']].
      rewrite Forall_forall in Hall. apply Hall in Hit'. set_solver.
    + constructor; [done |]. eapply Forall_impl; [exact Hall |].
      cbn. intros it' Hit'. set_solver.
Qed.

End Dedupe.

(** C8 at the failing input: on a popular page with three cards, the
    first and the third for the same work, the runtime [getPopular]
    returns three entries, two of them with one address; the class-based
    [getPopular] returns two. *)
Theorem C8_runtime_duplicate_entries :
  (exists r,
     Async.outcome (Runtime.getPopular 1
                      (Pages.serving Listings.popularUrl Listings.popularTwice))
     = Async.Ok r
     /\ map Runtime.url (Runtime.list_ r)
        = [ "https://allnovel.org/novel/a"; "https://allnovel.org/novel/b";
            "https://allnovel.org/novel/a" ]
     /\ ~ NoDup (map Runtime.url (Runtime.list_ r)))
  /\ (exists r,
        Async.outcome (ClassVariant.getPopular 1
                         (Pages.serving Listings.popularUrl Listings.popularTwice))
        = Async.Ok r
        /\ map ClassVariant.url (ClassVariant.results r)
           = [ "https://allnovel.org/novel/a"; "https://allnovel.org/novel/b" ]).
Proof.
  split.
  - eexists. split; [by vm_compute |]. split; [by vm_compute |].
    intros Hnd. vm_compute in Hnd. apply NoDup_cons in Hnd as [Hin _].
    apply Hin. right. left.
  - eexists. split; [by vm_compute |]. by vm_compute.
Qed.

(** ** C10: the pages of a chapter *)

Section PageList.

Import Dom Async.
Context `{Url.Api}.

(** An image contributes its resolved and normalised source when that is
    a non-empty string, and nothing otherwise. *)
Lemma pageOfImage_spec (img : Elem) (s : string) :
  Runtime.pageOfImage img = Some s
  <-> Runtime.imageSource img = Some s /\ s <> EmptyString.
Proof.
  unfold Runtime.pageOfImage.
  destruct (Runtime.imageSource img) as [[|c r]|]; cbn; split; try done.
  - by intros [[= <-] Hne].
  - by intros [= <-].
  - by intros [[= <-] _].
  - by intros [? _].
Qed.

Lemma pageOfParagraph_data (p : Elem) :
  JS.startsWith (Runtime.pageOfParagraph p) "data:text/html," = true.
Proof. apply str_prefix_spec. by eexists. Qed.

(** The loop over the content selectors stops at the first selector
    whose first match has text. *)
Lemma runtime_firstContent_spec (document : Document) (sels : list string)
  (node : Elem) :
  Runtime.firstContent document sels = Some node
  <-> exists before sel after,
        sels = before ++ sel :: after
        /\ Runtime.selectFirst sel document = Some node
        /\ JS.trim (Runtime.text node) <> EmptyString
        /\ Forall (fun s => forall n, Runtime.selectFirst s document = Some n ->
                                      JS.trim (Runtime.text n) = EmptyString)
                  before.
Proof.
  induction sels as [|s rest IH]; cbn [Runtime.firstContent].
  - split; [done |]. intros (before & sel & after & Heq & _). by destruct before.
  - destruct (Runtime.selectFirst s document) as [n|] eqn:Hs.
    + destruct (JS.trim (Runtime.text n)) as [|c x] eqn:Ht; cbn.
      * rewrite IH. split.
        -- intros (before & sel & after & -> & Hsel & Hne & Hall).
           exists (s :: before), sel, after. split; [done |]. split; [done |].
           split; [done |]. constructor; [|done]. intros n' Hn'. congruence.
        -- intros (before & sel & after & Heq & Hsel & Hne & Hall).
           destruct before as [|b before]; injection Heq as -> ->.
           ++ congruence.
           ++ apply Forall_cons in Hall as [_ Hall]. by exists before, sel, after.
      * split.
        -- intros [= <-]. exists [], s, rest. rewrite Ht. done.
        -- intros (before & sel & after & Heq & Hsel & Hne & Hall).
           destruct before as [|b before]; injection Heq as -> ->.
           ++ congruence.
           ++ apply Forall_cons in Hall as [Hb _]. specialize (Hb _ Hs). congruence.
    + rewrite IH. split.
      * intros (before & sel & after & -> & Hsel & Hne & Hall).
        exists (s :: before), sel, after. split; [done |]. split; [done |].
        split; [done |]. constructor; [|done]. intros n' Hn'. congruence.
      * intros (before & sel & after & Heq & Hsel & Hne & Hall).
        destruct before as [|b before]; injection Heq as -> ->.
        -- congruence.
        -- apply Forall_cons in Hall as [_ Hall]. by exists before, sel, after.
Qed.

(** The container of a chapter page, from the queries on the page. *)
Lemma runtime_contentNodeOf_container (document : Document) :
  let blank := fun sel => forall n, Runtime.selectFirst sel document = Some n ->
                 JS.trim (Runtime.text n) = EmptyString in
  (forall node,
     (exists before sel after,
        Runtime.contentSelectors = before ++ sel :: after
        /\ Runtime.selectFirst sel document = Some node
        /\ JS.trim (Runtime.text node) <> EmptyString
        /\ Forall blank before)
     \/ (Forall blank Runtime.contentSelectors
         /\ (Runtime.selectFirst "article" document = Some node
             \/ (Runtime.selectFirst "article" document = None
                 /\ Runtime.selectFirst ".post" document = Some node))) ->
     Runtime.contentNodeOf document = Some node)
  /\ (Forall blank Runtime.contentSelectors ->
      Runtime.selectFirst "article" document = None ->
      Runtime.selectFirst ".post" document = None ->
      Runtime.contentNodeOf document = None).
Proof.
  intros blank.
  assert (Hnone : Forall blank Runtime.contentSelectors ->
                  Runtime.firstContent document Runtime.contentSelectors = None).
  { intros Hall.
    destruct (Runtime.firstContent document Runtime.contentSelectors) as [n|] eqn:Hf;
      [|done].
    apply runtime_firstContent_spec in Hf
      as (before & sel & after & Heq & Hsel & Hne & _).
    rewrite Heq in Hall. apply Forall_app in Hall as [_ Hall].
    apply Forall_cons in Hall as [Hs _]. by specialize (Hs _ Hsel). }
  split.
  - intros node [Hsel | [Hall Hor]]; unfold Runtime.contentNodeOf.
    + apply runtime_firstContent_spec in Hsel. by rewrite Hsel.
    + rewrite (Hnone Hall). by destruct Hor as [-> | [-> ->]].
  - intros Hall Ha Hp. unfold Runtime.contentNodeOf.
    by rewrite (Hnone Hall), Ha, Hp.
Qed.


End PageList.


(** A chapter of text, and a page without a container. *)
Lemma getPageList_prose :
  Async.outcome (Runtime.getPageList Chapters.chapter
                   (Pages.serving Chapters.chapterUrl Chapters.prose))
  = Async.Ok [ "data:text/html,%3Cp%3EIt%20was%20a%20dark%20night.%3C%2Fp%3E";
               "data:text/html,%3Cp%3EThe%20end.%3C%2Fp%3E" ]
  /\ Async.outcome (Runtime.getPageList Chapters.chapter
                      (Pages.serving Chapters.chapterUrl Chapters.bare))
     = Async.Ok [].
Proof. split; by vm_compute. Qed.

(** ** Trees *)

Section Trees.

Import Dom.

(** Induction on a node, with the property in hand for every child. *)
Lemma Node_forest_ind (P : Node -> Prop) :
  (forall d, P (TextNode d)) ->
  (forall t a ks, Forall P ks -> P (Element t a ks)) ->
  (forall a c, P (Template a c)) ->
  forall n, P n.
Proof.
  intros Htext Helem Htemplate. fix IH 1.
  intros [d|t a ks|a c]; [apply Htext | | apply Htemplate].
  apply Helem. induction ks as [|k ks IHks]; constructor; [apply IH | exact IHks].
Qed.

Lemma elements_of_element q anc t a ks :
  elements_of q anc (Element t a ks)
  = mkElem q anc t a ks :: elements_in q ((t, a) :: anc) ks.
Proof. reflexivity. Qed.

Lemma elements_in_cons q anc n l :
  elements_in q anc (n :: l) = elements_of q anc n ++ elements_in q anc l.
Proof. done. Qed.

Lemma elements_in_app q anc l1 l2 :
  elements_in q anc (l1 ++ l2) = elements_in q anc l1 ++ elements_in q anc l2.
Proof.
  induction l1 as [|n l1 IH]; [done |].
  cbn [app]. by rewrite !elements_in_cons, IH, app_assoc.
Qed.

Lemma text_of_element t a ks : text_of (Element t a ks) = text_in ks.
Proof.
  cbn. induction ks as [|k ks IH]; [done |]. cbn. by rewrite IH.
Qed.

(** Every element of a subtree has the ancestors of the subtree among
    its own. *)
Lemma elements_of_anc q anc n e :
  e ∈ elements_of q anc n -> anc `suffix_of` e_anc e.
Proof.
  revert anc. induction n as [d|t a ks IH|ta tc] using Node_forest_ind; intros anc.
  - cbn. by intros ?%elem_of_nil.
  - rewrite elements_of_element. intros [->|Hin]%elem_of_cons; [done |].
    assert (Hsuf : ((t, a) :: anc) `suffix_of` e_anc e).
    { clear -IH Hin. induction ks as [|k ks IHks]; [by apply elem_of_nil in Hin |].
      rewrite elements_in_cons in Hin. apply Forall_cons in IH as [Hk Hks].
      apply elem_of_app in Hin as [Hin|Hin]; [by apply Hk | by apply IHks]. }
    eapply suffix_cons_l, Hsuf.
  - cbn. by intros ->%list_elem_of_singleton.
Qed.

Lemma elements_in_anc q anc l e :
  e ∈ elements_in q anc l -> anc `suffix_of` e_anc e.
Proof.
  induction l as [|n l IH]; [by intros ?%elem_of_nil |].
  rewrite elements_in_cons. intros [Hin|Hin]%elem_of_app; [|by apply IH].
  by eapply elements_of_anc.
Qed.

Lemma elements_of_quirks q anc n e :
  e ∈ elements_of q anc n -> e_quirks e = q.
Proof.
  revert anc. induction n as [d|t a ks IH|ta tc] using Node_forest_ind; intros anc.
  - cbn. by intros ?%elem_of_nil.
  - rewrite elements_of_element. intros [->|Hin]%elem_of_cons; [done |].
    induction ks as [|k ks IHks]; [by apply elem_of_nil in Hin |].
    rewrite elements_in_cons in Hin. apply Forall_cons in IH as [Hk Hks].
    apply elem_of_app in Hin as [Hin|Hin]; [by eapply Hk | by apply IHks].
  - cbn. by intros ->%list_elem_of_singleton.
Qed.

Lemma elements_in_quirks q anc l e :
  e ∈ elements_in q anc l -> e_quirks e = q.
Proof.
  induction l as [|n l IH]; [by intros ?%elem_of_nil |].
  rewrite elements_in_cons. intros [Hin|Hin]%elem_of_app; [|by apply IH].
  by eapply elements_of_quirks.
Qed.

Lemma contents_of_element t a ks : contents_of (Element t a ks) = contents_in ks.
Proof.
  cbn. induction ks as [|k ks IH]; [done |]. cbn. by rewrite IH.
Qed.

Lemma contents_in_cons n l : contents_in (n :: l) = contents_of n ++ contents_in l.
Proof. done. Qed.

Lemma contents_in_app l1 l2 :
  contents_in (l1 ++ l2) = contents_in l1 ++ contents_in l2.
Proof. unfold contents_in. by rewrite flat_map_app. Qed.

Lemma matches_chain_nil q anc : matches_chain q [] anc = true.
Proof. by destruct anc. Qed.

(** A selector list without combinators matches an element whatever its
    ancestors are. *)
Lemma matches_list_simple sl q anc t :
  simple sl = true -> matches_list q anc t sl = matches_list q [] t sl.
Proof.
  unfold matches_list. induction sl as [|cx sl IH]; [done |]. cbn.
  intros [Hcx Hsl]%andb_true_iff. rewrite (IH Hsl). f_equal.
  destruct cx as [|c [|c' cx]]; try done.
  unfold matches_in. cbn. by rewrite !matches_chain_nil.
Qed.

End Trees.

(** ** C9: the sanitiser *)

Section Sanitiser.

Import Dom ClassVariant.

Variable q : bool.
Variable sl : SelectorList.
Hypothesis sl_simple : simple sl = true.


Lemma prune_element anc t a ks :
  prune sl q anc (Element t a ks)
  = if removes sl q (t, a) then []
    else [Element t a (flat_map (prune sl q ((t, a) :: anc)) ks)].
Proof.
  cbn [prune]. rewrite (matches_list_simple sl q anc (t, a) sl_simple).
  unfold removes. destruct (matches_list q [] (t, a) sl); reflexivity.
Qed.

Lemma prune_template anc a c :
  prune sl q anc (Template a c)
  = if removes sl q ("template", a) then [] else [Template a c].
Proof.
  cbn [prune]. rewrite (matches_list_simple sl q anc ("template", a) sl_simple).
  unfold removes. destruct (matches_list q [] ("template", a) sl); reflexivity.
Qed.

(** What holds of every element of a forest holds of every element left
    by the pass, and no element left is one the pass removes. *)
Lemma prune_elements (P : string * Attrs -> Prop) anc (f : list Node) :
  Forall (fun e => P (e_tag e, e_attrs e)) (elements_in q anc f) ->
  Forall (fun e => P (e_tag e, e_attrs e)
                   /\ removes sl q (e_tag e, e_attrs e) = false)
         (elements_in q anc (flat_map (prune sl q anc) f)).
Proof.
  revert anc. induction f as [|n f IHf]; intros anc; [constructor |].
  rewrite elements_in_cons. intros [Hn Hf]%Forall_app.
  cbn [flat_map]. rewrite elements_in_app. apply Forall_app. split; [|by apply IHf].
  clear IHf Hf. revert anc Hn.
  induction n as [d|t a ks IH|ta tc] using Node_forest_ind; intros anc Hn;
    [constructor | |].
  2: { rewrite prune_template.
       destruct (removes sl q ("template", ta)) eqn:Hhit; [constructor |].
       cbn in Hn |- *. apply Forall_cons in Hn as [Hself _].
       by repeat constructor. }
  rewrite prune_element. destruct (removes sl q (t, a)) eqn:Hhit; [constructor |].
  rewrite elements_of_element in Hn. apply Forall_cons in Hn as [Hself Hks].
  cbn [elements_in flat_map]. rewrite app_nil_r, elements_of_element.
  constructor; [done |].
  clear Hself Hhit. induction ks as [|k ks IHks]; [constructor |].
  apply Forall_cons in IH as [Hk IH]. rewrite elements_in_cons in Hks.
  apply Forall_app in Hks as [Hks1 Hks2].
  cbn [flat_map]. rewrite elements_in_app. apply Forall_app. split; [|by apply IHks].
  by apply Hk.
Qed.

(** The pass leaves a subtree without a removes sl q as it is. *)
Lemma prune_clean_node anc (n : Node) :
  Forall (fun e => removes sl q (e_tag e, e_attrs e) = false) (elements_of q anc n) ->
  prune sl q anc n = [n].
Proof.
  revert anc. induction n as [d|t a ks IH|ta tc] using Node_forest_ind; intros anc Hn;
    [done | |].
  2: { rewrite prune_template. cbn in Hn. apply Forall_cons in Hn as [Hself _].
       cbn in Hself. by rewrite Hself. }
  rewrite prune_element. rewrite elements_of_element in Hn.
  apply Forall_cons in Hn as [Hself Hks]. cbn in Hself. rewrite Hself.
  do 2 f_equal.
  induction ks as [|k ks IHks]; [done |].
  apply Forall_cons in IH as [Hk IH]. rewrite elements_in_cons in Hks.
  apply Forall_app in Hks as [Hks1 Hks2].
  cbn [flat_map]. by rewrite (Hk _ Hks1), (IHks IH Hks2).
Qed.

Lemma prune_clean anc (f : list Node) :
  Forall (fun e => removes sl q (e_tag e, e_attrs e) = false) (elements_in q anc f) ->
  flat_map (prune sl q anc) f = f.
Proof.
  induction f as [|n f IH]; [done |]. rewrite elements_in_cons.
  intros [Hn Hf]%Forall_app. cbn [flat_map].
  by rewrite (prune_clean_node _ _ Hn), (IH Hf).
Qed.

(** An element with no removes sl q on itself, above it or below it is still
    there after the pass, with the same children. *)
Lemma prune_keeps_node anc (n : Node) (e : Elem) :
  e ∈ elements_of q anc n ->
  Forall (fun t => removes sl q t = false) ((e_tag e, e_attrs e) :: e_anc e) ->
  Forall (fun d => removes sl q (e_tag d, e_attrs d) = false) (scope_elems e) ->
  e ∈ elements_in q anc (prune sl q anc n).
Proof.
  revert anc. induction n as [d|t a ks IH|ta tc] using Node_forest_ind; intros anc;
    [by intros ?%elem_of_nil | |].
  2: { cbn [elements_of]. intros ->%list_elem_of_singleton Hup _.
       apply Forall_cons in Hup as [Hself _]. cbn in Hself.
       rewrite prune_template, Hself. cbn. by left. }
  rewrite elements_of_element. intros Hin Hup Hdown.
  apply elem_of_cons in Hin as [->|Hin].
  - apply Forall_cons in Hup as [Hself _]. cbn in Hself.
    rewrite prune_element, Hself.
    unfold scope_elems, Elem_scope in Hdown. cbn in Hdown.
    rewrite (prune_clean _ _ Hdown).
    cbn [elements_in flat_map]. rewrite app_nil_r, elements_of_element. by left.
  - assert (Hta : removes sl q (t, a) = false).
    { apply elements_in_anc in Hin as [pre Hpre].
      apply Forall_cons in Hup as [_ Hanc]. rewrite Hpre in Hanc.
      apply Forall_app in Hanc as [_ Hanc]. by apply Forall_cons in Hanc as [? _]. }
    rewrite prune_element, Hta.
    cbn [elements_in flat_map]. rewrite app_nil_r, elements_of_element. right.
    clear Hta. induction ks as [|k ks IHks]; [by apply elem_of_nil in Hin |].
    apply Forall_cons in IH as [Hk IH]. rewrite elements_in_cons in Hin.
    cbn [flat_map]. rewrite elements_in_app. apply elem_of_app.
    apply elem_of_app in Hin as [Hin|Hin]; [left; by apply Hk | right; by apply IHks].
Qed.

Lemma prune_keeps anc (f : list Node) (e : Elem) :
  e ∈ elements_in q anc f ->
  Forall (fun t => removes sl q t = false) ((e_tag e, e_attrs e) :: e_anc e) ->
  Forall (fun d => removes sl q (e_tag d, e_attrs d) = false) (scope_elems e) ->
  e ∈ elements_in q anc (flat_map (prune sl q anc) f).
Proof.
  induction f as [|n f IH]; [by intros ?%elem_of_nil |].
  rewrite elements_in_cons. intros Hin Hup Hdown.
  cbn [flat_map]. rewrite elements_in_app. apply elem_of_app.
  apply elem_of_app in Hin as [Hin|Hin];
    [left; by apply prune_keeps_node | right; by apply IH].
Qed.

(** The pass leaves the contents of the templates it keeps as they
    are. *)
Lemma prune_contents_node anc (n : Node) :
  contents_in (prune sl q anc n) `sublist_of` contents_of n.
Proof.
  revert anc. induction n as [d|t a ks IH|ta tc] using Node_forest_ind; intros anc.
  - done.
  - rewrite prune_element. destruct (removes sl q (t, a)); [apply sublist_nil_l |].
    rewrite contents_in_cons, app_nil_r, !contents_of_element.
    generalize ((t, a) :: anc). intros anc'.
    induction ks as [|k ks IHks]; [done |].
    apply Forall_cons in IH as [Hk IH]. cbn [flat_map].
    rewrite contents_in_app, contents_in_cons.
    apply sublist_app; [apply Hk | by apply IHks].
  - rewrite prune_template. destruct (removes sl q ("template", ta));
      [apply sublist_nil_l | by rewrite contents_in_cons, app_nil_r].
Qed.

Lemma prune_contents anc (f : list Node) :
  contents_in (flat_map (prune sl q anc) f) `sublist_of` contents_in f.
Proof.
  induction f as [|n f IH]; [done |]. cbn [flat_map].
  rewrite contents_in_app, contents_in_cons.
  apply sublist_app; [apply prune_contents_node | exact IH].
Qed.

End Sanitiser.

Section Stripping.

Import Dom ClassVariant.

(** The loop over a snapshot of the attributes removes every attribute
    whose name is a handler name of the snapshot. *)
Lemma stripLoop_filter (snapshot cur : Attrs) :
  fold_left (fun cur attr =>
               if isHandlerName attr.1 then removeAttribute attr.1 cur else cur)
            snapshot cur
  = List.filter
      (fun kv => negb (existsb (fun s => isHandlerName s.1 && String.eqb kv.1 s.1)
                               snapshot))
      cur.
Proof.
  revert cur. induction snapshot as [|s snapshot IH]; intros cur; cbn.
  - induction cur as [|kv cur IHc]; [done |]. cbn. by rewrite <- IHc.
  - rewrite IH. destruct (isHandlerName s.1) eqn:Hs; cbn; [|done].
    unfold removeAttribute. induction cur as [|kv cur IHc]; [done |]. cbn.
    destruct (String.eqb kv.1 s.1); cbn; [done |].
    destruct (existsb _ snapshot); cbn; [done |]. by rewrite IHc.
Qed.

Lemma handler_mark (names : Attrs) (k : string) :
  existsb (fun s => isHandlerName s.1 && String.eqb k s.1) names
  = isHandlerName k && existsb (fun s => String.eqb k s.1) names.
Proof.
  induction names as [|s names IH]; cbn; [by rewrite andb_false_r |].
  rewrite IH. destruct (String.eqb k s.1) eqn:Hk.
  - apply String.eqb_eq in Hk as <-. by destruct (isHandlerName k).
  - rewrite andb_false_r. done.
Qed.

(** After the attribute pass an element has the attributes it had,
    without those whose name begins with "on" in any letter case. *)
Lemma stripHandlers_filter (a : Attrs) :
  stripHandlers a = List.filter (fun kv => negb (isHandlerName kv.1)) a.
Proof.
  unfold stripHandlers. rewrite stripLoop_filter.
  apply filter_ext_in. intros kv Hin. rewrite handler_mark.
  assert (Hself : existsb (fun s => String.eqb kv.1 s.1) a = true).
  { apply existsb_exists. exists kv. split; [done | apply String.eqb_refl]. }
  by rewrite Hself, andb_true_r.
Qed.

Lemma stripHandlers_none (a : Attrs) :
  Forall (fun kv => isHandlerName kv.1 = false) (stripHandlers a).
Proof.
  rewrite stripHandlers_filter. induction a as [|kv a IH]; [constructor |].
  cbn [List.filter].
  destruct (isHandlerName kv.1) eqn:Hkv; cbn [negb]; [done |]. by constructor.
Qed.

(** Attributes that are not handlers are read as before. *)
Lemma stripHandlers_lookup (name : string) (a : Attrs) :
  isHandlerName name = false ->
  lookup_attr name (stripHandlers a) = lookup_attr name a.
Proof.
  intros Hname. rewrite stripHandlers_filter.
  induction a as [|[k v] a IH]; [done |]. cbn [List.filter fst].
  destruct (isHandlerName k) eqn:Hk; cbn [negb lookup_attr].
  - destruct (String.eqb k name) eqn:Hkn; [|done].
    apply String.eqb_eq in Hkn. congruence.
  - by rewrite IH.
Qed.

Lemma text_in_cons (k : Node) (r : list Node) :
  text_in (k :: r) = String.append (text_of k) (text_in r).
Proof. done. Qed.

Lemma text_of_stripNode (n : Node) : text_of (stripNode n) = text_of n.
Proof.
  induction n as [d|t a ks IH|ta tc] using Node_forest_ind; [done | | done].
  cbn [stripNode]. rewrite !text_of_element.
  induction ks as [|k ks IHks]; [done |].
  apply Forall_cons in IH as [Hk IH]. cbn [map].
  by rewrite !text_in_cons, Hk, (IHks IH).
Qed.

Lemma text_in_stripNode (f : list Node) : text_in (map stripNode f) = text_in f.
Proof.
  induction f as [|n f IH]; [done |]. cbn [map].
  by rewrite !text_in_cons, text_of_stripNode, IH.
Qed.

(** The elements of a stripped forest are the stripped elements of the
    forest, in the same order. *)
Lemma elements_of_stripNode q anc (n : Node) :
  elements_of q (stripAnc anc) (stripNode n)
  = map stripElem (elements_of q anc n).
Proof.
  revert anc. induction n as [d|t a ks IH|ta tc] using Node_forest_ind; intros anc;
    [done | | done].
  cbn [stripNode]. rewrite !elements_of_element. cbn [map]. f_equal.
  change ((t, stripHandlers a) :: stripAnc anc) with (stripAnc ((t, a) :: anc)).
  generalize ((t, a) :: anc). intros anc'.
  induction ks as [|k ks IHks]; [done |].
  apply Forall_cons in IH as [Hk IH]. cbn [map]. rewrite !elements_in_cons.
  by rewrite map_app, Hk, IHks.
Qed.

Lemma elements_in_stripNode q anc (f : list Node) :
  elements_in q (stripAnc anc) (map stripNode f)
  = map stripElem (elements_in q anc f).
Proof.
  induction f as [|n f IH]; [done |]. cbn [map]. rewrite !elements_in_cons.
  by rewrite map_app, elements_of_stripNode, IH.
Qed.

(** The attribute pass does not enter the content of a template. *)
Lemma contents_of_stripNode (n : Node) : contents_of (stripNode n) = contents_of n.
Proof.
  induction n as [d|t a ks IH|ta tc] using Node_forest_ind; [done | | done].
  cbn [stripNode]. rewrite !contents_of_element.
  induction ks as [|k ks IHks]; [done |].
  apply Forall_cons in IH as [Hk IH]. cbn [map].
  by rewrite !contents_in_cons, Hk, (IHks IH).
Qed.

Lemma contents_in_stripNode (f : list Node) :
  contents_in (map stripNode f) = contents_in f.
Proof.
  induction f as [|n f IH]; [done |]. cbn [map].
  by rewrite !contents_in_cons, contents_of_stripNode, IH.
Qed.

End Stripping.

Section CleanHtml.

Import Dom ClassVariant.

Lemma class_not_handler : isHandlerName "class" = false.
Proof. done. Qed.

Lemma id_not_handler : isHandlerName "id" = false.
Proof. done. Qed.

(** A compound without attribute tests reads the tag, the id and the
    classes, which the attribute pass leaves alone. *)
Lemma matches_compound_strip q (c : Compound) t a :
  c_attrs c = [] ->
  matches_compound q c (t, stripHandlers a) = matches_compound q c (t, a).
Proof.
  intros Hc. unfold matches_compound, has_class, class_list. cbn [fst snd].
  by rewrite Hc, !(stripHandlers_lookup _ _ class_not_handler),
    !(stripHandlers_lookup _ _ id_not_handler).
Qed.

Lemma removes_strip (sl : SelectorList) q t a :
  no_attr_tests sl = true ->
  removes sl q (t, stripHandlers a) = removes sl q (t, a).
Proof.
  unfold removes, matches_list. induction sl as [|cx sl IH]; [done |]. cbn.
  intros [Hcx Hsl]%andb_true_iff. rewrite (IH Hsl). f_equal.
  unfold matches_in. assert (Hrev : forallb
    (fun c => match c_attrs c with [] => true | _ => false end) (rev cx) = true).
  { rewrite forallb_forall in Hcx |- *. intros c Hin. apply Hcx.
    by apply in_rev. }
  destruct (rev cx) as [|subject outer]; [done |]. cbn in Hrev.
  apply andb_true_iff in Hrev as [Hs _].
  rewrite matches_compound_strip; [done |]. by destruct (c_attrs subject).
Qed.

Lemma exec_parsed : parse_selector execSelector = exec.
Proof. vm_compute. reflexivity. Qed.

Lemma ads_parsed : parse_selector adSelector = ads.
Proof. vm_compute. reflexivity. Qed.

Lemma exec_simple : simple exec = true.
Proof. by vm_compute. Qed.

Lemma ads_simple : simple ads = true.
Proof. by vm_compute. Qed.

Lemma exec_no_attr_tests : no_attr_tests exec = true.
Proof. by vm_compute. Qed.

Lemma ads_no_attr_tests : no_attr_tests ads = true.
Proof. by vm_compute. Qed.

(** The parser's own [html], [head] and [body] are not removed. *)
Lemma frame_kept q (sl : SelectorList) :
  sl = exec \/ sl = ads ->
  removes sl q (pair (B:=Attrs) "html" []) = false
  /\ removes sl q (pair (B:=Attrs) "head" []) = false
  /\ removes sl q (pair (B:=Attrs) "body" []) = false.
Proof. intros [->| ->]; destruct q; by vm_compute. Qed.

(** The only element a removal pass can take from the parsed fragment's
    frame is none: the pass works inside head and body. *)
Lemma removeAll_fragment q (sl : SelectorList) (sel : string) hs bs :
  parse_selector sel = sl -> simple sl = true -> sl = exec \/ sl = ads ->
  removeAll sel (parsedFragment q hs bs)
  = parsedFragment q (flat_map (prune sl q [("head", []); ("html", [])]) hs)
                     (flat_map (prune sl q in_body) bs).
Proof.
  intros Hsel Hsimple Hwhich. destruct (frame_kept q sl Hwhich) as (Hh & Hd & Hb).
  unfold removeAll, parsedFragment. cbn [quirks roots flat_map]. rewrite Hsel.
  rewrite (prune_element q sl Hsimple), Hh. cbn [flat_map app].
  rewrite !(prune_element q sl Hsimple), Hd, Hb. reflexivity.
Qed.

(** On a parsed fragment the sanitiser returns the children of the body
    after the two removal passes and the attribute pass. *)
Lemma cleanHtmlContent_fragment q hs bs :
  cleanHtmlContent (parsedFragment q hs bs)
  = InnerHTML (map stripNode
                 (flat_map (prune ads q in_body)
                    (flat_map (prune exec q in_body) bs))).
Proof.
  unfold cleanHtmlContent.
  rewrite (removeAll_fragment q exec execSelector hs bs
             exec_parsed exec_simple (or_introl eq_refl)).
  rewrite (removeAll_fragment q ads adSelector _ _
             ads_parsed ads_simple (or_intror eq_refl)).
  reflexivity.
Qed.

End CleanHtml.

Section CleanHtmlContent.

Import Dom ClassVariant.

Lemma filter_none {A} (f : A -> bool) (l : list A) :
  Forall (fun x => f x = false) l -> List.filter f l = [].
Proof. induction 1 as [|x l Hx Hl IH]; cbn; [done |]. by rewrite Hx. Qed.

Lemma matches_removes (sl : SelectorList) (e : Elem) :
  simple sl = true -> matches sl e = removes sl (e_quirks e) (e_tag e, e_attrs e).
Proof. intros Hs. unfold matches, removes. by apply matches_list_simple. Qed.

(** Two removal passes and the attribute pass, for any two selector
    lists without combinators and attribute tests. *)
Lemma passes_clean q (sl1 sl2 : SelectorList) anc (bs : list Node) :
  simple sl1 = true -> simple sl2 = true ->
  no_attr_tests sl1 = true -> no_attr_tests sl2 = true ->
  Forall (fun e => matches sl1 e = false /\ matches sl2 e = false
                   /\ Forall (fun kv => isHandlerName kv.1 = false) (e_attrs e))
    (elements_in q (stripAnc anc)
       (map stripNode
          (flat_map (prune sl2 q anc) (flat_map (prune sl1 q anc) bs)))).
Proof.
  intros Hs1 Hs2 Hp1 Hp2. rewrite elements_in_stripNode. apply Forall_fmap.
  pose proof (prune_elements q sl1 Hs1 (fun _ => True) anc bs) as H1.
  pose proof (prune_elements q sl2 Hs2
                (fun t => True /\ removes sl1 q t = false) anc
                (flat_map (prune sl1 q anc) bs)) as H2.
  cbv beta in H1, H2. specialize (H2 (H1 ltac:(by apply Forall_true))).
  rewrite Forall_forall in H2 |- *. intros e He.
  destruct (H2 e He) as [[_ Hr1] Hr2]. unfold compose.
  rewrite (matches_removes sl1 _ Hs1), (matches_removes sl2 _ Hs2).
  unfold stripElem. cbn [e_quirks e_tag e_attrs].
  rewrite (elements_in_quirks _ _ _ _ He).
  rewrite (removes_strip sl1 _ _ _ Hp1), (removes_strip sl2 _ _ _ Hp2).
  split; [done |]. split; [done |]. apply stripHandlers_none.
Qed.

Lemma passes_keep q (sl1 sl2 : SelectorList) anc (bs : list Node) (p : Elem) :
  simple sl1 = true -> simple sl2 = true ->
  p ∈ elements_in q anc bs ->
  Forall (fun t => removes sl1 q t = false /\ removes sl2 q t = false)
         ((e_tag p, e_attrs p) :: e_anc p) ->
  Forall (fun d => removes sl1 q (e_tag d, e_attrs d) = false
                   /\ removes sl2 q (e_tag d, e_attrs d) = false)
         (scope_elems p) ->
  stripElem p
  ∈ elements_in q (stripAnc anc)
      (map stripNode (flat_map (prune sl2 q anc) (flat_map (prune sl1 q anc) bs))).
Proof.
  intros Hs1 Hs2 Hp Hup Hdown. rewrite elements_in_stripNode.
  apply list_elem_of_fmap_2. apply (prune_keeps q sl2 Hs2).
  - apply (prune_keeps q sl1 Hs1); [done | |].
    + eapply Forall_impl; [exact Hup |]. by intros t [? ?].
    + eapply Forall_impl; [exact Hdown |]. by intros t [? ?].
  - eapply Forall_impl; [exact Hup |]. by intros t [? ?].
  - eapply Forall_impl; [exact Hdown |]. by intros t [? ?].
Qed.

(** The frame of a parsed fragment holds no element that a selector list
    selects, when none of [html], [head] and [body] is selected and the
    children of the body are not. *)
Lemma frame_query q (sl : SelectorList) (out : list Node) :
  simple sl = true ->
  removes sl q (pair (B:=Attrs) "html" []) = false ->
  removes sl q (pair (B:=Attrs) "head" []) = false ->
  removes sl q (pair (B:=Attrs) "body" []) = false ->
  Forall (fun e => matches sl e = false) (elements_in q in_body out) ->
  List.filter (matches sl) (scope_elems (parsedFragment q [] out)) = [].
Proof.
  intros Hs Hh Hd Hb Hout. apply filter_none.
  unfold scope_elems, Document_scope, parsedFragment. cbn [quirks roots].
  rewrite elements_in_cons, elements_of_element.
  rewrite elements_in_cons, elements_of_element.
  rewrite elements_in_cons, elements_of_element. cbn [elements_in flat_map app].
  rewrite !app_nil_r.
  repeat (constructor; [by rewrite (matches_removes _ _ Hs) |]).
  exact Hout.
Qed.

(** A selector list with a tag selector selects every element of that
    tag, and one with a class selector every element that has the
    class. *)
Lemma removes_by_tag (sl : SelectorList) q (tag : string) (a : Attrs) :
  [mkCompound (Some tag) None [] []] ∈ sl -> removes sl q (tag, a) = true.
Proof.
  intros Hin. unfold removes, matches_list. apply existsb_exists.
  exists [mkCompound (Some tag) None [] []]. split; [by apply list_elem_of_In |].
  unfold matches_in, matches_compound. cbn. by rewrite String.eqb_refl.
Qed.

Lemma removes_by_class (sl : SelectorList) q (t : string) (a : Attrs)
  (cls : string) :
  [mkCompound None None [cls] []] ∈ sl -> cls ∈ class_list a ->
  removes sl q (t, a) = true.
Proof.
  intros Hin Hcls. unfold removes, matches_list. apply existsb_exists.
  exists [mkCompound None None [cls] []]. split; [by apply list_elem_of_In |].
  unfold matches_in, matches_compound. cbn.
  assert (Hhas : has_class q a cls = true).
  { unfold has_class. apply existsb_exists. exists cls.
    split; [by apply list_elem_of_In |].
    unfold name_eqb. destruct q; apply String.eqb_refl. }
  by rewrite Hhas.
Qed.

(** A name that begins with the letters o and n, in either case, is a
    handler name. *)
Lemma handler_letters (name : string) (c1 c2 : ascii) (rest : string) :
  name = String c1 (String c2 rest) ->
  (c1 = "o" \/ c1 = "O")%char -> (c2 = "n" \/ c2 = "N")%char ->
  isHandlerName name = true.
Proof.
  intros -> [-> | ->] [-> | ->]; unfold isHandlerName;
    cbn [ascii_lowercase]; rewrite !str_prefix_cons; cbn; apply str_prefix_nil.
Qed.


End CleanHtmlContent.

(** The fragment with a script, a handler and a share block. *)
Lemma cleanHtmlContent_sample :
  ClassVariant.cleanHtmlContent Markup.sample
  = ClassVariant.InnerHTML
      [ Dom.Element "p" []
          [ Dom.TextNode "Hello "; Dom.Element "b" [] [Dom.TextNode "world"] ];
        Dom.Element "p" [] [Dom.TextNode "Bye"] ]
  /\ Dom.textContent (ClassVariant.stripElem Markup.hello) = "Hello world".
Proof. split; by vm_compute. Qed.

(** A whole page is not a fragment: when the [body] tag itself carries an
    advertising class the body is removed, [doc.body] is null, and the
    markup comes back as it was given, script included. *)
Lemma cleanHtmlContent_body_removed :
  ClassVariant.cleanHtmlContent Markup.wholePage = ClassVariant.RawHtml
  /\ Dom.querySelectorAll "script" Markup.wholePage <> [].
Proof. split; by vm_compute. Qed.


(* ===================================================================== *)
(** * Further properties of the helpers and of the entry points           *)
(* ===================================================================== *)

(** ** Text normalisation ([cleanText]) *)

Section Normalising.

Lemma collapse_length (b : bool) (s : string) :
  (String.length (JS.collapse_from b s) <= String.length s)%nat.
Proof.
  revert b. induction s as [|c r IH]; intros b; cbn; [done |].
  pose proof (IH true). pose proof (IH false).
  destruct (JS.is_ws c); [destruct b |]; cbn; lia.
Qed.

(** Collapsing what has been collapsed changes nothing, whatever the
    state of the run. *)
Lemma collapse_collapse (s : string) :
  JS.collapse_from false (JS.collapse_from false s) = JS.collapse_from false s
  /\ JS.collapse_from true (JS.collapse_from true s) = JS.collapse_from true s
  /\ JS.collapse_from false (JS.collapse_from true s) = JS.collapse_from true s.
Proof.
  induction s as [|c r (IH1 & IH2 & IH3)]; [done |]. cbn.
  destruct (JS.is_ws c) eqn:Hc; cbn; rewrite ?Hc, ?IH1, ?IH2, ?IH3; done.
Qed.

(** A collapsed string that begins a run is collapsed from its second
    code unit on. *)
Lemma collapsed_tail (c : ascii) (r : string) :
  JS.collapse_from false (String c r) = String c r ->
  JS.collapse_from false r = r
  /\ (JS.is_ws c = true -> JS.collapse_from true r = r).
Proof.
  cbn. destruct (JS.is_ws c) eqn:Hc.
  - intros [= _ Hr]. split; [|done].
    rewrite <- Hr at 1. rewrite (proj2 (proj2 (collapse_collapse r))). done.
  - by intros [= Hr].
Qed.

Lemma collapsed_first (c : ascii) (r : string) :
  JS.collapse_from true (String c r) = String c r ->
  JS.is_ws c = false /\ JS.collapse_from false r = r.
Proof.
  cbn. destruct (JS.is_ws c) eqn:Hc.
  - intros Hr. pose proof (collapse_length true r) as Hl.
    rewrite Hr in Hl. cbn in Hl. lia.
  - by intros [= Hr].
Qed.

Lemma collapsed_trimStart (s : string) :
  JS.collapse_from false s = s ->
  JS.collapse_from false (JS.trimStart s) = JS.trimStart s.
Proof.
  induction s as [|c r IH]; [done |]. intros Hs. cbn [JS.trimStart].
  destruct (JS.is_ws c); [|done]. apply IH. by destruct (collapsed_tail _ _ Hs).
Qed.

Lemma collapsed_trimEnd (s : string) :
  (JS.collapse_from false s = s ->
   JS.collapse_from false (JS.trimEnd s) = JS.trimEnd s)
  /\ (JS.collapse_from true s = s ->
      JS.collapse_from true (JS.trimEnd s) = JS.trimEnd s).
Proof.
  induction s as [|c r [IHf IHt]]; [done |]. rewrite trimEnd_cons. split.
  - intros Hs. destruct (collapsed_tail _ _ Hs) as [Hr Hrun].
    cbn in Hs. destruct (JS.trimEnd r) as [|d r'] eqn:E.
    + destruct (JS.is_ws c) eqn:Hc; [done |]. cbn. by rewrite Hc.
    + cbn [JS.collapse_from]. destruct (JS.is_ws c) eqn:Hc.
      * injection Hs as <- _. f_equal. by apply IHt, Hrun.
      * f_equal. by apply IHf.
  - intros Hs. destruct (collapsed_first _ _ Hs) as [Hc Hr].
    destruct (JS.trimEnd r) as [|d r'] eqn:E.
    + rewrite Hc. cbn. by rewrite Hc.
    + cbn [JS.collapse_from]. rewrite Hc. f_equal. by apply IHf.
Qed.

(** Trimming the start commutes with collapsing. *)
Lemma trimStart_collapse (b : bool) (s : string) :
  JS.trimStart (JS.collapse_from b s) = JS.collapse_from true (JS.trimStart s).
Proof.
  revert b. induction s as [|c r IH]; intros b; [done |]. cbn.
  destruct (JS.is_ws c) eqn:Hc.
  - destruct b; [apply IH |]. cbn. apply IH.
  - cbn. by rewrite Hc.
Qed.

Lemma trimEnd_first (c : ascii) (r : string) :
  JS.is_ws c = false -> JS.trimEnd (String c r) <> EmptyString.
Proof. intros Hc. rewrite trimEnd_cons. destruct (JS.trimEnd r); by rewrite ?Hc. Qed.

(** A string is trimmed to nothing exactly when it is all whitespace. *)
Lemma trim_empty (s : string) :
  JS.trim s = EmptyString <-> JS.trimStart s = EmptyString.
Proof.
  unfold JS.trim. split; [|by intros ->].
  assert (Hst : JS.trimStart s = EmptyString
                \/ exists c r, JS.trimStart s = String c r /\ JS.is_ws c = false).
  { induction s as [|c r IH]; [by left |]. cbn.
    destruct (JS.is_ws c) eqn:Hc; [done |]. right. by exists c, r. }
  destruct Hst as [-> | (c & r & -> & Hc)]; [done |].
  intros He. by apply trimEnd_first in He.
Qed.

(** X1: what [cleanText] returns is normalised: it has no whitespace at
    either end, every run of whitespace in it is a single space, and,
    when it is not empty, [cleanText] returns it unchanged. *)
Theorem cleanText_normalised (t : option string) (s : string) :
  Runtime.cleanText t = Some s ->
  JS.trim s = s
  /\ JS.collapse_ws s = s
  /\ (s <> EmptyString -> Runtime.cleanText (Some s) = Some s).
Proof.
  destruct t as [[|c r]|]; [done | | done]. intros [= <-].
  set (s := JS.trim (JS.collapse_ws (String c r))).
  assert (Ht : JS.trim s = s) by apply trim_idem.
  assert (Hc : JS.collapse_ws s = s).
  { unfold s, JS.trim, JS.collapse_ws.
    apply collapsed_trimEnd, collapsed_trimStart, collapse_collapse. }
  split; [done |]. split; [done |].
  intros Hne. destruct s as [|d s'] eqn:E; [done |].
  unfold Runtime.cleanText. by rewrite Hc, Ht.
Qed.

Lemma cleanText_normalised_witness :
  Runtime.cleanText (Some "  The   Lost  Crown ") = Some "The Lost Crown"
  /\ (JS.trim "The Lost Crown" = "The Lost Crown"
      /\ JS.collapse_ws "The Lost Crown" = "The Lost Crown"
      /\ ("The Lost Crown" <> EmptyString ->
          Runtime.cleanText (Some "The Lost Crown") = Some "The Lost Crown")).
Proof.
  split; [by vm_compute |].
  apply (cleanText_normalised (Some "  The   Lost  Crown ")). by vm_compute.
Defined.

(** X2: the null test of [cleanText] comes before the trimming: the
    result is the empty string, not null, exactly on a non-empty text
    of whitespace only. *)
Theorem cleanText_blank (t : option string) :
  Runtime.cleanText t = Some EmptyString <-> JS.blank t.
Proof.
  split.
  - destruct t as [[|c r]|]; [done | | done]. intros [= He].
    exists (String c r). split; [done |]. split; [done |].
    apply trim_empty. apply trim_empty in He.
    unfold JS.collapse_ws in He. rewrite trimStart_collapse in He.
    destruct (JS.trimStart (String c r)) as [|d x] eqn:E; [done |].
    exfalso. assert (Hd : JS.is_ws d = false).
    { clear He. revert E. generalize (String c r). intros y.
      induction y as [|e y IH]; [done |]. cbn.
      destruct (JS.is_ws e) eqn:He; [done |]. by intros [= <- _]. }
    cbn in He. by rewrite Hd in He.
  - intros (s & -> & Hne & Hs). destruct s as [|c r]; [done |].
    unfold Runtime.cleanText. f_equal. apply trim_empty.
    unfold JS.collapse_ws. rewrite trimStart_collapse.
    apply trim_empty in Hs. by rewrite Hs.
Qed.

End Normalising.

(** ** The status classifier and letter case *)

Section CaseFolding.

Lemma lower_char_idem (c : ascii) :
  JS.lower_char (JS.lower_char c) = JS.lower_char c.
Proof. destruct c as [[] [] [] [] [] [] [] []]; by vm_compute. Qed.

Lemma toLowerCase_idem (s : string) :
  JS.toLowerCase (JS.toLowerCase s) = JS.toLowerCase s.
Proof. induction s as [|c r IH]; cbn; [done |]. by rewrite lower_char_idem, IH. Qed.

(** X4: the classifier reads its text through [toLowerCase] only: two
    labels that differ in letter case alone get the same code. *)
Theorem mapStatusToInt_case_insensitive (s t : string) :
  JS.toLowerCase s = JS.toLowerCase t ->
  Runtime.mapStatusToInt (Some s) = Runtime.mapStatusToInt (Some t).
Proof.
  intros Hst. destruct s as [|c r], t as [|d x]; try done.
  unfold Runtime.mapStatusToInt. by rewrite Hst.
Qed.

Lemma mapStatusToInt_case_insensitive_witness :
  JS.toLowerCase "On HIATUS" = JS.toLowerCase "on hiatus"
  /\ Runtime.mapStatusToInt (Some "On HIATUS") = 2
  /\ Runtime.mapStatusToInt (Some "On HIATUS")
     = Runtime.mapStatusToInt (Some "on hiatus").
Proof.
  split; [by vm_compute |]. split; [by vm_compute |].
  apply (mapStatusToInt_case_insensitive "On HIATUS" "on hiatus").
  by vm_compute.
Defined.

End CaseFolding.

(** ** Image addresses ([fixImageUrl]) *)

Section ImageAddresses.

Context `{Url.Api}.
Import Url.

Local Notation "a ++ b" := (String.append a b).

Lemma trimEnd_nonws (c : ascii) (x : string) :
  JS.is_ws c = false -> JS.trimEnd (String c x) = String c (JS.trimEnd x).
Proof. intros Hc. rewrite trimEnd_cons. destruct (JS.trimEnd x); by rewrite ?Hc. Qed.

Lemma trimEnd_no_slash (x : string) :
  JS.startsWith x "/" = false -> JS.startsWith (JS.trimEnd x) "/" = false.
Proof.
  unfold JS.startsWith. destruct x as [|c r]; [done |]. rewrite trimEnd_cons.
  destruct (JS.trimEnd r) as [|d r'] eqn:E.
  - destruct (JS.is_ws c); [done |]. rewrite !str_prefix_cons, !str_prefix_nil.
    by destruct (ascii_dec "/" c).
  - rewrite !str_prefix_cons, !str_prefix_nil. by destruct (ascii_dec "/" c).
Qed.

Lemma drop_slashes_trimEnd (r : string) :
  Text.drop_while (Ascii.eqb "/") (JS.trimEnd r)
  = JS.trimEnd (Text.drop_while (Ascii.eqb "/") r).
Proof.
  induction r as [|c r IH]; [done |]. cbn [Text.drop_while].
  destruct (Ascii.eqb "/" c) eqn:Hc.
  - apply Ascii.eqb_eq in Hc as <-. rewrite trimEnd_nonws by done. exact IH.
  - rewrite trimEnd_cons. destruct (JS.trimEnd r); [destruct (JS.is_ws c) |];
      cbn [Text.drop_while]; by rewrite ?Hc.
Qed.

Lemma str_prefix_same (a : ascii) (p s : string) :
  String.prefix (String a p) (String a s) = String.prefix p s.
Proof. rewrite str_prefix_cons. by destruct (ascii_dec a a). Qed.

Lemma str_prefix_other (a c : ascii) (p s : string) :
  a <> c -> String.prefix (String a p) (String c s) = false.
Proof. intros Hac. rewrite str_prefix_cons. by destruct (ascii_dec a c). Qed.

(** Decide the [startsWith] tests on strings whose first code units are
    known. *)
Ltac starts :=
  unfold JS.startsWith;
  repeat (progress (repeat first [ rewrite str_prefix_nil
                                 | rewrite str_prefix_same
                                 | rewrite str_prefix_other by done ];
                    cbv iota; cbn [String.append])).

(** X5: an address without a protocol is read as an https address.  The
    runtime implementation puts the scheme before the two slashes; the
    class-based one replaces the whole run of leading slashes. *)
Theorem fixImageUrl_protocol_less (rest : string) :
  Runtime.fixImageUrl (Some ("//" ++ rest))
  = Runtime.fixImageUrl (Some ("https://" ++ rest))
  /\ ClassVariant.fixImageUrl (Some ("//" ++ rest))
     = ClassVariant.fixImageUrl
         (Some ("https://" ++ Text.drop_while (Ascii.eqb "/") rest)).
Proof.
  split.
  - cbn [String.append]. rewrite !runtime_fixImageUrl_unfold. cbv zeta.
    unfold JS.trim. rewrite !trimStart_fixed by done.
    rewrite !trimEnd_nonws by done. starts. done.
  - cbn [String.append]. rewrite !class_fixImageUrl_unfold. cbv zeta.
    unfold JS.trim. rewrite !trimStart_fixed by done.
    rewrite !trimEnd_nonws by done.
    unfold Text.replace_leading_slashes. starts.
    cbn [Text.drop_while Ascii.eqb Bool.eqb]. rewrite drop_slashes_trimEnd.
    starts. done.
Qed.

(** X6: an address that begins with one slash is read as a path on the
    site, by both implementations. *)
Theorem fixImageUrl_site_relative (x : string) :
  JS.startsWith x "/" = false ->
  Runtime.fixImageUrl (Some ("/" ++ x))
  = Runtime.fixImageUrl (Some ("https://allnovel.org/" ++ x))
  /\ ClassVariant.fixImageUrl (Some ("/" ++ x))
     = ClassVariant.fixImageUrl (Some ("https://allnovel.org/" ++ x)).
Proof.
  intros Hx. apply trimEnd_no_slash in Hx. unfold JS.startsWith in Hx. split.
  - cbn [String.append]. rewrite !runtime_fixImageUrl_unfold. cbv zeta.
    unfold JS.trim. rewrite !trimStart_fixed by done.
    rewrite !trimEnd_nonws by done. starts. rewrite Hx. starts. done.
  - cbn [String.append]. rewrite !class_fixImageUrl_unfold. cbv zeta.
    unfold JS.trim. rewrite !trimStart_fixed by done.
    rewrite !trimEnd_nonws by done.
    unfold Text.replace_leading_slashes. starts. rewrite Hx. starts. done.
Qed.

End ImageAddresses.

Lemma fixImageUrl_site_relative_witness :
  JS.startsWith "covers/a.png " "/" = false
  /\ (Runtime.fixImageUrl (Some (String.append "/" "covers/a.png "))
      = Runtime.fixImageUrl (Some (String.append "https://allnovel.org/" "covers/a.png "))
      /\ ClassVariant.fixImageUrl (Some (String.append "/" "covers/a.png "))
         = ClassVariant.fixImageUrl
             (Some (String.append "https://allnovel.org/" "covers/a.png ")))
  /\ Runtime.fixImageUrl (Some "/covers/a.png ")
     = Some "https://allnovel.org/covers/a.png".
Proof.
  split; [by vm_compute |]. split; [|by vm_compute].
  apply (@fixImageUrl_site_relative RefUrl.api "covers/a.png "). by vm_compute.
Defined.

Section QueryBound.

Context `{Url.Laws}.
Import Url.

(** X7: what [fixImageUrl] returns never parses to a URL with a long
    query: at most 80 code units of [search] in the runtime
    implementation, at most 40 of [searchParams] in the class-based
    one. *)
Theorem fixImageUrl_query_bound (raw : option string) (out : string)
  (u : URLObject) :
  URL_new out None = Some u ->
  (Runtime.fixImageUrl raw = Some out ->
   (String.length (search u) <= 80)%nat)
  /\ (ClassVariant.fixImageUrl raw = Some out ->
      (String.length (searchParams u) <= 40)%nat).
Proof.
  intros Hu. split; intros Hfix; destruct raw as [[|c r]|]; try done.
  - rewrite runtime_fixImageUrl_unfold in Hfix. cbv zeta in Hfix.
    match type of Hfix with
    | context [URL_new ?x None] => destruct (URL_new x None) as [p|] eqn:Hp
    end; [|injection Hfix as <-; discriminate (eq_trans (eq_sym Hu) Hp)].
    destruct (JS.truthy (Some (search p)) && _) eqn:Hq; injection Hfix as <-.
    + rewrite (url_reparse_cleared _ _ _ Hp) in Hu. injection Hu as <-.
      destruct (url_cleared _ _ _ Hp) as [-> _]. cbn. lia.
    + rewrite (url_reparse _ _ _ Hp) in Hu. injection Hu as <-.
      destruct (search p) as [|a q]; [cbn; lia |].
      cbn [JS.truthy andb] in Hq. by apply Nat.ltb_ge in Hq.
  - rewrite class_fixImageUrl_unfold in Hfix. cbv zeta in Hfix.
    match type of Hfix with
    | context [URL_new ?x None] => destruct (URL_new x None) as [p|] eqn:Hp
    end; [|injection Hfix as <-; discriminate (eq_trans (eq_sym Hu) Hp)].
    destruct (40 <? String.length (searchParams p))%nat eqn:Hq;
      injection Hfix as <-.
    + rewrite (url_reparse_cleared _ _ _ Hp) in Hu. injection Hu as <-.
      destruct (url_cleared _ _ _ Hp) as [_ ->]. cbn. lia.
    + rewrite (url_reparse _ _ _ Hp) in Hu. injection Hu as <-.
      by apply Nat.ltb_ge in Hq.
Qed.

End QueryBound.

(** An image address with a token of 90 code units. *)
Lemma fixImageUrl_query_bound_witness :
  let raw := Some (String.append "https://cdn.example.com/a.png?token="
                                 (Pages.repeat_char "a" 90)) in
  let u := Url.mkURL "https://cdn.example.com/a.png" EmptyString EmptyString
                     "https://cdn.example.com" in
  RefUrl.resolve "https://cdn.example.com/a.png" None = Some u
  /\ Runtime.fixImageUrl raw = Some "https://cdn.example.com/a.png"
  /\ ClassVariant.fixImageUrl raw = Some "https://cdn.example.com/a.png"
  /\ ((Runtime.fixImageUrl raw = Some "https://cdn.example.com/a.png" ->
       (String.length (Url.search u) <= 80)%nat)
      /\ (ClassVariant.fixImageUrl raw = Some "https://cdn.example.com/a.png" ->
          (String.length (Url.searchParams u) <= 40)%nat)).
Proof.
  split; [by vm_compute |]. split; [by vm_compute |]. split; [by vm_compute |].
  apply (@fixImageUrl_query_bound RefUrl.api reference_laws). by vm_compute.
Defined.

(** ** Listings: the entries *)

Section ListingEntries.

Import Dom Async.
Context `{Url.Api}.

Lemma cleanText_trimmed (t : option string) (s : string) :
  Runtime.cleanText t = Some s -> JS.trim s = s.
Proof.
  destruct t as [[|c r]|]; [done | | done]. intros [= <-]. apply trim_idem.
Qed.

(** An entry read from a container has the address as [url] and as
    [link], and a name that [cleanText] produced; neither is empty. *)
Lemma runtime_listItem_entry (node : Elem) (it : Runtime.Item) :
  Runtime.listItem node = Some it ->
  Runtime.link it = Runtime.url it
  /\ Runtime.url it <> EmptyString
  /\ Runtime.name it <> EmptyString
  /\ JS.trim (Runtime.name it) = Runtime.name it.
Proof.
  unfold Runtime.listItem. cbv zeta.
  match goal with
  | |- match ?u with _ => _ end = _ -> _ => destruct u as [[|c url]|]; try done
  end.
  match goal with
  | |- match ?n with _ => _ end = _ -> _ =>
      destruct n as [[|d name]|] eqn:Hname; try done
  end.
  intros [= <-]. cbn [Runtime.link Runtime.url Runtime.name].
  split; [done |]. split; [done |]. split; [done |].
  revert Hname. repeat case_match; intros Hn;
    first [ done | exact (cleanText_trimmed _ _ Hn) ].
Qed.

Lemma runtime_scanCandidates_entries (P : Runtime.Item -> Prop)
  (document : Document) (sels : list string) (out : list Runtime.Item) :
  (forall node it, Runtime.listItem node = Some it -> P it) ->
  Forall P out -> Forall P (Runtime.scanCandidates document sels out).
Proof.
  intros HP. revert out. induction sels as [|sel rest IH]; intros out Hout; [done |].
  cbn [Runtime.scanCandidates]. destruct (Runtime.select sel document) as [|n ns] eqn:E.
  - by apply IH.
  - assert (Hall : Forall P (out ++ omap Runtime.listItem (n :: ns))).
    { apply Forall_app. split; [done |]. apply Forall_forall. intros it Hit.
      apply list_elem_of_omap in Hit as (node & _ & Hit). by eapply HP. }
    destruct (out ++ omap Runtime.listItem (n :: ns)); [by apply IH | done].
Qed.

Lemma runtime_scanAnchors_entries (seen : gset string) (anchors : list Elem) :
  Forall (fun it => Runtime.link it = Runtime.url it
                    /\ Runtime.url it <> EmptyString
                    /\ Runtime.name it <> EmptyString
                    /\ JS.trim (Runtime.name it) = Runtime.name it)
         (Runtime.scanAnchors seen anchors).
Proof.
  revert seen.
  induction anchors as [|a rest IH]; intros seen; cbn [Runtime.scanAnchors]; [done |].
  destruct (Runtime.toAbsolute (Runtime.attr "href" a)) as [[|c href]|];
    try apply IH.
  destruct (Runtime.cleanText (Some (Runtime.text a))) as [[|c' txt]|] eqn:Ht;
    try apply IH.
  case_bool_decide; [apply IH |]. constructor; [|apply IH].
  cbn [Runtime.link Runtime.url Runtime.name].
  split; [done |]. split; [done |]. split; [done |].
  exact (cleanText_trimmed _ _ Ht).
Qed.

(** X8: every entry of a runtime listing page is well formed: [link] is
    the [url], neither the address nor the name is empty, and the name
    has no whitespace around it. *)
Theorem runtime_parseListFromDoc_entries (document : Document) :
  Forall (fun it => Runtime.link it = Runtime.url it
                    /\ Runtime.url it <> EmptyString
                    /\ Runtime.name it <> EmptyString
                    /\ JS.trim (Runtime.name it) = Runtime.name it)
         (Runtime.parseListFromDoc document).
Proof.
  unfold Runtime.parseListFromDoc.
  pose proof (runtime_scanCandidates_entries _ document Runtime.candidates []
                runtime_listItem_entry (Forall_nil_2 _)) as Hc.
  destruct (Runtime.scanCandidates document Runtime.candidates []);
    [apply runtime_scanAnchors_entries | done].
Qed.

(** X9: the anchor fallback of the runtime listing is used only when the
    containers gave nothing, and it names no address twice. *)
Theorem runtime_anchor_fallback_no_duplicates (document : Document) :
  Runtime.parseListFromDoc document
  = Runtime.scanCandidates document Runtime.candidates []
  \/ (Runtime.scanCandidates document Runtime.candidates [] = []
      /\ NoDup (map Runtime.url (Runtime.parseListFromDoc document))).
Proof.
  unfold Runtime.parseListFromDoc.
  destruct (Runtime.scanCandidates document Runtime.candidates []); [|by left].
  right. split; [done |]. apply runtime_scanAnchors_fresh.
Qed.

(** X10: a runtime listing is empty only when every candidate address
    has been requested: a page without entries counts as a failed
    candidate, and the empty listing announces no next page. *)
Theorem runtime_listing_empty_last (page : Z) (net : Net) :
  (exists r t,
     Runtime.getPopular page net = (Ok r, t)
     /\ (Runtime.list_ r = [] ->
         Runtime.hasNextPage r = false
         /\ t = map Some (Runtime.popularCandidates page)))
  /\ (exists r t,
        Runtime.getLatestUpdates page net = (Ok r, t)
        /\ (Runtime.list_ r = [] ->
            Runtime.hasNextPage r = false
            /\ t = map Some (Runtime.latestCandidates page))).
Proof.
  split.
  - destruct (runtime_firstListing_run net (Runtime.popularCandidates page))
      as (r & t & Hrun & _ & _ & Hempty).
    exists r, t. split; [done |]. intros Hr. by destruct (Hempty Hr) as [-> ->].
  - destruct (runtime_firstListing_run net (Runtime.latestCandidates page))
      as (r & t & Hrun & _ & _ & Hempty).
    exists r, t. split; [done |]. intros Hr. by destruct (Hempty Hr) as [-> ->].
Qed.

Lemma class_dedupe_Forall (P : ClassVariant.Item -> Prop) (seen : gset string)
  (items : list ClassVariant.Item) :
  Forall P items -> Forall P (ClassVariant.dedupe seen items).
Proof.
  revert seen. induction items as [|it rest IH]; intros seen Hall; [done |].
  apply Forall_cons in Hall as [Hit Hrest]. cbn.
  case_bool_decide; [by apply IH |]. constructor; [done | by apply IH].
Qed.

(** The document the candidate loop ends with is the one it began with
    or one that a candidate address served. *)
Lemma class_fetchCandidates_served (probe : string) (net : Net)
  (cands : list string) (doc : option Document) (d : Document) t :
  ClassVariant.fetchCandidates probe cands doc net = (Ok (Some d), t) ->
  doc = Some d \/ exists u, u ∈ cands /\ net (Some u) = Some d.
Proof.
  revert doc t. induction cands as [|u rest IH]; intros doc t.
  - cbn. intros [= -> _]. by left.
  - cbn [ClassVariant.fetchCandidates].
    rewrite (run_bind_ok _ _ _ _ _ (run_guarded_fetch net u)).
    destruct (net (Some u)) as [d'|] eqn:Hu.
    + destruct (bool_decide _).
      * cbn. intros [= -> _]. right. exists u. split; [by left | done].
      * destruct (ClassVariant.fetchCandidates probe rest (Some d') net)
          as [r t'] eqn:Hrun.
        cbn. intros [= -> _]. destruct (IH _ _ Hrun) as [[= ->] | (u' & Hu' & Hd)].
        -- right. exists u. split; [by left | done].
        -- right. exists u'. split; [by right | done].
    + destruct (ClassVariant.fetchCandidates probe rest doc net)
        as [r t'] eqn:Hrun.
      cbn. intros [= -> _]. destruct (IH _ _ Hrun) as [-> | (u' & Hu' & Hd)].
      -- by left.
      -- right. exists u'. split; [by right | done].
Qed.

Lemma class_popularItem_entry (el : Elem) (it : ClassVariant.Item) :
  ClassVariant.popularItem el = Some it ->
  ClassVariant.url it <> EmptyString
  /\ ClassVariant.name it <> EmptyString
  /\ JS.trim (ClassVariant.name it) = ClassVariant.name it.
Proof.
  unfold ClassVariant.popularItem. cbv zeta.
  destruct (querySelector "h2 a, .entry-title a, a" el) as [a|]; [|done].
  destruct (ClassVariant.toAbsolute _) as [url|]; [|done].
  destruct (JS.truthy (Some url) && JS.truthy (Some _)) eqn:Ht; [|done].
  apply andb_true_iff in Ht as [Hu Hn]. intros [= <-].
  cbn [ClassVariant.url ClassVariant.name].
  split; [by destruct url |]. split; [by destruct (JS.trim _) |]. apply trim_idem.
Qed.

(** X11: the listing of the class-based [getPopular] holds, in the
    order of the page, the first entry of every address: no address
    twice, and every entry with an address and a trimmed name that are
    not empty. *)
Theorem class_getPopular_entries (page : Z) (net : Net) (r : ClassVariant.Listing) :
  outcome (ClassVariant.getPopular page net) = Ok r ->
  NoDup (map ClassVariant.url (ClassVariant.results r))
  /\ Forall (fun it => ClassVariant.url it <> EmptyString
                       /\ ClassVariant.name it <> EmptyString
                       /\ JS.trim (ClassVariant.name it) = ClassVariant.name it)
            (ClassVariant.results r)
  /\ exists u doc,
       u ∈ ClassVariant.popularCandidates page
       /\ net (Some u) = Some doc
       /\ ClassVariant.results r
          `sublist_of` omap ClassVariant.popularItem
                         (querySelectorAll ".post, article, .novel-item, .entry" doc).
Proof.
  unfold ClassVariant.getPopular.
  destruct (class_fetchCandidates_run "article, .post, .novel-item, .entry" net
              (ClassVariant.popularCandidates page) None)
    as [d [t [Hrun _]]].
  rewrite (run_bind_ok _ _ _ _ _ Hrun). destruct d as [doc|]; [|done].
  apply class_fetchCandidates_served in Hrun as [[=] | (u & Hu & Hdoc)].
  cbn. intros [= <-]. cbn [ClassVariant.results].
  split; [apply class_dedupe_fresh |]. split.
  - apply class_dedupe_Forall, Forall_forall. intros it Hit.
    apply list_elem_of_omap in Hit as (el & _ & Hit).
    by eapply class_popularItem_entry.
  - exists u, doc. split; [done |]. split; [done |]. apply class_dedupe_sublist.
Qed.

End ListingEntries.

Lemma class_getPopular_entries_witness :
  exists r,
    Async.outcome (ClassVariant.getPopular 1
                     (Pages.serving Listings.popularUrl Listings.popularTwice))
    = Async.Ok r
    /\ map ClassVariant.name (ClassVariant.results r) = ["A Tale"; "B Tale"]
    /\ (NoDup (map ClassVariant.url (ClassVariant.results r))
        /\ Forall (fun it => ClassVariant.url it <> EmptyString
                             /\ ClassVariant.name it <> EmptyString
                             /\ JS.trim (ClassVariant.name it) = ClassVariant.name it)
                  (ClassVariant.results r)
        /\ exists u doc,
             u ∈ ClassVariant.popularCandidates 1
             /\ Pages.serving Listings.popularUrl Listings.popularTwice (Some u)
                = Some doc
             /\ ClassVariant.results r
                `sublist_of` omap ClassVariant.popularItem
                               (Dom.querySelectorAll
                                  ".post, article, .novel-item, .entry" doc)).
Proof.
  eexists. split; [by vm_compute |]. split; [by vm_compute |].
  apply (@class_getPopular_entries RefUrl.api 1
           (Pages.serving Listings.popularUrl Listings.popularTwice)).
  by vm_compute.
Defined.

(** ** The search address and percent-encoding *)

Section Encoding.

Import Dom Async.
Context `{Url.Api}.

Local Notation "a ++ b" := (String.append a b).

Lemma encodeURIComponent_app (a b : string) :
  Text.encodeURIComponent (a ++ b)
  = Text.encodeURIComponent a ++ Text.encodeURIComponent b.
Proof.
  induction a as [|c a IH]; [done |].
  rewrite str_append_cons. cbn [Text.encodeURIComponent].
  by rewrite IH, str_append_assoc.
Qed.

(** The code units that [encodeURIComponent] writes are the unreserved
    ones and the percent sign of an escape. *)
Lemma encodeURIComponent_unit (c : ascii) :
  RefUrl.all_chars (fun x => Text.uri_unreserved x || Ascii.eqb x "%")
    (Text.encodeURIComponent (String c EmptyString)) = true.
Proof. destruct c as [[] [] [] [] [] [] [] []]; by vm_compute. Qed.

Lemma encodeURIComponent_safe (s : string) :
  RefUrl.all_chars (fun x => Text.uri_unreserved x || Ascii.eqb x "%")
    (Text.encodeURIComponent s) = true.
Proof.
  induction s as [|c r IH]; [done |].
  change (String c r) with (String c EmptyString ++ r).
  rewrite encodeURIComponent_app, all_chars_app, IH, encodeURIComponent_unit. done.
Qed.

Lemma hex_digit_safe (d : nat) :
  (d < 16)%nat -> Text.uri_unreserved (Text.hex_digit d) = true.
Proof.
  intros Hd. do 16 (destruct d as [|d]; [by vm_compute |]). lia.
Qed.

Lemma percent_safe (k : nat) :
  (k < 256)%nat ->
  RefUrl.all_chars (fun x => Text.uri_unreserved x || Ascii.eqb x "%")
    (Text.percent k) = true.
Proof.
  intros Hk. unfold Text.percent. cbn [RefUrl.all_chars].
  assert (k mod 16 < 16)%nat by (apply Nat.mod_upper_bound; lia).
  assert (k / 16 < 16)%nat by (apply Nat.Div0.div_lt_upper_bound; lia).
  by rewrite !hex_digit_safe by lia.
Qed.

Lemma utf8_safe (cp : N) :
  (cp < 2097152)%N ->
  RefUrl.all_chars (fun x => Text.uri_unreserved x || Ascii.eqb x "%")
    (Text.utf8 cp) = true.
Proof.
  intros Hcp. unfold Text.utf8. cbv zeta.
  pose proof (N.mod_upper_bound cp 64 ltac:(lia)).
  pose proof (N.mod_upper_bound (cp / 64) 64 ltac:(lia)).
  pose proof (N.mod_upper_bound (cp / 4096) 64 ltac:(lia)).
  destruct (cp <? 128)%N eqn:Hc1; [apply percent_safe; apply N.ltb_lt in Hc1; lia |].
  destruct (cp <? 2048)%N eqn:Hc2.
  { apply N.ltb_lt in Hc2.
    assert (cp / 64 < 32)%N by (apply N.Div0.div_lt_upper_bound; lia).
    by rewrite all_chars_app, !percent_safe by lia. }
  destruct (cp <? 65536)%N eqn:Hc3.
  { apply N.ltb_lt in Hc3.
    assert (cp / 4096 < 16)%N by (apply N.Div0.div_lt_upper_bound; lia).
    by rewrite !all_chars_app, !percent_safe by lia. }
  assert (cp / 262144 < 8)%N by (apply N.Div0.div_lt_upper_bound; lia).
  by rewrite !all_chars_app, !percent_safe by lia.
Qed.

Lemma code_bound (u : JS.CodeUnit) : (JS.code u < 65536)%N.
Proof.
  unfold JS.code.
  pose proof (N_ascii_bounded u.1). pose proof (N_ascii_bounded u.2). lia.
Qed.

(** What [encodeURIComponent] returns consists of unreserved code units
    and percent escapes. *)
Lemma encodeURIComponent16_safe (s : JS.ustring) (e : string) :
  Text.encodeURIComponent16 s = Some e ->
  RefUrl.all_chars (fun x => Text.uri_unreserved x || Ascii.eqb x "%") e = true.
Proof.
  revert e.
  assert (Hboth : (forall e, Text.encodeURIComponent16 s = Some e ->
                     RefUrl.all_chars (fun x => Text.uri_unreserved x || Ascii.eqb x "%")
                       e = true)
                  /\ (forall u e, Text.encodeURIComponent16 (u :: s) = Some e ->
                        RefUrl.all_chars
                          (fun x => Text.uri_unreserved x || Ascii.eqb x "%") e = true)).
  { induction s as [|v s [IH1 IH2]].
    - split; [by intros e [= <-] |]. intros u e. cbn [Text.encodeURIComponent16].
      cbv zeta. destruct (_ && Text.uri_unreserved _) eqn:Hun.
      + apply andb_true_iff in Hun as [_ Hun]. intros [= <-].
        cbn [RefUrl.all_chars]. by rewrite Hun.
      + destruct (JS.is_low _); [done |]. destruct (JS.is_high _); [done |].
        intros [= <-]. rewrite str_append_nil_r. apply utf8_safe.
        pose proof (code_bound u). lia.
    - split; [apply IH2 |]. intros u e.
      change (Text.encodeURIComponent16 (u :: v :: s))
        with (let n := JS.code u in
              if (n <? 128)%N && Text.uri_unreserved (ascii_of_N n)
              then String (ascii_of_N n) <$> Text.encodeURIComponent16 (v :: s)
              else if JS.is_low n then None
              else if JS.is_high n then
                if JS.is_low (JS.code v)
                then String.append
                       (Text.utf8 (65536 + (n - 55296) * 1024 + (JS.code v - 56320))%N)
                     <$> Text.encodeURIComponent16 s
                else None
              else String.append (Text.utf8 n) <$> Text.encodeURIComponent16 (v :: s)).
      cbv zeta. destruct (_ && Text.uri_unreserved _) eqn:Hun.
      + apply andb_true_iff in Hun as [_ Hun].
        destruct (Text.encodeURIComponent16 (v :: s)) as [e'|] eqn:He'; [|done].
        intros [= <-]. cbn [RefUrl.all_chars]. by rewrite Hun, (IH2 v e' He').
      + destruct (JS.is_low (JS.code u)); [done |].
        destruct (JS.is_high (JS.code u)) eqn:Hhi.
        * destruct (JS.is_low (JS.code v)) eqn:Hlo; [|done].
          destruct (Text.encodeURIComponent16 s) as [e'|] eqn:He'; [|done].
          intros [= <-]. rewrite all_chars_app, (IH1 e' eq_refl), utf8_safe; [done |].
          unfold JS.is_high, JS.is_low in Hhi, Hlo.
          apply andb_true_iff in Hhi as [_ Hhi%N.leb_le].
          apply andb_true_iff in Hlo as [_ Hlo%N.leb_le]. lia.
        * destruct (Text.encodeURIComponent16 (v :: s)) as [e'|] eqn:He'; [|done].
          intros [= <-]. rewrite all_chars_app, (IH2 v e' He'), utf8_safe; [done |].
          pose proof (code_bound u). lia. }
  apply Hboth.
Qed.

(** [encodeURIComponent] throws exactly on a string that is not well
    formed. *)
Lemma encodeURIComponent16_wellFormed (s : JS.ustring) :
  is_Some (Text.encodeURIComponent16 s) <-> JS.isWellFormed s = true.
Proof.
  assert (Hboth : (is_Some (Text.encodeURIComponent16 s) <-> JS.isWellFormed s = true)
                  /\ (forall u, is_Some (Text.encodeURIComponent16 (u :: s))
                                <-> JS.isWellFormed (u :: s) = true)).
  { assert (Hascii : forall n, (n <? 128)%N = true ->
                       JS.is_low n = false /\ JS.is_high n = false).
    { intros n Hn%N.ltb_lt. unfold JS.is_low, JS.is_high. split;
        apply andb_false_iff; left; apply N.leb_gt; lia. }
    induction s as [|v s [IH1 IH2]].
    - split; [done |]. intros u. cbn [Text.encodeURIComponent16 JS.isWellFormed].
      cbv zeta. destruct (_ && Text.uri_unreserved _) eqn:Hun.
      + apply andb_true_iff in Hun as [Hn _]. destruct (Hascii _ Hn) as [-> ->].
        by cbn.
      + destruct (JS.is_low _); [by split; [intros [? ?] |] |].
        destruct (JS.is_high _); [by split; [intros [? ?] |] |]. by cbn.
    - split; [apply IH2 |]. intros u.
      change (Text.encodeURIComponent16 (u :: v :: s))
        with (let n := JS.code u in
              if (n <? 128)%N && Text.uri_unreserved (ascii_of_N n)
              then String (ascii_of_N n) <$> Text.encodeURIComponent16 (v :: s)
              else if JS.is_low n then None
              else if JS.is_high n then
                if JS.is_low (JS.code v)
                then String.append
                       (Text.utf8 (65536 + (n - 55296) * 1024 + (JS.code v - 56320))%N)
                     <$> Text.encodeURIComponent16 s
                else None
              else String.append (Text.utf8 n) <$> Text.encodeURIComponent16 (v :: s)).
      change (JS.isWellFormed (u :: v :: s))
        with (if JS.is_low (JS.code u) then false
              else if JS.is_high (JS.code u)
                   then JS.is_low (JS.code v) && JS.isWellFormed s
                   else JS.isWellFormed (v :: s)).
      cbv zeta. destruct (_ && Text.uri_unreserved _) eqn:Hun.
      + apply andb_true_iff in Hun as [Hn _]. destruct (Hascii _ Hn) as [-> ->].
        rewrite <- (IH2 v). by rewrite fmap_is_Some.
      + destruct (JS.is_low (JS.code u)); [by split; [intros [? ?] |] |].
        destruct (JS.is_high (JS.code u)).
        * destruct (JS.is_low (JS.code v)); [|by split; [intros [? ?] |]].
          cbn [andb]. rewrite <- IH1. by rewrite fmap_is_Some.
        * rewrite <- (IH2 v). by rewrite fmap_is_Some. }
  apply Hboth.
Qed.

(** On Latin-1 text the two encoders agree. *)
Lemma encodeURIComponent16_widen (s : string) :
  Text.encodeURIComponent16 (JS.widen s) = Some (Text.encodeURIComponent s).
Proof.
  induction s as [|c r IH]; [done |].
  change (JS.widen (String c r)) with ((Ascii.zero, c) :: JS.widen r).
  cbn [Text.encodeURIComponent16 Text.encodeURIComponent]. rewrite IH. clear IH.
  generalize (Text.encodeURIComponent r). intros e.
  destruct c as [[] [] [] [] [] [] [] []]; by vm_compute.
Qed.

(** X12: [search] of the runtime implementation builds its address
    before its [try]: on a query with a surrogate that is not one of a
    pair, [encodeURIComponent] throws and the URIError reaches the
    caller with nothing requested.  On every other query, Latin-1 text
    included, it requests one address, the site's search page with the
    query percent-encoded, so that no code unit of the query can end
    the parameter or begin another; it does not throw, and gives the
    empty listing when the fetch fails. *)
Theorem runtime_search_request (query : JS.ustring) (page : Z) (net : Net) :
  (forall text, Text.encodeURIComponent16 (JS.widen text)
                = Some (Text.encodeURIComponent text))
  /\ match Text.encodeURIComponent16 query with
     | None =>
         JS.isWellFormed query = false
         /\ Runtime.search query page net = (Throw URIError, [])
     | Some encoded =>
         let url := "https://allnovel.org/?s=" ++ encoded ++ "&paged="
                    ++ pretty page in
         JS.isWellFormed query = true
         /\ RefUrl.all_chars (fun x => Text.uri_unreserved x || Ascii.eqb x "%")
              encoded = true
         /\ requested (Runtime.search query page net) = [Some url]
         /\ match net (Some url) with
            | Some document =>
                outcome (Runtime.search query page net)
                = Ok (Runtime.mkListing (Runtime.parseListFromDoc document)
                                        (Runtime.hasNext document))
            | None =>
                outcome (Runtime.search query page net) = Ok Runtime.empty_listing
            end
     end.
Proof.
  split; [apply encodeURIComponent16_widen |].
  pose proof (encodeURIComponent16_wellFormed query) as Hwf.
  unfold Runtime.search.
  destruct (Text.encodeURIComponent16 query) as [encoded|] eqn:Henc.
  - cbv zeta. split; [by apply Hwf |].
    split; [by apply (encodeURIComponent16_safe query) |].
    unfold try_catch, mbind, IO_bind, bind, fetch, mret, IO_ret, ret.
    change (Runtime.BASE ++ "/?s=" ++ encoded ++ "&paged=" ++ pretty page)
      with ("https://allnovel.org/?s=" ++ encoded ++ "&paged=" ++ pretty page).
    by destruct (net (Some _)).
  - split; [|done]. destruct (JS.isWellFormed query); [|done].
    by destruct (proj2 Hwf eq_refl).
Qed.

(** X13: a paragraph becomes a [data:] address whose payload consists of
    unreserved code units and percent escapes: the encoded [<p>], the
    encoded trimmed text and the encoded [</p>]. *)
Theorem pageOfParagraph_encoded (p : Elem) :
  Runtime.pageOfParagraph p
  = "data:text/html,%3Cp%3E"
    ++ Text.encodeURIComponent (JS.trim (Runtime.text p)) ++ "%3C%2Fp%3E"
  /\ RefUrl.all_chars (fun x => Text.uri_unreserved x || Ascii.eqb x "%")
       (Text.skip 15 (Runtime.pageOfParagraph p)) = true.
Proof.
  unfold Runtime.pageOfParagraph. split.
  - rewrite !encodeURIComponent_app. done.
  - cbn [String.append Text.skip]. apply encodeURIComponent_safe.
Qed.

End Encoding.

(** ** The detail page: failures, requests and genres *)

Section DetailRequests.

Import Dom Async.
Context `{Url.Api}.

(** X14: [getDetail] has no handler around the fetch of its page: when
    the page cannot be fetched, [getDetail] and [getChapterList] of both
    implementations throw the transport failure after that one
    request. *)
Theorem getDetail_unreachable (net : Net) (novelUrl : option string) :
  net (Runtime.toAbsolute novelUrl) = None ->
  Runtime.getDetail novelUrl net
  = (Throw (TransportFailure (Runtime.toAbsolute novelUrl)),
     [Runtime.toAbsolute novelUrl])
  /\ Runtime.getChapterList novelUrl net
     = (Throw (TransportFailure (Runtime.toAbsolute novelUrl)),
        [Runtime.toAbsolute novelUrl])
  /\ ClassVariant.getDetail novelUrl net
     = (Throw (TransportFailure (Runtime.toAbsolute novelUrl)),
        [Runtime.toAbsolute novelUrl])
  /\ ClassVariant.getChapterList novelUrl net
     = (Throw (TransportFailure (Runtime.toAbsolute novelUrl)),
        [Runtime.toAbsolute novelUrl]).
Proof.
  intros Hnet.
  assert (Hr : Runtime.getDetail novelUrl net
               = (Throw (TransportFailure (Runtime.toAbsolute novelUrl)),
                  [Runtime.toAbsolute novelUrl])).
  { unfold Runtime.getDetail.
    by rewrite (run_bind_throw _ _ _ _ _ (run_fetch_fail _ _ Hnet)). }
  assert (Hc : ClassVariant.getDetail novelUrl net
               = (Throw (TransportFailure (Runtime.toAbsolute novelUrl)),
                  [Runtime.toAbsolute novelUrl])).
  { unfold ClassVariant.getDetail.
    by rewrite (run_bind_throw _ _ _ _ _ (run_fetch_fail _ _ Hnet)). }
  split; [done |]. split; [|split; [done |]].
  - unfold Runtime.getChapterList. by rewrite (run_bind_throw _ _ _ _ _ Hr).
  - unfold ClassVariant.getChapterList. by rewrite (run_bind_throw _ _ _ _ _ Hc).
Qed.

(** What following a table of contents requests: nothing, or the address
    of a link of the page that is labelled as one. *)
Lemma runtime_followToc_trace (document : Document) chapters (net : Net) :
  exists r t,
    Runtime.followToc document chapters net = (Ok r, t)
    /\ (t = []
        \/ exists a, a ∈ Runtime.select "a" document
                     /\ Runtime.isTocLink a = true
                     /\ t = [Runtime.toAbsolute (Runtime.attr "href" a)]).
Proof.
  unfold Runtime.followToc.
  destruct (find _ _) as [a|] eqn:Hfind; [|exists chapters, []; by split; [|left]].
  apply find_some in Hfind as [Hin Htoc]. apply list_elem_of_In in Hin.
  unfold try_catch. destruct (JS.truthy _).
  - unfold mbind, IO_bind, bind, fetch.
    destruct (net (Runtime.toAbsolute (Runtime.attr "href" a))); cbn;
      eexists _, _; (split; [done |]); right; by exists a.
  - exists chapters, []. by split; [|left].
Qed.

Lemma class_followToc_trace (doc : Document) chapters (net : Net) :
  exists r t,
    ClassVariant.followToc doc chapters net = (Ok r, t)
    /\ (t = []
        \/ exists a, a ∈ querySelectorAll "a" doc
                     /\ ClassVariant.isTocLink a = true
                     /\ t = [ClassVariant.toAbsolute (getAttribute "href" a)]).
Proof.
  unfold ClassVariant.followToc.
  destruct (find _ _) as [a|] eqn:Hfind; [|exists chapters, []; by split; [|left]].
  apply find_some in Hfind as [Hin Htoc]. apply list_elem_of_In in Hin.
  unfold try_catch, mbind, IO_bind, bind, fetch.
  destruct (net (ClassVariant.toAbsolute (getAttribute "href" a))); cbn;
    eexists _, _; (split; [done |]); right; by exists a.
Qed.

(** X15: [getDetail] requests its page and at most one address more:
    that of a link of the page labelled as a table of contents. *)
Theorem getDetail_requests (net : Net) (novelUrl : option string) :
  (exists t,
     requested (Runtime.getDetail novelUrl net) = Runtime.toAbsolute novelUrl :: t
     /\ (t = []
         \/ exists document a,
              net (Runtime.toAbsolute novelUrl) = Some document
              /\ a ∈ Runtime.select "a" document
              /\ Runtime.isTocLink a = true
              /\ t = [Runtime.toAbsolute (Runtime.attr "href" a)]))
  /\ (exists t,
        requested (ClassVariant.getDetail novelUrl net)
        = ClassVariant.toAbsolute novelUrl :: t
        /\ (t = []
            \/ exists doc a,
                 net (ClassVariant.toAbsolute novelUrl) = Some doc
                 /\ a ∈ querySelectorAll "a" doc
                 /\ ClassVariant.isTocLink a = true
                 /\ t = [ClassVariant.toAbsolute (getAttribute "href" a)])).
Proof.
  split.
  - destruct (net (Runtime.toAbsolute novelUrl)) as [document|] eqn:Hnet.
    + destruct (runtime_getDetail_fetched _ _ _ Hnet) as (chapters & t & Hc & ->).
      exists t. split; [done |]. revert Hc. unfold Runtime.chaptersOf.
      destruct (Runtime.scanChapters _ _ _) as [found_chapters found].
      destruct found.
      * cbn. intros [= _ <-]. by left.
      * destruct (runtime_followToc_trace document found_chapters net)
          as (r & t' & Hrun & Ht').
        rewrite (run_bind_ok _ _ _ _ _ Hrun). cbn. rewrite app_nil_r.
        intros [= _ <-]. destruct Ht' as [-> | (a & Ha & Htoc & ->)]; [by left |].
        right. by exists document, a.
    + exists []. split; [|by left]. unfold Runtime.getDetail.
      by rewrite (run_bind_throw _ _ _ _ _ (run_fetch_fail _ _ Hnet)).
  - destruct (net (ClassVariant.toAbsolute novelUrl)) as [doc|] eqn:Hnet.
    + destruct (class_getDetail_fetched _ _ _ Hnet) as (chapters & t & Hc & ->).
      exists t. split; [done |]. revert Hc. unfold ClassVariant.chaptersOf.
      destruct (ClassVariant.scanContainers _ _ _) as [found_chapters found].
      destruct found.
      * cbn. intros [= _ <-]. by left.
      * destruct (class_followToc_trace doc found_chapters net)
          as (r & t' & Hrun & Ht').
        rewrite (run_bind_ok _ _ _ _ _ Hrun). cbn. rewrite app_nil_r.
        intros [= _ <-]. destruct Ht' as [-> | (a & Ha & Htoc & ->)]; [by left |].
        right. by exists doc, a.
    + exists []. split; [|by left]. unfold ClassVariant.getDetail.
      by rewrite (run_bind_throw _ _ _ _ _ (run_fetch_fail _ _ Hnet)).
Qed.

Lemma trimmed_nonempty (l : list string) :
  Forall (fun g => g <> EmptyString /\ JS.trim g = g)
         (List.filter nonempty (map JS.trim l)).
Proof.
  apply Forall_forall. intros g Hg. apply list_elem_of_In in Hg.
  apply filter_In in Hg as [Hin Hne]. apply in_map_iff in Hin as (x & <- & _).
  split; [by destruct (JS.trim x) | apply trim_idem].
Qed.

Lemma runtime_metaStep_genres (st : Runtime.Meta) (li : Elem) :
  Forall (fun g => g <> EmptyString /\ JS.trim g = g) (Runtime.m_genres st) ->
  Forall (fun g => g <> EmptyString /\ JS.trim g = g)
         (Runtime.m_genres (Runtime.metaStep st li)).
Proof.
  intros Hst. unfold Runtime.metaStep. cbv zeta.
  repeat case_match; cbn [Runtime.m_genres]; try done.
  all: apply Forall_app; split; [done | apply trimmed_nonempty].
Qed.

Lemma runtime_metaOf_genres (document : Document) :
  Forall (fun g => g <> EmptyString /\ JS.trim g = g)
         (Runtime.m_genres (Runtime.metaOf document)).
Proof.
  unfold Runtime.metaOf.
  assert (Hfold : forall l st,
            Forall (fun g => g <> EmptyString /\ JS.trim g = g) (Runtime.m_genres st) ->
            Forall (fun g => g <> EmptyString /\ JS.trim g = g)
                   (Runtime.m_genres (fold_left Runtime.metaStep l st))).
  { induction l as [|li l IH]; intros st Hst; [done |].
    cbn. by apply IH, runtime_metaStep_genres. }
  destruct (Runtime.select ".post-meta li" document) as [|li l].
  - by repeat case_match.
  - by apply Hfold.
Qed.

Lemma runtime_tagsOf_genres (document : Document) :
  Forall (fun g => g <> EmptyString /\ JS.trim g = g) (Runtime.tagsOf document).
Proof.
  unfold Runtime.tagsOf. apply Forall_forall. intros g Hg.
  apply list_elem_of_omap in Hg as (a & _ & Hg).
  destruct (Runtime.cleanText _) as [[|c s]|] eqn:Ht; try done.
  injection Hg as <-. split; [done | exact (cleanText_trimmed _ _ Ht)].
Qed.

(** X16: the genres of a detail record are names: none is empty and none
    has whitespace around it, in both implementations. *)
Theorem getDetail_genres (net : Net) (novelUrl : option string)
  (page : Document) :
  net (Runtime.toAbsolute novelUrl) = Some page ->
  (exists r, outcome (Runtime.getDetail novelUrl net) = Ok r
             /\ Forall (fun g => g <> EmptyString /\ JS.trim g = g)
                       (Runtime.genre r))
  /\ (exists r, outcome (ClassVariant.getDetail novelUrl net) = Ok r
                /\ Forall (fun g => g <> EmptyString /\ JS.trim g = g)
                          (ClassVariant.d_genres r)).
Proof.
  intros Hnet. split.
  - destruct (runtime_getDetail_fetched _ _ _ Hnet) as (chapters & t & _ & ->).
    eexists. split; [done |]. cbn [Runtime.genre].
    apply Forall_app. split; [apply runtime_metaOf_genres | apply runtime_tagsOf_genres].
  - destruct (class_getDetail_fetched _ _ _ Hnet) as (chapters & t & _ & ->).
    eexists. split; [done |]. cbn [ClassVariant.d_genres].
    unfold ClassVariant.genresOf.
    rewrite <- (map_map textContent JS.trim). apply trimmed_nonempty.
Qed.

End DetailRequests.

Lemma getDetail_unreachable_witness :
  Pages.offline (Runtime.toAbsolute Pages.work) = None
  /\ (Runtime.getDetail Pages.work Pages.offline
      = (Async.Throw (Async.TransportFailure (Runtime.toAbsolute Pages.work)),
         [Runtime.toAbsolute Pages.work])
      /\ Runtime.getChapterList Pages.work Pages.offline
         = (Async.Throw (Async.TransportFailure (Runtime.toAbsolute Pages.work)),
            [Runtime.toAbsolute Pages.work])
      /\ ClassVariant.getDetail Pages.work Pages.offline
         = (Async.Throw (Async.TransportFailure (Runtime.toAbsolute Pages.work)),
            [Runtime.toAbsolute Pages.work])
      /\ ClassVariant.getChapterList Pages.work Pages.offline
         = (Async.Throw (Async.TransportFailure (Runtime.toAbsolute Pages.work)),
            [Runtime.toAbsolute Pages.work])).
Proof.
  split; [done |].
  exact (@getDetail_unreachable RefUrl.api Pages.offline Pages.work eq_refl).
Defined.

Lemma getDetail_genres_witness :
  Pages.serving Pages.workUrl Pages.tagged (Runtime.toAbsolute Pages.work)
  = Some Pages.tagged
  /\ (exists r,
        Async.outcome (Runtime.getDetail Pages.work
                         (Pages.serving Pages.workUrl Pages.tagged)) = Async.Ok r
        /\ Runtime.genre r = ["Action"; "Drama"; "Fantasy"])
  /\ ((exists r,
         Async.outcome (Runtime.getDetail Pages.work
                          (Pages.serving Pages.workUrl Pages.tagged)) = Async.Ok r
         /\ Forall (fun g => g <> EmptyString /\ JS.trim g = g) (Runtime.genre r))
      /\ (exists r,
            Async.outcome (ClassVariant.getDetail Pages.work
                             (Pages.serving Pages.workUrl Pages.tagged)) = Async.Ok r
            /\ Forall (fun g => g <> EmptyString /\ JS.trim g = g)
                      (ClassVariant.d_genres r))).
Proof.
  split; [by vm_compute |]. split; [eexists; split; by vm_compute |].
  apply (@getDetail_genres RefUrl.api _ _ Pages.tagged). by vm_compute.
Defined.

(** ** Chapter pages: the request, the entries and the container *)

Section ChapterPages.

Import Dom Async.
Context `{Url.Api}.

(** X17: [getPageList] requests the chapter page and nothing else; it
    throws when that fetch fails, and otherwise every entry of the list
    it returns is a non-empty string. *)
Theorem getPageList_run (net : Net) (chapterUrl : option string) :
  requested (Runtime.getPageList chapterUrl net) = [Runtime.toAbsolute chapterUrl]
  /\ (net (Runtime.toAbsolute chapterUrl) = None ->
      outcome (Runtime.getPageList chapterUrl net)
      = Throw (TransportFailure (Runtime.toAbsolute chapterUrl)))
  /\ (forall pages,
        outcome (Runtime.getPageList chapterUrl net) = Ok pages ->
        Forall (fun entry => entry <> EmptyString) pages).
Proof.
  unfold Runtime.getPageList.
  destruct (net (Runtime.toAbsolute chapterUrl)) as [document|] eqn:Hnet.
  - rewrite (run_bind_ok _ _ _ _ _ (run_fetch_ok _ _ _ Hnet)).
    destruct (Runtime.contentNodeOf document) as [contentNode|].
    + destruct (Runtime.select "img" contentNode) as [|img imgs].
      * cbn. split; [done |]. split; [done |]. intros pages [= <-].
        apply Forall_forall. intros entry Hentry.
        apply list_elem_of_fmap in Hentry as (p & -> & _). done.
      * cbn [mret IO_ret ret requested outcome fst snd app].
        split; [done |]. split; [done |]. intros pages [= <-].
        apply Forall_forall. intros entry Hentry.
        change (entry ∈ omap Runtime.pageOfImage (img :: imgs)) in Hentry.
        apply list_elem_of_omap in Hentry as (i & _ & Hi).
        by apply pageOfImage_spec in Hi as [_ Hne].
    + cbn. split; [done |]. split; [done |]. by intros pages [= <-].
  - rewrite (run_bind_throw _ _ _ _ _ (run_fetch_fail _ _ Hnet)). by cbn.
Qed.

(** X18: the content container of a chapter page is the first match of
    the first content selector whose first match has text; failing
    that, the first [article], and failing that the first [.post],
    whatever their text. *)
Theorem contentNodeOf_selected (document : Document) (node : Elem) :
  Runtime.contentNodeOf document = Some node
  <-> (exists before sel after,
         Runtime.contentSelectors = before ++ sel :: after
         /\ Runtime.selectFirst sel document = Some node
         /\ JS.trim (Runtime.text node) <> EmptyString
         /\ Forall (fun s => forall n, Runtime.selectFirst s document = Some n ->
                                       JS.trim (Runtime.text n) = EmptyString)
                   before)
      \/ (Forall (fun s => forall n, Runtime.selectFirst s document = Some n ->
                                     JS.trim (Runtime.text n) = EmptyString)
                 Runtime.contentSelectors
          /\ (Runtime.selectFirst "article" document = Some node
              \/ (Runtime.selectFirst "article" document = None
                  /\ Runtime.selectFirst ".post" document = Some node))).
Proof.
  unfold Runtime.contentNodeOf.
  destruct (Runtime.firstContent document Runtime.contentSelectors) as [n|] eqn:Hf.
  - split.
    + intros [= <-]. left. by apply runtime_firstContent_spec.
    + intros [Hsel | [Hall _]].
      * apply runtime_firstContent_spec in Hsel. congruence.
      * exfalso. apply runtime_firstContent_spec in Hf
          as (before & sel & after & Heq & Hsel & Hne & _).
        rewrite Heq in Hall. apply Forall_app in Hall as [_ Hall].
        apply Forall_cons in Hall as [Hs _]. by specialize (Hs _ Hsel).
  - assert (Hnone : Forall (fun s => forall n,
                       Runtime.selectFirst s document = Some n ->
                       JS.trim (Runtime.text n) = EmptyString)
                      Runtime.contentSelectors).
    { revert Hf. generalize Runtime.contentSelectors. intros sels.
      induction sels as [|s rest IH]; [done |]. cbn [Runtime.firstContent].
      destruct (Runtime.selectFirst s document) as [n|] eqn:Hs.
      - destruct (JS.trim (Runtime.text n)) as [|c x] eqn:Ht; [|done].
        intros Hrest. constructor; [|by apply IH]. cbn. intros n' Hn'. congruence.
      - intros Hrest. constructor; [|by apply IH]. cbn. intros n' Hn'. congruence. }
    split.
    + intros Hor. right. split; [done |].
      destruct (Runtime.selectFirst "article" document); [by left | by right].
    + intros [Hsel | [_ Hor]].
      * apply runtime_firstContent_spec in Hsel. congruence.
      * by destruct Hor as [-> | [-> ->]].
Qed.

End ChapterPages.

(** ** The sanitiser, applied twice and applied to a whole page *)

Section SanitiserMore.

Import Dom ClassVariant.

Lemma stripHandlers_idem (a : Attrs) :
  stripHandlers (stripHandlers a) = stripHandlers a.
Proof.
  rewrite !stripHandlers_filter. induction a as [|kv a IH]; [done |].
  cbn [List.filter]. destruct (isHandlerName kv.1) eqn:Hkv; cbn [negb]; [done |].
  cbn [List.filter]. by rewrite Hkv, IH.
Qed.

Lemma stripNode_idem (n : Node) : stripNode (stripNode n) = stripNode n.
Proof.
  induction n as [d|t a ks IH|ta tc] using Node_forest_ind; [done | |].
  2: { cbn [stripNode]. by rewrite stripHandlers_idem. }
  cbn [stripNode]. rewrite stripHandlers_idem. f_equal.
  induction ks as [|k ks IHks]; [done |].
  apply Forall_cons in IH as [Hk IH]. cbn [map]. by rewrite Hk, (IHks IH).
Qed.

(** X19: the sanitiser finds nothing left to do in its own output: the
    nodes that [cleanHtmlContent] returns for a fragment are returned
    unchanged when the document whose body holds exactly these nodes is
    sanitised.  (A parser that moves leading head-only elements of the
    markup into the head builds another document.) *)
Theorem cleanHtmlContent_idempotent (q : bool) (hs bs : list Node) :
  exists out,
    cleanHtmlContent (parsedFragment q hs bs) = InnerHTML out
    /\ cleanHtmlContent (parsedFragment q [] out) = InnerHTML out.
Proof.
  eexists. split; [apply cleanHtmlContent_fragment |].
  pose proof (passes_clean q exec ads in_body bs exec_simple ads_simple
                exec_no_attr_tests ads_no_attr_tests) as Hclean.
  change (stripAnc in_body) with in_body in Hclean.
  set (out := map stripNode _) in *.
  assert (Hexec : Forall (fun e => removes exec q (e_tag e, e_attrs e) = false)
                         (elements_in q in_body out)).
  { rewrite Forall_forall in Hclean |- *. intros e He.
    destruct (Hclean e He) as (Hm & _).
    rewrite (matches_removes exec e exec_simple) in Hm.
    by rewrite (elements_in_quirks _ _ _ _ He) in Hm. }
  assert (Hads : Forall (fun e => removes ads q (e_tag e, e_attrs e) = false)
                        (elements_in q in_body out)).
  { rewrite Forall_forall in Hclean |- *. intros e He.
    destruct (Hclean e He) as (_ & Hm & _).
    rewrite (matches_removes ads e ads_simple) in Hm.
    by rewrite (elements_in_quirks _ _ _ _ He) in Hm. }
  rewrite cleanHtmlContent_fragment.
  rewrite (prune_clean q exec exec_simple in_body out Hexec).
  rewrite (prune_clean q ads ads_simple in_body out Hads).
  f_equal. unfold out. rewrite map_map. apply map_ext. intros n.
  apply stripNode_idem.
Qed.

(** The first pass removes elements by tag, and none of the frame. *)
Lemma exec_frame q (a : Attrs) :
  removes exec q ("html", a) = false
  /\ removes exec q ("head", a) = false
  /\ removes exec q ("body", a) = false.
Proof. destruct q; by vm_compute. Qed.

(** X20: a whole page is not a fragment.  When the [body] tag of the
    markup carries one of the advertising classes, the second pass
    removes the body, [doc.body] is null, and [cleanHtmlContent] returns
    the markup as it was given, whatever it contains. *)
Theorem cleanHtmlContent_body_unwanted (q : bool) (rootAttrs headAttrs a : Attrs)
  (hs bs : list Node) :
  unwanted q ("body", a) = true ->
  cleanHtmlContent
    (mkDocument q [Element "html" rootAttrs
                     [Element "head" headAttrs hs; Element "body" a bs]])
  = RawHtml.
Proof.
  intros Hbody. unfold unwanted in Hbody.
  destruct (exec_frame q a) as (_ & _ & Hb). rewrite Hb in Hbody. cbn [orb] in Hbody.
  destruct (exec_frame q rootAttrs) as (Hr & _ & _).
  destruct (exec_frame q headAttrs) as (_ & Hh & _).
  unfold cleanHtmlContent, removeAll. cbn [quirks roots flat_map].
  rewrite exec_parsed, ads_parsed.
  rewrite (prune_element q exec exec_simple), Hr. cbn [flat_map app].
  rewrite !(prune_element q exec exec_simple), Hh, Hb. cbn [flat_map app].
  rewrite (prune_element q ads ads_simple).
  destruct (removes ads q ("html", rootAttrs)); [done |]. cbn [flat_map app].
  rewrite !(prune_element q ads ads_simple), Hbody.
  destruct (removes ads q ("head", headAttrs)); done.
Qed.

End SanitiserMore.

Lemma cleanHtmlContent_body_unwanted_witness :
  ClassVariant.unwanted false ("body", [("class", "home ads")]) = true
  /\ ClassVariant.cleanHtmlContent Markup.wholePage = ClassVariant.RawHtml.
Proof.
  split; [by vm_compute |].
  apply (cleanHtmlContent_body_unwanted false [] [] [("class", "home ads")]).
  by vm_compute.
Defined.

(** ** The class-based search *)

Section ClassSearch.

Import Dom Async ClassVariant.
Context `{Url.Api}.
Variable anchorHref : Document -> Elem -> string.

Local Notation "a ++ b" := (String.append a b).

Lemma class_searchItem_entry (el : Elem) (it : SearchItem) :
  searchItem el = Some it ->
  s_url it <> EmptyString /\ s_name it <> EmptyString
  /\ JS.trim (s_name it) = s_name it.
Proof.
  unfold searchItem. cbv zeta.
  match goal with
  | |- match ?u with _ => _ end = _ -> _ => destruct u as [url|]; [|done]
  end.
  match goal with
  | |- match ?n with _ => _ end = _ -> _ =>
      destruct n as [name|] eqn:Hname; [|done]
  end.
  destruct (JS.truthy (Some url) && JS.truthy (Some name)) eqn:Ht; [|done].
  apply andb_true_iff in Ht as [Hu Hn]. intros [= <-].
  cbn [s_url s_name]. split; [by destruct url |]. split; [by destruct name |].
  revert Hname. repeat case_match; intros [= <-]; apply trim_idem.
Qed.

Lemma class_fallbackItem_entry (doc : Document) (el : Elem) (it : SearchItem) :
  fallbackItem anchorHref doc el = Some it ->
  s_url it <> EmptyString /\ s_name it <> EmptyString
  /\ JS.trim (s_name it) = s_name it.
Proof.
  unfold fallbackItem. cbv zeta.
  destruct (querySelector "a" el) as [a|]; [|done].
  destruct (toAbsolute _) as [url|]; [|done].
  destruct (JS.truthy (Some url) && JS.truthy (Some _)) eqn:Ht; [|done].
  apply andb_true_iff in Ht as [Hu Hn]. intros [= <-].
  cbn [s_url s_name]. split; [by destruct url |].
  split; [by destruct (JS.trim _) | apply trim_idem].
Qed.

(** X21: the class-based [search] has no handler.  On a query with a
    surrogate that is not one of a pair, [encodeURIComponent] throws
    and the URIError reaches the caller with nothing requested.
    Otherwise [search] requests one address: the site's search page
    with the query percent-encoded, or the plain listing when the query
    is empty; a failed fetch is thrown to the caller.  On a fetched
    page the entries come from the result containers, or from the list
    items only when the page has no result container; every entry has
    an address and a trimmed name that are not empty. *)
Theorem class_search_run (query : JS.ustring) (page : Z) (net : Net) :
  let op := search anchorHref query page in
  match searchUrl query page with
  | None =>
      query <> [] /\ JS.isWellFormed query = false
      /\ op net = (Throw URIError, [])
  | Some url =>
      match query with
      | [] => url = "https://allnovel.org/?paged=" ++ pretty page
      | _ => exists encoded,
               Text.encodeURIComponent16 query = Some encoded
               /\ JS.isWellFormed query = true
               /\ url = "https://allnovel.org/?s=" ++ encoded
                        ++ "&paged=" ++ pretty page
      end
      /\ requested (op net) = [Some url]
      /\ match net (Some url) with
         | None => outcome (op net) = Throw (TransportFailure (Some url))
         | Some doc =>
             exists r,
               outcome (op net) = Ok r
               /\ Forall (fun it => s_url it <> EmptyString
                                    /\ s_name it <> EmptyString
                                    /\ JS.trim (s_name it) = s_name it)
                         (s_results r)
               /\ match querySelectorAll
                          ".search-results .post, .archive .post, article" doc with
                  | [] => s_results r
                          = omap (fallbackItem anchorHref doc)
                                 (querySelectorAll
                                    ".post-list li, .novel-list li, .item" doc)
                  | items => s_results r = omap searchItem items
                  end
         end
  end.
Proof.
  intros op. pose proof (encodeURIComponent16_wellFormed query) as Hwf.
  unfold op, search.
  destruct (searchUrl query page) as [url|] eqn:Hurl.
  - split.
    { revert Hurl. unfold searchUrl. destruct query as [|u r]; [by intros [= <-] |].
      destruct (Text.encodeURIComponent16 (u :: r)) as [encoded|] eqn:Henc; [|done].
      cbn. intros [= <-]. exists encoded. split; [done |]. split; [|done].
      by apply Hwf. }
    rewrite (run_bind_ok _ _ _ _ _ (run_ret url net)). cbn [fst snd app].
    destruct (net (Some url)) as [doc|] eqn:Hnet.
    + rewrite (run_bind_ok _ _ _ _ _ (run_fetch_ok _ _ _ Hnet)).
      split; [done |]. eexists. split; [done |]. cbn [s_results].
      generalize (querySelectorAll ".post-list li, .novel-list li, .item" doc).
      generalize (querySelectorAll
                    ".search-results .post, .archive .post, article" doc).
      intros [|el els] fallback.
      * split; [|done]. apply Forall_forall. intros it Hit.
        apply list_elem_of_omap in Hit as (e & _ & Hit).
        by eapply class_fallbackItem_entry.
      * split; [|done]. apply Forall_forall. intros it Hit.
        apply list_elem_of_omap in Hit as (e & _ & Hit).
        by eapply class_searchItem_entry.
    + by rewrite (run_bind_throw _ _ _ _ _ (run_fetch_fail _ _ Hnet)).
  - revert Hurl. unfold searchUrl. destruct query as [|u r]; [done |].
    destruct (Text.encodeURIComponent16 (u :: r)) as [encoded|] eqn:Henc; [done |].
    intros _. split; [done |]. split; [|done].
    destruct (JS.isWellFormed (u :: r)); [|done]. by destruct (proj2 Hwf eq_refl).
Qed.

End ClassSearch.

(** ** Chapter content: the container and the images *)

Section ChapterContainer.

Import Dom ClassVariant.
Context `{Url.Api}.

Lemma class_firstChapterContent_spec (doc : Document) (sels : list string) :
  match firstChapterContent doc sels with
  | Some el =>
      exists before sel after,
        sels = before ++ sel :: after
        /\ querySelector sel doc = Some el
        /\ (10 < String.length (JS.trim (textContent el)))%nat
        /\ Forall (fun s => forall n, querySelector s doc = Some n ->
                     (String.length (JS.trim (textContent n)) <= 10)%nat)
                  before
  | None =>
      Forall (fun s => forall n, querySelector s doc = Some n ->
                (String.length (JS.trim (textContent n)) <= 10)%nat)
             sels
  end.
Proof.
  induction sels as [|s rest IH]; cbn [firstChapterContent]; [done |].
  destruct (querySelector s doc) as [n|] eqn:Hs.
  - destruct (10 <? String.length (JS.trim (textContent n)))%nat eqn:Hlen.
    + apply Nat.ltb_lt in Hlen. by exists [], s, rest.
    + apply Nat.ltb_ge in Hlen.
      assert (Hhead : forall n', querySelector s doc = Some n' ->
                (String.length (JS.trim (textContent n')) <= 10)%nat)
        by (intros n' Hn'; congruence).
      destruct (firstChapterContent doc rest) as [el|].
      * destruct IH as (before & sel & after & -> & Hsel & Hgt & Hall).
        exists (s :: before), sel, after. split; [done |]. split; [done |].
        split; [done |]. by constructor.
      * by constructor.
  - assert (Hhead : forall n', querySelector s doc = Some n' ->
              (String.length (JS.trim (textContent n')) <= 10)%nat)
      by (intros n' Hn'; congruence).
    destruct (firstChapterContent doc rest) as [el|].
    + destruct IH as (before & sel & after & -> & Hsel & Hgt & Hall).
      exists (s :: before), sel, after. split; [done |]. split; [done |].
      split; [done |]. by constructor.
    + by constructor.
Qed.

(** The search for the child with most text keeps the first child whose
    text is longer than that of every child before it and at least as
    long as that of every child after it. *)
Lemma class_largerOf_fold (els : list Elem) (st : option Elem * nat) :
  (fold_left largerOf els st = st
   /\ Forall (fun c => (String.length (textContent c) <= snd st)%nat) els)
  \/ exists before e after,
       els = before ++ e :: after
       /\ fold_left largerOf els st = (Some e, String.length (textContent e))
       /\ (snd st < String.length (textContent e))%nat
       /\ Forall (fun c => (String.length (textContent c)
                            < String.length (textContent e))%nat) before
       /\ Forall (fun c => (String.length (textContent c)
                            <= String.length (textContent e))%nat) after.
Proof.
  revert st. induction els as [|c rest IH]; intros st; [by left |].
  assert (Hstep : fold_left largerOf (c :: rest) st
                  = fold_left largerOf rest
                      (if (snd st <? String.length (textContent c))%nat
                       then (Some c, String.length (textContent c)) else st))
    by done.
  rewrite !Hstep. clear Hstep.
  destruct (snd st <? String.length (textContent c))%nat eqn:Hlen.
  - apply Nat.ltb_lt in Hlen. right.
    destruct (IH (Some c, String.length (textContent c)))
      as [[Hfix Hall] | (before & e & after & -> & Hfold & Hgt & Hb & Ha)].
    + exists [], c, rest. by rewrite Hfix.
    + exists (c :: before), e, after. cbn [snd] in Hgt. rewrite Hfold.
      split; [done |]. split; [done |]. split; [lia |].
      split; [by constructor | done].
  - apply Nat.ltb_ge in Hlen.
    destruct (IH st)
      as [[Hfix Hall] | (before & e & after & -> & Hfold & Hgt & Hb & Ha)].
    + left. split; [done | by constructor].
    + right. exists (c :: before), e, after. rewrite Hfold.
      split; [done |]. split; [done |]. split; [done |].
      split; [constructor; [lia | done] | done].
Qed.

(** X22: the container of a chapter, in the class-based implementation,
    is the first match of the first selector whose first match has more
    than ten code units of trimmed text.  Failing that it is, inside the
    first [article] or [.post], the first [div] or [p] with the longest
    text, or the article itself when none of them has text.  There is
    no container exactly when no selector qualifies and the page has no
    article. *)
Theorem class_contentElOf_spec (doc : Document) :
  let short := fun s => forall n, querySelector s doc = Some n ->
                 (String.length (JS.trim (textContent n)) <= 10)%nat in
  let len := fun c => String.length (textContent c) in
  match contentElOf doc with
  | Some el =>
      (exists before sel after,
         chapterSelectors = before ++ sel :: after
         /\ querySelector sel doc = Some el
         /\ (10 < String.length (JS.trim (textContent el)))%nat
         /\ Forall short before)
      \/ (exists article,
            Forall short chapterSelectors
            /\ querySelector "article, .post" doc = Some article
            /\ ((el = article
                 /\ Forall (fun c => len c = 0%nat)
                           (querySelectorAll "div, p" article))
                \/ (exists before after,
                      querySelectorAll "div, p" article = before ++ el :: after
                      /\ (0 < len el)%nat
                      /\ Forall (fun c => (len c < len el)%nat) before
                      /\ Forall (fun c => (len c <= len el)%nat) after)))
  | None =>
      Forall short chapterSelectors
      /\ querySelector "article, .post" doc = None
  end.
Proof.
  intros short len. unfold contentElOf.
  pose proof (class_firstChapterContent_spec doc chapterSelectors) as Hfirst.
  destruct (firstChapterContent doc chapterSelectors) as [el|]; [by left |].
  generalize dependent (querySelector "article, .post" doc).
  intros [article|] ; [|done].
  destruct (class_largerOf_fold (querySelectorAll "div, p" article) (None, 0%nat))
    as [[Hfix Hall] | (before & e & after & Heq & Hfold & Hgt & Hb & Ha)].
  - rewrite Hfix. cbn [fst]. right. exists article. split; [done |].
    split; [done |]. left. split; [done |].
    eapply Forall_impl; [exact Hall |]. cbn. intros c Hc. unfold len. lia.
  - rewrite Hfold. cbn [fst]. right. exists article. split; [done |].
    split; [done |]. right. by exists before, after.
Qed.

Lemma lookup_removeAttribute (name n : string) (a : Attrs) :
  lookup_attr name (removeAttribute n a)
  = if String.eqb n name then None else lookup_attr name a.
Proof.
  unfold removeAttribute. induction a as [|[k v] a IH].
  - cbn. by destruct (String.eqb n name).
  - cbn [List.filter fst]. destruct (String.eqb k n) eqn:Hkn; cbn [negb].
    + apply String.eqb_eq in Hkn as ->. rewrite IH. cbn [lookup_attr].
      by destruct (String.eqb n name).
    + cbn [lookup_attr]. destruct (String.eqb k name) eqn:Hk; [|done].
      apply String.eqb_eq in Hk as ->. rewrite String.eqb_sym in Hkn. by rewrite Hkn.
Qed.

Lemma lookup_setAttribute (name n value : string) (a : Attrs) :
  lookup_attr name (setAttribute n value a)
  = if String.eqb n name then Some value else lookup_attr name a.
Proof.
  induction a as [|[k v] a IH].
  - cbn. by destruct (String.eqb n name).
  - cbn [setAttribute]. destruct (String.eqb k n) eqn:Hkn.
    + apply String.eqb_eq in Hkn as ->. cbn [lookup_attr].
      by destruct (String.eqb n name).
    + cbn [lookup_attr]. rewrite IH. destruct (String.eqb k name) eqn:Hk; [|done].
      apply String.eqb_eq in Hk as ->. rewrite String.eqb_sym in Hkn. by rewrite Hkn.
Qed.

(** X23: after the image pass an image has no [data-src],
    [data-lazy-src] or [loading] attribute; its [src] is the resolved
    and normalised lazy or plain source when there is one, and is left
    as it was otherwise; every other attribute reads as before. *)
Theorem rewriteImage_attributes (a : Attrs) :
  lookup_attr "data-src" (rewriteImage a) = None
  /\ lookup_attr "data-lazy-src" (rewriteImage a) = None
  /\ lookup_attr "loading" (rewriteImage a) = None
  /\ lookup_attr "src" (rewriteImage a)
     = (let src := lookup_attr "data-src" a ||| lookup_attr "src" a in
        if JS.truthy src
        then Some (toString (fixImageUrl (toAbsolute src)))
        else lookup_attr "src" a)
  /\ (forall name,
        name <> "src" -> name <> "data-src" -> name <> "data-lazy-src" ->
        name <> "loading" ->
        lookup_attr name (rewriteImage a) = lookup_attr name a).
Proof.
  unfold rewriteImage. cbv zeta.
  split; [by rewrite !lookup_removeAttribute |].
  split; [by rewrite !lookup_removeAttribute |].
  split; [by rewrite !lookup_removeAttribute |].
  split.
  - rewrite !lookup_removeAttribute. cbn.
    destruct (JS.truthy _); [|done]. by rewrite lookup_setAttribute.
  - intros name Hsrc Hdata Hlazy Hloading. rewrite !lookup_removeAttribute.
    rewrite <- String.eqb_neq in Hsrc, Hdata, Hlazy, Hloading.
    rewrite (String.eqb_sym "loading"), Hloading.
    rewrite (String.eqb_sym "data-lazy-src"), Hlazy.
    rewrite (String.eqb_sym "data-src"), Hdata.
    destruct (JS.truthy _); [|done].
    by rewrite lookup_setAttribute, (String.eqb_sym "src"), Hsrc.
Qed.

End ChapterContainer.

(** ** The class-based listings: where the loop stops, and the order *)

Section ClassListings.

Import Dom Async.
Context `{Url.Api}.

(** The candidate loop on a list of candidates none of which serves a
    page with an entry: every candidate is requested, and the document
    is the last one fetched, or the one the loop began with. *)
Lemma class_fetchCandidates_last (probe : string) (cands : list string)
  (net : Net) (doc : option Document) :
  Forall (fun u => forall d, net (Some u) = Some d -> querySelector probe d = None)
         cands ->
  ClassVariant.fetchCandidates probe cands doc net
  = (Ok (match last (omap (fun u => net (Some u)) cands) with
         | Some d => Some d
         | None => doc
         end),
     map Some cands).
Proof.
  revert doc. induction cands as [|u rest IH]; intros doc Hall; [done |].
  apply Forall_cons in Hall as [Hu Hrest].
  cbn [ClassVariant.fetchCandidates].
  rewrite (run_bind_ok _ _ _ _ _ (run_guarded_fetch net u)).
  cbn [omap list_omap]. destruct (net (Some u)) as [d|] eqn:Hnet.
  - rewrite (Hu d eq_refl). rewrite bool_decide_eq_false_2 by by intros [? ?].
    rewrite (IH (Some d) Hrest). cbn [fst snd app].
    rewrite last_cons. by destruct (last _).
  - rewrite (IH doc Hrest). done.
Qed.

(** X24: the candidate loop of the class-based listings, in full.  It
    stops at the first candidate that serves a page on which the probe
    selector finds an entry, and uses that page.  When no candidate
    serves such a page, every candidate is requested and the page used
    is the last one that could be fetched (none when every fetch
    failed). *)
Theorem class_fetchCandidates_stops (probe : string) (cands : list string)
  (net : Net) :
  let barren := fun u : string =>
    forall d, net (Some u) = Some d -> querySelector probe d = None in
  (forall before u after d,
     cands = before ++ u :: after -> Forall barren before ->
     net (Some u) = Some d -> is_Some (querySelector probe d) ->
     ClassVariant.fetchCandidates probe cands None net
     = (Ok (Some d), map Some (before ++ [u])))
  /\ (Forall barren cands ->
      ClassVariant.fetchCandidates probe cands None net
      = (Ok (last (omap (fun u => net (Some u)) cands)), map Some cands)).
Proof.
  intros barren. split.
  - generalize (@None Document). intros doc before. revert doc cands.
    induction before as [|b before IH];
      intros doc cands u after d -> Hbefore Hnet Hprobe.
    + cbn [app ClassVariant.fetchCandidates].
      rewrite (run_bind_ok _ _ _ _ _ (run_guarded_fetch net u)), Hnet.
      by rewrite bool_decide_eq_true_2.
    + apply Forall_cons in Hbefore as [Hb Hbefore].
      cbn [app ClassVariant.fetchCandidates].
      rewrite (run_bind_ok _ _ _ _ _ (run_guarded_fetch net b)).
      destruct (net (Some b)) as [d'|] eqn:Hnb.
      * rewrite (Hb d' Hnb). rewrite bool_decide_eq_false_2 by by intros [? ?].
        by rewrite (IH (Some d') _ u after d eq_refl Hbefore Hnet Hprobe).
      * by rewrite (IH doc _ u after d eq_refl Hbefore Hnet Hprobe).
  - intros Hall. rewrite (class_fetchCandidates_last probe cands net None Hall).
    by destruct (last _).
Qed.

(** X25: the dedupe loop of the class-based [getPopular] keeps the first
    entry of every address and loses no address. *)
Theorem class_dedupe_first_wins (before after : list ClassVariant.Item)
  (it : ClassVariant.Item) :
  ClassVariant.url it ∉ map ClassVariant.url before ->
  it ∈ ClassVariant.dedupe ∅ (before ++ it :: after)
  /\ (forall other,
        other ∈ after -> ClassVariant.url other = ClassVariant.url it ->
        other <> it ->
        other ∉ ClassVariant.dedupe ∅ (before ++ it :: after)).
Proof.
  intros Hnew. split; [by apply class_dedupe_first |].
  intros other Hafter Hurl Hne Hin.
  destruct (class_dedupe_fresh ∅ (before ++ it :: after)) as [Hnd _].
  pose proof (class_dedupe_first ∅ before after it (not_elem_of_empty _) Hnew) as Hit.
  apply list_elem_of_lookup in Hin as [i Hi]. apply list_elem_of_lookup in Hit as [j Hj].
  assert (Hij : i = j).
  { eapply (NoDup_lookup _ i j (ClassVariant.url it) Hnd).
    - by rewrite list_lookup_fmap, Hi; cbn; rewrite Hurl.
    - by rewrite list_lookup_fmap, Hj. }
  subst j. congruence.
Qed.

(** X26: the class-based [getLatestUpdates] returns, in the order of the
    page and without removing anything, the entries of one page that a
    candidate address served; every entry has an address and a trimmed
    name that are not empty. *)
Theorem class_getLatestUpdates_entries (page : Z) (net : Net)
  (r : ClassVariant.Updates) :
  outcome (ClassVariant.getLatestUpdates page net) = Ok r ->
  Forall (fun it => ClassVariant.u_url it <> EmptyString
                    /\ ClassVariant.u_name it <> EmptyString
                    /\ JS.trim (ClassVariant.u_name it) = ClassVariant.u_name it)
         (ClassVariant.u_results r)
  /\ exists u doc,
       u ∈ ClassVariant.latestCandidates page
       /\ net (Some u) = Some doc
       /\ ClassVariant.u_results r
          = omap ClassVariant.latestItem
                 (querySelectorAll "article, .post, .entry" doc).
Proof.
  unfold ClassVariant.getLatestUpdates.
  destruct (class_fetchCandidates_run "article, .post, .entry" net
              (ClassVariant.latestCandidates page) None)
    as [d [t [Hrun _]]].
  rewrite (run_bind_ok _ _ _ _ _ Hrun). destruct d as [doc|]; [|done].
  apply class_fetchCandidates_served in Hrun as [[=] | (u & Hu & Hdoc)].
  cbn. intros [= <-]. cbn [ClassVariant.u_results]. split.
  - apply Forall_forall. intros it Hit.
    apply list_elem_of_omap in Hit as (el & _ & Hit). revert Hit.
    unfold ClassVariant.latestItem. cbv zeta.
    destruct (querySelector "h2 a, .entry-title a, a" el) as [a|]; [|done].
    destruct (ClassVariant.toAbsolute _) as [url|]; [|done].
    destruct (JS.truthy (Some url) && JS.truthy (Some _)) eqn:Ht; [|done].
    apply andb_true_iff in Ht as [Hu' Hn]. intros [= <-].
    cbn [ClassVariant.u_url ClassVariant.u_name].
    split; [by destruct url |]. split; [by destruct (JS.trim _) | apply trim_idem].
  - by exists u, doc.
Qed.

End ClassListings.

(** The popular page with entries stops the loop at the first
    candidate; a page without entries at the second candidate is kept
    while the third is requested. *)
Lemma class_fetchCandidates_stops_witness :
  ClassVariant.fetchCandidates "article, .post, .novel-item, .entry"
    (ClassVariant.popularCandidates 1) None
    (Pages.serving Listings.popularUrl Listings.popularTwice)
  = (Async.Ok (Some Listings.popularTwice), [Some Listings.popularUrl])
  /\ ClassVariant.fetchCandidates "article, .post, .novel-item, .entry"
       (ClassVariant.popularCandidates 1) None
       (Pages.serving "https://allnovel.org/hot/?paged=1" Chapters.bare)
     = (Async.Ok (Some Chapters.bare),
        map Some (ClassVariant.popularCandidates 1)).
Proof.
  split.
  - apply (proj1 (class_fetchCandidates_stops
                    "article, .post, .novel-item, .entry"
                    (ClassVariant.popularCandidates 1)
                    (Pages.serving Listings.popularUrl Listings.popularTwice))
             [] Listings.popularUrl
             (tail (ClassVariant.popularCandidates 1)) Listings.popularTwice);
      [by vm_compute | done | by vm_compute | vm_compute; by eexists].
  - apply (proj2 (class_fetchCandidates_stops
                    "article, .post, .novel-item, .entry"
                    (ClassVariant.popularCandidates 1)
                    (Pages.serving "https://allnovel.org/hot/?paged=1"
                                   Chapters.bare))).
    repeat constructor; intros d Hd; vm_compute in Hd;
      first [ discriminate Hd | injection Hd as <-; by vm_compute ].
Defined.

Lemma class_dedupe_first_wins_witness :
  let a := ClassVariant.mkItem "A Tale" "https://allnovel.org/novel/a" None None in
  let b := ClassVariant.mkItem "B Tale" "https://allnovel.org/novel/b" None None in
  let a' := ClassVariant.mkItem "A Tale, again" "https://allnovel.org/novel/a"
                                None None in
  (ClassVariant.url a ∉ map ClassVariant.url [b])
  /\ ClassVariant.dedupe ∅ ([b] ++ a :: [a']) = [b; a]
  /\ (a ∈ ClassVariant.dedupe ∅ ([b] ++ a :: [a'])
      /\ (forall other,
            other ∈ [a'] -> ClassVariant.url other = ClassVariant.url a ->
            other <> a ->
            other ∉ ClassVariant.dedupe ∅ ([b] ++ a :: [a']))).
Proof.
  intros a b a'.
  assert (Hnew : ClassVariant.url a ∉ map ClassVariant.url [b]).
  { intros Hin. apply list_elem_of_In in Hin. by destruct Hin as [[=] | []]. }
  split; [exact Hnew |]. split; [by vm_compute |].
  exact (class_dedupe_first_wins [b] [a'] a Hnew).
Defined.

Lemma class_getLatestUpdates_entries_witness :
  exists r,
    Async.outcome (ClassVariant.getLatestUpdates 1
                     (Pages.serving "https://allnovel.org/latest/?paged=1"
                                    Listings.popularTwice))
    = Async.Ok r
    /\ map ClassVariant.u_name (ClassVariant.u_results r)
       = ["A Tale"; "B Tale"; "A Tale"]
    /\ (Forall (fun it => ClassVariant.u_url it <> EmptyString
                          /\ ClassVariant.u_name it <> EmptyString
                          /\ JS.trim (ClassVariant.u_name it) = ClassVariant.u_name it)
               (ClassVariant.u_results r)
        /\ exists u doc,
             u ∈ ClassVariant.latestCandidates 1
             /\ Pages.serving "https://allnovel.org/latest/?paged=1"
                              Listings.popularTwice (Some u) = Some doc
             /\ ClassVariant.u_results r
                = omap ClassVariant.latestItem
                       (Dom.querySelectorAll "article, .post, .entry" doc)).
Proof.
  eexists. split; [by vm_compute |]. split; [by vm_compute |].
  apply (@class_getLatestUpdates_entries RefUrl.api 1
           (Pages.serving "https://allnovel.org/latest/?paged=1"
                          Listings.popularTwice)).
  by vm_compute.
Defined.
